(** * rescue-install: configuration parser and progress reporter

    A shallow embedding of [config_parser.py] and [progress_reporter.py]
    and the properties of their specification.

    Conventions of the embedding

    - A Python [str] is a list of characters.  Characters are the code
      points 0..255 (Rocq's [ascii]); [isspace], [lower] and the regular
      expression class [\d] are Python's, restricted to that range.
    - A Python [dict] keyed by strings is a [gmap]; where the code iterates
      a dict in insertion order the items are kept as a list.
    - A raised exception is the [Raise] result of a small error monad.
    - Console output of the progress reporter is the [output] field of its
      state; the clock is an argument of every operation that reads it. *)

From Stdlib Require Import ZArith Ascii String List Bool Lia.
From Stdlib Require Import DecimalString DecimalZ.
From stdpp Require Import gmap strings list fin_maps.
Import ListNotations.

#[local] Open Scope Z_scope.

(** ** Python strings *)

Module Py.

Definition str := list ascii.

Definition lit (s : string) : str := list_ascii_of_string s.
Arguments lit s%_string.

Definition code (c : ascii) : N := N_of_ascii c.

Definition char_eqb (a b : ascii) : bool := Ascii.eqb a b.

Definition str_eqb (a b : str) : bool := bool_decide (a = b).

(** [c.isspace()] for a code point below 256. *)
Definition isspace (c : ascii) : bool :=
  let n := code c in
  ((9 <=? n) && (n <=? 13) || (28 <=? n) && (n <=? 32)
   || (n =? 133) || (n =? 160))%N.

(** The two quote characters, the argument of the quote-stripping calls. *)
Definition dquote : ascii := ascii_of_N 34.
Definition squote : ascii := ascii_of_N 39.
Definition isquote (c : ascii) : bool := char_eqb c dquote || char_eqb c squote.

(** A text between two double quotes. *)
Definition quoted (s : str) : str := [dquote] ++ s ++ [dquote].

(** [c.lower()] for a code point below 256: A-Z, and the Latin-1 capitals
    0xC0-0xDE except the multiplication sign 0xD7. *)
Definition lower_char (c : ascii) : ascii :=
  let n := code c in
  if ((65 <=? n) && (n <=? 90)
      || (192 <=? n) && (n <=? 222) && negb (n =? 215))%N
  then ascii_of_N (n + 32) else c.

Definition lower (s : str) : str := map lower_char s.

Fixpoint dropwhile (p : ascii -> bool) (s : str) : str :=
  match s with
  | [] => []
  | c :: r => if p c then dropwhile p r else s
  end.

Definition lstrip_of (p : ascii -> bool) (s : str) : str := dropwhile p s.
Definition rstrip_of (p : ascii -> bool) (s : str) : str :=
  rev (dropwhile p (rev s)).

(** [s.strip(chars)], with [chars] given as a membership test. *)
Definition strip_of (p : ascii -> bool) (s : str) : str :=
  rstrip_of p (lstrip_of p s).

(** [s.strip()] *)
Definition strip (s : str) : str := strip_of isspace s.

(** [s.strip(q)] where [q] holds the double and the single quote. *)
Definition strip_quotes (s : str) : str := strip_of isquote s.

(** [s.startswith(p)] *)
Fixpoint startswith (p s : str) : bool :=
  match p, s with
  | [], _ => true
  | a :: p', b :: s' => char_eqb a b && startswith p' s'
  | _ :: _, [] => false
  end.

(** [s.endswith(p)] *)
Definition endswith (p s : str) : bool := startswith (rev p) (rev s).

(** [c in s] for a one-character [c]. *)
Definition contains (c : ascii) (s : str) : bool := existsb (char_eqb c) s.

(** [s.split(sep)] for a one-character separator: never empty, one more
    piece than there are separators. *)
Fixpoint split (sep : ascii) (s : str) : list str :=
  match s with
  | [] => [[]]
  | c :: r =>
      if char_eqb c sep then [] :: split sep r
      else match split sep r with
           | p :: ps => (c :: p) :: ps
           | [] => [[c]]
           end
  end.

(** [s.split(sep, maxsplit)]: at most [maxsplit] cuts, from the left. *)
Fixpoint split_max (sep : ascii) (maxsplit : nat) (s : str) : list str :=
  match maxsplit with
  | O => [s]
  | S m =>
      match s with
      | [] => [[]]
      | c :: r =>
          if char_eqb c sep then [] :: split_max sep m r
          else match split_max sep maxsplit r with
               | p :: ps => (c :: p) :: ps
               | [] => [[c]]
               end
      end
  end.

(** [s.split()]: the maximal runs of non-whitespace characters.  [cur] is
    the run being read, reversed. *)
Fixpoint split_ws_from (cur : str) (s : str) : list str :=
  match s with
  | [] => match cur with [] => [] | _ => [rev cur] end
  | c :: r =>
      if isspace c
      then match cur with
           | [] => split_ws_from [] r
           | _ => rev cur :: split_ws_from [] r
           end
      else split_ws_from (c :: cur) r
  end.

Definition split_ws (s : str) : list str := split_ws_from [] s.

(** [sep.join(l)] *)
Fixpoint join (sep : str) (l : list str) : str :=
  match l with
  | [] => []
  | [x] => x
  | x :: r => x ++ sep ++ join sep r
  end.

(** The truth value of a string: it is not empty. *)
Definition truthy (s : str) : bool :=
  match s with [] => false | _ :: _ => true end.

(** [s[1:-1]] *)
Definition slice_1_m1 (s : str) : str := removelast (tl s).

(** Neither the first nor the last character of [s] satisfies [p]: the
    strings that [strip_of p] leaves as they are. *)
Definition edge_free (p : ascii -> bool) (s : str) : bool :=
  match s with [] => true | c :: _ => negb (p c) end
  && match rev s with [] => true | c :: _ => negb (p c) end.

(** No character of [s] satisfies [p]. *)
Definition free_of (p : ascii -> bool) (s : str) : bool := forallb (fun c => negb (p c)) s.

(** [str(z)] for an integer: the decimal digits, with a minus sign for a
    negative number. *)
Definition str_of_int (z : Z) : str :=
  list_ascii_of_string (NilEmpty.string_of_int (Z.to_int z)).

(** The text of a decimal number without sign. *)
Definition digit_text (d : Decimal.uint) : str :=
  list_ascii_of_string (NilEmpty.string_of_uint d).

Definition isdigit (c : ascii) : bool :=
  let n := code c in ((48 <=? n) && (n <=? 57))%N.

Definition underscore : ascii := ascii_of_N 95.

(** The digit groups of an integer literal: digits, with single underscores
    allowed between two digits. [prev] tells whether the previous character
    was a digit. *)
Fixpoint int_body_ok (prev : bool) (s : str) : bool :=
  match s with
  | [] => prev
  | c :: r =>
      if isdigit c then int_body_ok true r
      else if char_eqb c underscore then prev && int_body_ok false r
      else false
  end.

Definition digits_of (s : str) : str := List.filter isdigit s.

Definition uint_of_digits (s : str) : option Decimal.uint :=
  NilEmpty.uint_of_string (string_of_list_ascii s).

Definition nat_literal (s : str) : option Z :=
  if int_body_ok false s
  then option_map Z.of_uint (uint_of_digits (digits_of s))
  else None.

(** The whitespace that [int] drops around a literal: the six ASCII
    characters of the C function isspace, to which the interpreter adds the
    whitespace above 127; the separators 0x1c-0x1f, which [strip] removes,
    are not among them. *)
Definition isspace_int (c : ascii) : bool :=
  let n := code c in
  ((9 <=? n) && (n <=? 13) || (n =? 32) || (n =? 133) || (n =? 160))%N.

(** [int(s)] in base 10: surrounding whitespace is dropped, then an
    optional sign and the digit groups; [None] stands for [ValueError].
    The bound on the number of digits, a setting of the interpreter
    (sys.set_int_max_str_digits), is not part of the embedding. *)
Definition int (s : str) : option Z :=
  match strip_of isspace_int s with
  | c :: r =>
      if char_eqb c (ascii_of_N 45) then option_map Z.opp (nat_literal r)
      else if char_eqb c (ascii_of_N 43) then nat_literal r
      else nat_literal (c :: r)
  | [] => None
  end.

End Py.

Abbreviation pystr := Py.str.
Abbreviation lit := Py.lit.

(** ** Regular expressions, as Python's [re.match] reads the patterns
       of this program *)

Module Re.

Inductive regex : Type :=
| Empty
| Eps
| Class (p : ascii -> bool)
| Cat (r1 r2 : regex)
| Alt (r1 r2 : regex)
| Star (r : regex).

(** [r+] *)
Definition Plus (r : regex) : regex := Cat r (Star r).

(** A literal character and a literal string. *)
Definition Chr (c : ascii) : regex := Class (Py.char_eqb c).
Definition Str (s : pystr) : regex := fold_right (fun c r => Cat (Chr c) r) Eps s.

(** Character classes. *)
Definition range (lo hi : ascii) (c : ascii) : bool :=
  ((Py.code lo <=? Py.code c) && (Py.code c <=? Py.code hi))%N.
Definition one_of (s : pystr) (c : ascii) : bool := existsb (Py.char_eqb c) s.
Definition union (p q : ascii -> bool) (c : ascii) : bool := p c || q c.

(** [.] without DOTALL: any character but the newline. *)
Definition newline : ascii := ascii_of_N 10.
Definition dot (c : ascii) : bool := negb (Py.char_eqb c newline).

(** [\d] *)
Definition digit : ascii -> bool := Py.isdigit.

Fixpoint nullable (r : regex) : bool :=
  match r with
  | Empty => false
  | Eps => true
  | Class _ => false
  | Cat r1 r2 => nullable r1 && nullable r2
  | Alt r1 r2 => nullable r1 || nullable r2
  | Star _ => true
  end.

Fixpoint deriv (c : ascii) (r : regex) : regex :=
  match r with
  | Empty => Empty
  | Eps => Empty
  | Class p => if p c then Eps else Empty
  | Cat r1 r2 =>
      if nullable r1
      then Alt (Cat (deriv c r1) r2) (deriv c r2)
      else Cat (deriv c r1) r2
  | Alt r1 r2 => Alt (deriv c r1) (deriv c r2)
  | Star r1 => Cat (deriv c r1) (Star r1)
  end.

(** The whole of [s] is a word of [r]. *)
Fixpoint fullmatch (r : regex) (s : pystr) : bool :=
  match s with
  | [] => nullable r
  | c :: s' => fullmatch (deriv c r) s'
  end.

(** [re.match(r + '$', s)] is not [None]: without MULTILINE, [$] stands at
    the end of the string and also just before a newline that ends it.  A
    leading [^] adds nothing to [re.match]. *)
Definition match_dollar (r : regex) (s : pystr) : bool :=
  fullmatch r s
  || (Py.endswith [newline] s && fullmatch r (removelast s)).

(** The words of a regular expression, as a relation. *)
Inductive matches : regex -> pystr -> Prop :=
| m_eps : matches Eps []
| m_class p c : p c = true -> matches (Class p) [c]
| m_cat r1 r2 s1 s2 : matches r1 s1 -> matches r2 s2 -> matches (Cat r1 r2) (s1 ++ s2)
| m_alt_l r1 r2 s : matches r1 s -> matches (Alt r1 r2) s
| m_alt_r r1 r2 s : matches r2 s -> matches (Alt r1 r2) s
| m_star_nil r : matches (Star r) []
| m_star_cons r s1 s2 : matches r s1 -> matches (Star r) s2 -> matches (Star r) (s1 ++ s2).

End Re.

(** ** Exceptions *)

Inductive exn : Type :=
| ValueError (msg : pystr)        (* raised by the validators *)
| IntValueError (text : pystr)    (* the ValueError of [int(text)] *)
| TypeError (field_name : pystr). (* a keyword argument of another type
                                     than the field's annotation *)

Inductive result (A : Type) : Type :=
| Return (a : A)
| Raise (e : exn).
Arguments Return {A} a.
Arguments Raise {A} e.

Definition bind {A B : Type} (m : result A) (k : A -> result B) : result B :=
  match m with
  | Return a => k a
  | Raise e => Raise e
  end.

Notation "x <- m ;; k" := (bind m (fun x => k))
  (at level 100, m at next level, right associativity).
Notation "m ;;; k" := (bind m (fun _ => k))
  (at level 100, right associativity).

(** [for x in l: body x], stopping at the first exception. *)
Fixpoint for_each {A : Type} (body : A -> result unit) (l : list A) : result unit :=
  match l with
  | [] => Return tt
  | x :: r => body x ;;; for_each body r
  end.

(** [for x in l: acc = body acc x], stopping at the first exception. *)
Fixpoint fold_result {A S : Type} (body : S -> A -> result S) (l : list A) (acc : S)
  : result S :=
  match l with
  | [] => Return acc
  | x :: r => acc' <- body acc x ;; fold_result body r acc'
  end.

(** ** config_parser.py *)

Module Config.

(** The names of the dataclass fields. *)
Inductive field : Type :=
| Fdisk | Fhostname | Ftimezone
| Fpool_root | Fpool_boot | Farc_max_mb | Fencrypt
| Fci_datasources
| Fforce
| Fnew_user | Fnew_user_sudo
| Fssh_import_ids | Fssh_authorized_keys | Fssh_authorized_keys_urls
| Fpermit_root_login | Fpassword_auth.

#[global] Instance field_eq_dec : EqDecision field.
Proof. solve_decision. Defined.

Definition field_code (f : field) : positive :=
  match f with
  | Fdisk => 1 | Fhostname => 2 | Ftimezone => 3
  | Fpool_root => 4 | Fpool_boot => 5 | Farc_max_mb => 6 | Fencrypt => 7
  | Fci_datasources => 8
  | Fforce => 9
  | Fnew_user => 10 | Fnew_user_sudo => 11
  | Fssh_import_ids => 12 | Fssh_authorized_keys => 13 | Fssh_authorized_keys_urls => 14
  | Fpermit_root_login => 15 | Fpassword_auth => 16
  end%positive.

Definition field_of_code (p : positive) : option field :=
  match p with
  | 1 => Some Fdisk | 2 => Some Fhostname | 3 => Some Ftimezone
  | 4 => Some Fpool_root | 5 => Some Fpool_boot | 6 => Some Farc_max_mb
  | 7 => Some Fencrypt | 8 => Some Fci_datasources | 9 => Some Fforce
  | 10 => Some Fnew_user | 11 => Some Fnew_user_sudo
  | 12 => Some Fssh_import_ids | 13 => Some Fssh_authorized_keys
  | 14 => Some Fssh_authorized_keys_urls
  | 15 => Some Fpermit_root_login | 16 => Some Fpassword_auth
  | _ => None
  end%positive.

#[global] Program Instance field_countable : Countable field :=
  {| encode := field_code; decode := field_of_code |}.
Next Obligation. by intros []. Qed.

(** The field names as the source spells them. *)
Definition field_name (f : field) : pystr :=
  match f with
  | Fdisk => lit "disk" | Fhostname => lit "hostname" | Ftimezone => lit "timezone"
  | Fpool_root => lit "pool_root" | Fpool_boot => lit "pool_boot"
  | Farc_max_mb => lit "arc_max_mb" | Fencrypt => lit "encrypt"
  | Fci_datasources => lit "ci_datasources"
  | Fforce => lit "force"
  | Fnew_user => lit "new_user" | Fnew_user_sudo => lit "new_user_sudo"
  | Fssh_import_ids => lit "ssh_import_ids"
  | Fssh_authorized_keys => lit "ssh_authorized_keys"
  | Fssh_authorized_keys_urls => lit "ssh_authorized_keys_urls"
  | Fpermit_root_login => lit "permit_root_login"
  | Fpassword_auth => lit "password_auth"
  end.

(** A value of a field, as [_parse_value] returns it and [getattr] reads
    it. *)
Inductive pyvalue : Type :=
| VNone
| VBool (b : bool)
| VInt (z : Z)
| VStr (s : pystr)
| VList (l : list pystr).

Record ZFSConfig : Type := mkZFSConfig {
  disk : pystr;
  hostname : pystr;
  timezone : pystr;
  pool_root : pystr;
  pool_boot : pystr;
  arc_max_mb : Z;
  encrypt : bool;
  ci_datasources : list pystr;
  force : bool;
  new_user : option pystr;
  new_user_sudo : bool;
  ssh_import_ids : list pystr;
  ssh_authorized_keys : list pystr;
  ssh_authorized_keys_urls : list pystr;
  permit_root_login : pystr;
  password_auth : bool
}.

(** The field defaults of the dataclass. *)
Definition defaults : ZFSConfig := {|
  disk := lit "/dev/sda";
  hostname := lit "mail1";
  timezone := lit "UTC";
  pool_root := lit "rpool";
  pool_boot := lit "bpool";
  arc_max_mb := 2048;
  encrypt := false;
  ci_datasources := [lit "ConfigDrive"; lit "NoCloud"; lit "Ec2"];
  force := false;
  new_user := None;
  new_user_sudo := true;
  ssh_import_ids := [];
  ssh_authorized_keys := [];
  ssh_authorized_keys_urls := [];
  permit_root_login := lit "prohibit-password";
  password_auth := false
|}.

(** [r'.*p\d+$'] *)
Definition nvme_partition_re : Re.regex :=
  Re.Cat (Re.Star (Re.Class Re.dot)) (Re.Cat (Re.Chr "p") (Re.Plus (Re.Class Re.digit))).

(** [r'^/dev/[sv]d[a-z]\d+$'] *)
Definition sata_partition_re : Re.regex :=
  Re.Cat (Re.Str (lit "/dev/"))
    (Re.Cat (Re.Class (Re.one_of (lit "sv")))
       (Re.Cat (Re.Chr "d")
          (Re.Cat (Re.Class (Re.range "a" "z")) (Re.Plus (Re.Class Re.digit))))).

(** [[a-zA-Z0-9-]] and [[a-zA-Z0-9_-]] *)
Definition alnum : ascii -> bool :=
  Re.union (Re.range "a" "z") (Re.union (Re.range "A" "Z") (Re.range "0" "9")).
Definition hostname_char : ascii -> bool := Re.union alnum (Re.one_of (lit "-")).
Definition pool_char : ascii -> bool := Re.union alnum (Re.one_of (lit "_-")).

(** [r'^[a-zA-Z0-9-]+$'] *)
Definition hostname_re : Re.regex := Re.Plus (Re.Class hostname_char).

(** [r'^[a-zA-Z0-9_-]+$'] *)
Definition pool_re : Re.regex := Re.Plus (Re.Class pool_char).

Definition looks_like_partition (d : pystr) : bool :=
  Re.match_dollar nvme_partition_re d || Re.match_dollar sata_partition_re d.

Definition _validate_disk (self : ZFSConfig) : result unit :=
  if negb (Py.startswith (lit "/dev/") (disk self)) then
    Raise (ValueError (lit "Invalid disk path: " ++ disk self))
  else if looks_like_partition (disk self) then
    Raise (ValueError (lit "DISK=" ++ disk self ++ lit " appears to be a partition. "
                       ++ lit "Please specify the whole disk."))
  else Return tt.

Definition _validate_hostname (self : ZFSConfig) : result unit :=
  if negb (Re.match_dollar hostname_re (hostname self)) then
    Raise (ValueError (lit "Invalid hostname: " ++ hostname self))
  else if (63 <? Z.of_nat (length (hostname self))) then
    Raise (ValueError (lit "Hostname too long: " ++ hostname self))
  else Return tt.

Definition _validate_pools (self : ZFSConfig) : result unit :=
  for_each (fun pool_name =>
      if negb (Re.match_dollar pool_re pool_name) then
        Raise (ValueError (lit "Invalid pool name: " ++ pool_name))
      else Return tt)
    [pool_root self; pool_boot self] ;;;
  if arc_max_mb self <? 64 then
    Raise (ValueError (lit "ARC max too small: " ++ Py.str_of_int (arc_max_mb self)
                       ++ lit "MB"))
  else Return tt.

Definition valid_permit_values : list pystr :=
  [lit "yes"; lit "no"; lit "prohibit-password"].

Definition _validate_ssh_config (self : ZFSConfig) : result unit :=
  if negb (bool_decide (permit_root_login self ∈ valid_permit_values)) then
    Raise (ValueError (lit "Invalid permit_root_login: " ++ permit_root_login self))
  else Return tt.

Definition __post_init__ (self : ZFSConfig) : result unit :=
  _validate_disk self ;;;
  _validate_hostname self ;;;
  _validate_pools self ;;;
  _validate_ssh_config self.

(** [ZFSConfig(...)] with every field given: the generated [__init__]
    stores the fields and runs [__post_init__]. *)
Definition construct (fields : ZFSConfig) : result ZFSConfig :=
  __post_init__ fields ;;; Return fields.

(** [ZFSConfig(disk=d)], [ZFSConfig(hostname=h)] and the like are [construct]
    on a copy of the defaults with one field replaced. *)
Definition with_disk (d : pystr) (c : ZFSConfig) : ZFSConfig :=
  {| disk := d; hostname := hostname c; timezone := timezone c;
     pool_root := pool_root c; pool_boot := pool_boot c;
     arc_max_mb := arc_max_mb c; encrypt := encrypt c;
     ci_datasources := ci_datasources c; force := force c;
     new_user := new_user c; new_user_sudo := new_user_sudo c;
     ssh_import_ids := ssh_import_ids c;
     ssh_authorized_keys := ssh_authorized_keys c;
     ssh_authorized_keys_urls := ssh_authorized_keys_urls c;
     permit_root_login := permit_root_login c; password_auth := password_auth c |}.

Definition with_hostname (h : pystr) (c : ZFSConfig) : ZFSConfig :=
  {| disk := disk c; hostname := h; timezone := timezone c;
     pool_root := pool_root c; pool_boot := pool_boot c;
     arc_max_mb := arc_max_mb c; encrypt := encrypt c;
     ci_datasources := ci_datasources c; force := force c;
     new_user := new_user c; new_user_sudo := new_user_sudo c;
     ssh_import_ids := ssh_import_ids c;
     ssh_authorized_keys := ssh_authorized_keys c;
     ssh_authorized_keys_urls := ssh_authorized_keys_urls c;
     permit_root_login := permit_root_login c; password_auth := password_auth c |}.

Definition with_ssh_authorized_keys (keys : list pystr) (c : ZFSConfig) : ZFSConfig :=
  {| disk := disk c; hostname := hostname c; timezone := timezone c;
     pool_root := pool_root c; pool_boot := pool_boot c;
     arc_max_mb := arc_max_mb c; encrypt := encrypt c;
     ci_datasources := ci_datasources c; force := force c;
     new_user := new_user c; new_user_sudo := new_user_sudo c;
     ssh_import_ids := ssh_import_ids c;
     ssh_authorized_keys := keys;
     ssh_authorized_keys_urls := ssh_authorized_keys_urls c;
     permit_root_login := permit_root_login c; password_auth := password_auth c |}.

Definition with_ci_datasources (sources : list pystr) (c : ZFSConfig) : ZFSConfig :=
  {| disk := disk c; hostname := hostname c; timezone := timezone c;
     pool_root := pool_root c; pool_boot := pool_boot c;
     arc_max_mb := arc_max_mb c; encrypt := encrypt c;
     ci_datasources := sources; force := force c;
     new_user := new_user c; new_user_sudo := new_user_sudo c;
     ssh_import_ids := ssh_import_ids c;
     ssh_authorized_keys := ssh_authorized_keys c;
     ssh_authorized_keys_urls := ssh_authorized_keys_urls c;
     permit_root_login := permit_root_login c; password_auth := password_auth c |}.

Definition with_new_user (user : option pystr) (c : ZFSConfig) : ZFSConfig :=
  {| disk := disk c; hostname := hostname c; timezone := timezone c;
     pool_root := pool_root c; pool_boot := pool_boot c;
     arc_max_mb := arc_max_mb c; encrypt := encrypt c;
     ci_datasources := ci_datasources c; force := force c;
     new_user := user; new_user_sudo := new_user_sudo c;
     ssh_import_ids := ssh_import_ids c;
     ssh_authorized_keys := ssh_authorized_keys c;
     ssh_authorized_keys_urls := ssh_authorized_keys_urls c;
     permit_root_login := permit_root_login c; password_auth := password_auth c |}.

(** The strings that the patterns of the validators accept, spelled out. *)
Definition digits (ds : pystr) : Prop := ds <> [] /\ forallb Re.digit ds = true.

Definition optional_newline (nl : pystr) : Prop := nl = [] \/ nl = [Re.newline].

Definition nvme_partition_shape (d : pystr) : Prop :=
  exists pre ds nl,
    d = pre ++ "p"%char :: ds ++ nl
    /\ forallb Re.dot pre = true /\ digits ds /\ optional_newline nl.

Definition sata_partition_shape (d : pystr) : Prop :=
  exists x y ds nl,
    d = lit "/dev/" ++ x :: "d"%char :: y :: ds ++ nl
    /\ (x = "s"%char \/ x = "v"%char) /\ Re.range "a" "z" y = true
    /\ digits ds /\ optional_newline nl.

Definition class_word (p : ascii -> bool) (s : pystr) : Prop :=
  exists body nl,
    s = body ++ nl /\ body <> [] /\ forallb p body = true /\ optional_newline nl.

(** The path lies under /dev/. *)
Definition under_dev (d : pystr) : Prop := exists rest, d = lit "/dev/" ++ rest.

(** The disks, hostnames and pool names that pass their checks, spelled
    out on the text itself. *)
Definition disk_ok (d : pystr) : Prop :=
  under_dev d /\ ~ (nvme_partition_shape d \/ sata_partition_shape d).

Definition hostname_ok (h : pystr) : Prop :=
  class_word hostname_char h /\ (length h <= 63)%nat.

Definition pool_ok (p : pystr) : Prop := class_word pool_char p.


(** The key table of [_env_to_field_name] and of [_get_env_mapping], in the
    order of the source; both functions spell the same sixteen pairs. *)
Definition env_table : list (pystr * field) :=
  [ (lit "DISK", Fdisk);
    (lit "HOSTNAME", Fhostname);
    (lit "TZ", Ftimezone);
    (lit "POOL_R", Fpool_root);
    (lit "POOL_B", Fpool_boot);
    (lit "ARC_MAX_MB", Farc_max_mb);
    (lit "ENCRYPT", Fencrypt);
    (lit "FORCE", Fforce);
    (lit "NEW_USER", Fnew_user);
    (lit "NEW_USER_SUDO", Fnew_user_sudo);
    (lit "SSH_IMPORT_IDS", Fssh_import_ids);
    (lit "SSH_AUTHORIZED_KEYS", Fssh_authorized_keys);
    (lit "SSH_AUTHORIZED_KEYS_URLS", Fssh_authorized_keys_urls);
    (lit "PERMIT_ROOT_LOGIN", Fpermit_root_login);
    (lit "PASSWORD_AUTH", Fpassword_auth);
    (lit "CI_DATASOURCES", Fci_datasources) ].

(** [mapping.get(env_var)] *)
Definition _env_to_field_name (env_var : pystr) : option field :=
  (list_to_map env_table : gmap pystr field) !! env_var.

(** The items of the dict that [_get_env_mapping] returns, in insertion
    order. *)
Definition _get_env_mapping : list (pystr * field) := env_table.

Definition bool_fields : list field :=
  [Fencrypt; Fforce; Fnew_user_sudo; Fpassword_auth].
Definition list_fields : list field :=
  [Fssh_import_ids; Fssh_authorized_keys; Fssh_authorized_keys_urls; Fci_datasources].
Definition true_words : list pystr := [lit "1"; lit "true"; lit "yes"; lit "on"].

(** [[item.strip().strip(quotes) for item in items if item.strip()]] *)
Definition clean_items (items : list pystr) : list pystr :=
  map (fun item => Py.strip_quotes (Py.strip item))
      (List.filter (fun item => Py.truthy (Py.strip item)) items).

Definition _parse_value (field_name : field) (value : pystr) : result pyvalue :=
  if bool_decide (field_name ∈ [Farc_max_mb]) then
    match Py.int value with
    | Some z => Return (VInt z)
    | None => Raise (IntValueError value)
    end
  else if bool_decide (field_name ∈ bool_fields) then
    Return (VBool (bool_decide (Py.lower value ∈ true_words)))
  else if bool_decide (field_name ∈ list_fields) then
    if negb (Py.truthy value) then Return (VList [])
    else if Py.startswith (lit "[") value && Py.endswith (lit "]") value then
      let items := Py.split "," (Py.slice_1_m1 value) in
      Return (VList (clean_items items))
    else
      Return (VList (clean_items (Py.split_ws value)))
  else if bool_decide (field_name = Fnew_user) && negb (Py.truthy value) then
    Return VNone
  else Return (VStr value).

(** The coercion of a list field as the specification words it: the empty
    string gives the empty list, a value in brackets is split on commas and
    any other value on whitespace, and the quote characters around each
    element are removed. *)
Definition specified_list_coercion (value : pystr) : list pystr :=
  if negb (Py.truthy value) then []
  else if Py.startswith (lit "[") value && Py.endswith (lit "]") value then
    map Py.strip_quotes (Py.split "," (Py.slice_1_m1 value))
  else map Py.strip_quotes (Py.split_ws value).

(** The key and the value that the loop of [from_env_file] takes from one
    line of the file; [None] when the line is skipped (blank, a comment, or
    without [=], for which the source prints a warning). *)
Definition key_value_of_line (line : pystr) : option (pystr * pystr) :=
  let line := Py.strip line in
  if negb (Py.truthy line) || Py.startswith (lit "#") line then None
  else if negb (Py.contains "=" line) then None
  else
    match Py.split_max "=" 1 line with
    | [key; value] =>
        let key := Py.strip key in
        let value := Py.strip_quotes (Py.strip value) in
        let value :=
          if Py.contains "#" value
          then Py.strip_quotes (Py.strip (hd [] (Py.split "#" value)))
          else value in
        Some (key, value)
    | _ => None
    end.

(** One turn of the loop over the lines of the file. *)
Definition load_line (config_dict : gmap field pyvalue) (line : pystr)
  : result (gmap field pyvalue) :=
  match key_value_of_line line with
  | None => Return config_dict
  | Some (key, value) =>
      match _env_to_field_name key with
      | Some field_name =>
          v <- _parse_value field_name value ;;
          Return (<[field_name := v]> config_dict)
      | None => Return config_dict
      end
  end.

(** One turn of the loop over the key table that overlays [os.environ]. *)
Definition overlay_var (environ : gmap pystr pystr) (config_dict : gmap field pyvalue)
    (item : pystr * field) : result (gmap field pyvalue) :=
  let '(env_var, field_name) := item in
  match environ !! env_var with
  | Some value =>
      v <- _parse_value field_name value ;;
      Return (<[field_name := v]> config_dict)
  | None => Return config_dict
  end.

(** Reading one keyword argument of the call of [cls] on the unpacked
    [config_dict]. *)
Definition kw_str (d : gmap field pyvalue) (f : field) (dflt : pystr) : result pystr :=
  match d !! f with
  | None => Return dflt
  | Some (VStr s) => Return s
  | Some _ => Raise (TypeError (field_name f))
  end.

Definition kw_int (d : gmap field pyvalue) (f : field) (dflt : Z) : result Z :=
  match d !! f with
  | None => Return dflt
  | Some (VInt z) => Return z
  | Some _ => Raise (TypeError (field_name f))
  end.

Definition kw_bool (d : gmap field pyvalue) (f : field) (dflt : bool) : result bool :=
  match d !! f with
  | None => Return dflt
  | Some (VBool b) => Return b
  | Some _ => Raise (TypeError (field_name f))
  end.

Definition kw_list (d : gmap field pyvalue) (f : field) (dflt : list pystr)
  : result (list pystr) :=
  match d !! f with
  | None => Return dflt
  | Some (VList l) => Return l
  | Some _ => Raise (TypeError (field_name f))
  end.

Definition kw_opt_str (d : gmap field pyvalue) (f : field) (dflt : option pystr)
  : result (option pystr) :=
  match d !! f with
  | None => Return dflt
  | Some VNone => Return None
  | Some (VStr s) => Return (Some s)
  | Some _ => Raise (TypeError (field_name f))
  end.

(** The call of [cls] on the unpacked [config_dict]: a field that the dict
    lacks takes its default. *)
Definition from_kwargs (d : gmap field pyvalue) : result ZFSConfig :=
  a_disk <- kw_str d Fdisk (disk defaults) ;;
  a_hostname <- kw_str d Fhostname (hostname defaults) ;;
  a_timezone <- kw_str d Ftimezone (timezone defaults) ;;
  a_pool_root <- kw_str d Fpool_root (pool_root defaults) ;;
  a_pool_boot <- kw_str d Fpool_boot (pool_boot defaults) ;;
  a_arc_max_mb <- kw_int d Farc_max_mb (arc_max_mb defaults) ;;
  a_encrypt <- kw_bool d Fencrypt (encrypt defaults) ;;
  a_ci_datasources <- kw_list d Fci_datasources (ci_datasources defaults) ;;
  a_force <- kw_bool d Fforce (force defaults) ;;
  a_new_user <- kw_opt_str d Fnew_user (new_user defaults) ;;
  a_new_user_sudo <- kw_bool d Fnew_user_sudo (new_user_sudo defaults) ;;
  a_ssh_import_ids <- kw_list d Fssh_import_ids (ssh_import_ids defaults) ;;
  a_ssh_authorized_keys <- kw_list d Fssh_authorized_keys (ssh_authorized_keys defaults) ;;
  a_ssh_authorized_keys_urls <-
    kw_list d Fssh_authorized_keys_urls (ssh_authorized_keys_urls defaults) ;;
  a_permit_root_login <- kw_str d Fpermit_root_login (permit_root_login defaults) ;;
  a_password_auth <- kw_bool d Fpassword_auth (password_auth defaults) ;;
  construct {|
    disk := a_disk; hostname := a_hostname; timezone := a_timezone;
    pool_root := a_pool_root; pool_boot := a_pool_boot;
    arc_max_mb := a_arc_max_mb; encrypt := a_encrypt;
    ci_datasources := a_ci_datasources; force := a_force;
    new_user := a_new_user; new_user_sudo := a_new_user_sudo;
    ssh_import_ids := a_ssh_import_ids;
    ssh_authorized_keys := a_ssh_authorized_keys;
    ssh_authorized_keys_urls := a_ssh_authorized_keys_urls;
    permit_root_login := a_permit_root_login; password_auth := a_password_auth |}.

(** [from_env_file]: [env_file] is [None] when the path does not exist,
    and otherwise the lines that iterating the open file yields;
    [environ] is [os.environ]. *)
Definition from_env_file (env_file : option (list pystr)) (environ : gmap pystr pystr)
  : result ZFSConfig :=
  config_dict <-
    match env_file with
    | Some lines => fold_result load_line lines ∅
    | None => Return ∅
    end ;;
  config_dict <- fold_result (overlay_var environ) _get_env_mapping config_dict ;;
  from_kwargs config_dict.

(** [getattr(self, field_name)] *)
Definition getattr (self : ZFSConfig) (f : field) : pyvalue :=
  match f with
  | Fdisk => VStr (disk self)
  | Fhostname => VStr (hostname self)
  | Ftimezone => VStr (timezone self)
  | Fpool_root => VStr (pool_root self)
  | Fpool_boot => VStr (pool_boot self)
  | Farc_max_mb => VInt (arc_max_mb self)
  | Fencrypt => VBool (encrypt self)
  | Fci_datasources => VList (ci_datasources self)
  | Fforce => VBool (force self)
  | Fnew_user => match new_user self with Some u => VStr u | None => VNone end
  | Fnew_user_sudo => VBool (new_user_sudo self)
  | Fssh_import_ids => VList (ssh_import_ids self)
  | Fssh_authorized_keys => VList (ssh_authorized_keys self)
  | Fssh_authorized_keys_urls => VList (ssh_authorized_keys_urls self)
  | Fpermit_root_login => VStr (permit_root_login self)
  | Fpassword_auth => VBool (password_auth self)
  end.

(** The string that [to_env_dict] stores for one field. *)
Definition env_string (field_name : field) (v : pyvalue) : pystr :=
  match v with
  | VNone => lit ""
  | VBool b => if b then lit "1" else lit "0"
  | VList l =>
      if bool_decide (field_name = Fci_datasources)
      then lit "[" ++ Py.join (lit ",") l ++ lit "]"
      else Py.join (lit " ") l
  | VInt z => Py.str_of_int z
  | VStr s => s
  end.

Definition to_env_dict (self : ZFSConfig) : gmap pystr pystr :=
  fold_left
    (fun env_dict '(env_var, field_name) =>
       <[env_var := env_string field_name (getattr self field_name)]> env_dict)
    _get_env_mapping ∅.

(** The configurations that [to_env_dict] writes without loss.  An element
    of a list written with spaces is not empty, holds no whitespace and has
    no quote character at either end, and the text of the list is not in
    brackets; an element of the list written in brackets is not empty,
    holds no comma and has neither whitespace nor a quote character at
    either end; the optional user, when present, is not empty. *)
Definition space_item (x : pystr) : bool :=
  Py.truthy x && Py.free_of Py.isspace x && Py.edge_free Py.isquote x.

Definition comma_item (x : pystr) : bool :=
  Py.truthy x && negb (Py.contains "," x)
  && Py.edge_free Py.isspace x && Py.edge_free Py.isquote x.

Definition in_brackets (value : pystr) : bool :=
  Py.startswith (lit "[") value && Py.endswith (lit "]") value.

Definition space_list (l : list pystr) : bool :=
  forallb space_item l && negb (in_brackets (Py.join (lit " ") l)).

Definition comma_list (l : list pystr) : bool := forallb comma_item l.

Definition roundtrip_safe (c : ZFSConfig) : bool :=
  match new_user c with Some u => Py.truthy u | None => true end
  && space_list (ssh_import_ids c)
  && space_list (ssh_authorized_keys c)
  && space_list (ssh_authorized_keys_urls c)
  && comma_list (ci_datasources c).

(** A valid configuration that loading the dict of [to_env_dict] does not
    give back. *)
Definition comes_back_changed (c : ZFSConfig) : Prop :=
  construct c = Return c
  /\ exists c', from_env_file None (to_env_dict c) = Return c' /\ c' <> c.

Definition with_pool_root (p : pystr) (c : ZFSConfig) : ZFSConfig :=
  {| disk := disk c; hostname := hostname c; timezone := timezone c;
     pool_root := p; pool_boot := pool_boot c;
     arc_max_mb := arc_max_mb c; encrypt := encrypt c;
     ci_datasources := ci_datasources c; force := force c;
     new_user := new_user c; new_user_sudo := new_user_sudo c;
     ssh_import_ids := ssh_import_ids c;
     ssh_authorized_keys := ssh_authorized_keys c;
     ssh_authorized_keys_urls := ssh_authorized_keys_urls c;
     permit_root_login := permit_root_login c; password_auth := password_auth c |}.

Definition with_pool_boot (p : pystr) (c : ZFSConfig) : ZFSConfig :=
  {| disk := disk c; hostname := hostname c; timezone := timezone c;
     pool_root := pool_root c; pool_boot := p;
     arc_max_mb := arc_max_mb c; encrypt := encrypt c;
     ci_datasources := ci_datasources c; force := force c;
     new_user := new_user c; new_user_sudo := new_user_sudo c;
     ssh_import_ids := ssh_import_ids c;
     ssh_authorized_keys := ssh_authorized_keys c;
     ssh_authorized_keys_urls := ssh_authorized_keys_urls c;
     permit_root_login := permit_root_login c; password_auth := password_auth c |}.

Definition with_arc_max_mb (z : Z) (c : ZFSConfig) : ZFSConfig :=
  {| disk := disk c; hostname := hostname c; timezone := timezone c;
     pool_root := pool_root c; pool_boot := pool_boot c;
     arc_max_mb := z; encrypt := encrypt c;
     ci_datasources := ci_datasources c; force := force c;
     new_user := new_user c; new_user_sudo := new_user_sudo c;
     ssh_import_ids := ssh_import_ids c;
     ssh_authorized_keys := ssh_authorized_keys c;
     ssh_authorized_keys_urls := ssh_authorized_keys_urls c;
     permit_root_login := permit_root_login c; password_auth := password_auth c |}.

Definition with_permit_root_login (v : pystr) (c : ZFSConfig) : ZFSConfig :=
  {| disk := disk c; hostname := hostname c; timezone := timezone c;
     pool_root := pool_root c; pool_boot := pool_boot c;
     arc_max_mb := arc_max_mb c; encrypt := encrypt c;
     ci_datasources := ci_datasources c; force := force c;
     new_user := new_user c; new_user_sudo := new_user_sudo c;
     ssh_import_ids := ssh_import_ids c;
     ssh_authorized_keys := ssh_authorized_keys c;
     ssh_authorized_keys_urls := ssh_authorized_keys_urls c;
     permit_root_login := v; password_auth := password_auth c |}.

(** The dict literal of [_env_to_field_name], as the source spells it a
    second time. *)
Definition env_to_field_name_mapping : list (pystr * field) :=
  [ (lit "DISK", Fdisk);
    (lit "HOSTNAME", Fhostname);
    (lit "TZ", Ftimezone);
    (lit "POOL_R", Fpool_root);
    (lit "POOL_B", Fpool_boot);
    (lit "ARC_MAX_MB", Farc_max_mb);
    (lit "ENCRYPT", Fencrypt);
    (lit "FORCE", Fforce);
    (lit "NEW_USER", Fnew_user);
    (lit "NEW_USER_SUDO", Fnew_user_sudo);
    (lit "SSH_IMPORT_IDS", Fssh_import_ids);
    (lit "SSH_AUTHORIZED_KEYS", Fssh_authorized_keys);
    (lit "SSH_AUTHORIZED_KEYS_URLS", Fssh_authorized_keys_urls);
    (lit "PERMIT_ROOT_LOGIN", Fpermit_root_login);
    (lit "PASSWORD_AUTH", Fpassword_auth);
    (lit "CI_DATASOURCES", Fci_datasources) ].

(** The line of the file gives a value to the field [f]. *)
Definition assigns (line : pystr) (f : field) : Prop :=
  exists key value,
    key_value_of_line line = Some (key, value) /\ _env_to_field_name key = Some f.

(** The loop of [from_env_file] passes over the line: it is blank, a
    comment, without [=], or its key is not in the table. *)
Definition passed_over (line : pystr) : Prop :=
  Py.strip line = []
  \/ Py.startswith (lit "#") (Py.strip line) = true
  \/ ~ In "="%char line
  \/ exists key value,
       key_value_of_line line = Some (key, value) /\ _env_to_field_name key = None.

(** The truth value of an optional string and of a list. *)
Definition truthy_opt (o : option pystr) : bool :=
  match o with Some s => Py.truthy s | None => false end.

Definition truthy_list {A : Type} (l : list A) : bool :=
  match l with [] => false | _ :: _ => true end.

Definition display_summary_lines (self : ZFSConfig) : list pystr :=
  let lines :=
    [ lit "=== ZFS Installation Configuration ===";
      lit "Target Disk: " ++ disk self;
      lit "Hostname: " ++ hostname self;
      lit "Timezone: " ++ timezone self;
      lit "Root Pool: " ++ pool_root self;
      lit "Boot Pool: " ++ pool_boot self;
      lit "ARC Max: " ++ Py.str_of_int (arc_max_mb self) ++ lit "MB";
      lit "Encryption: " ++ (if encrypt self then lit "Enabled" else lit "Disabled");
      lit "Force Mode: " ++ (if force self then lit "Yes" else lit "No") ] in
  let lines :=
    if truthy_opt (new_user self) then
      lines ++ [ lit "New User: "
                   ++ match new_user self with Some u => u | None => lit "None" end;
                 lit "User Sudo: " ++ (if new_user_sudo self then lit "Yes" else lit "No") ]
    else lines in
  let lines :=
    if truthy_list (ssh_import_ids self) then
      lines ++ [ lit "SSH Import IDs: " ++ Py.join (lit ", ") (ssh_import_ids self) ]
    else lines in
  lines ++ [ lit "Root Login: " ++ permit_root_login self;
             lit "Password Auth: " ++ (if password_auth self then lit "Yes" else lit "No") ].

Definition display_summary (self : ZFSConfig) : pystr :=
  Py.join [Re.newline] (display_summary_lines self).

(** The text holds no newline, and the fields that the summary shows
    hold none. *)
Definition one_line (s : pystr) : bool := negb (Py.contains Re.newline s).

Definition shown_on_one_line (self : ZFSConfig) : bool :=
  one_line (disk self) && one_line (hostname self) && one_line (timezone self)
  && one_line (pool_root self) && one_line (pool_boot self)
  && match new_user self with Some u => one_line u | None => true end
  && forallb one_line (ssh_import_ids self)
  && one_line (permit_root_login self).

(** Two configurations with the same fields among those that
    [display_summary] reads. *)
Definition same_shown_fields (a b : ZFSConfig) : Prop :=
  disk a = disk b /\ hostname a = hostname b /\ timezone a = timezone b
  /\ pool_root a = pool_root b /\ pool_boot a = pool_boot b
  /\ arc_max_mb a = arc_max_mb b /\ encrypt a = encrypt b /\ force a = force b
  /\ new_user a = new_user b /\ new_user_sudo a = new_user_sudo b
  /\ ssh_import_ids a = ssh_import_ids b
  /\ permit_root_login a = permit_root_login b /\ password_auth a = password_auth b.

(** What [validate_environment] asks of the host: the effective user id,
    whether /proc/cmdline exists, and the status that [os.system] returns
    for a command line. *)
Record host : Type := {
  geteuid : Z;
  proc_cmdline_exists : bool;
  os_system : pystr -> Z
}.

(** The four signs of the messages of [validate_environment], which lie
    outside the characters of the embedding. *)
Record signs : Type := {
  cross_mark : pystr;
  warning_sign : pystr;
  check_mark : pystr;
  bullet : pystr
}.

Definition required_commands : list pystr :=
  [lit "zpool"; lit "zfs"; lit "debootstrap"; lit "sgdisk"].

Definition command_line (cmd : pystr) : pystr :=
  lit "command -v " ++ cmd ++ lit " >/dev/null 2>&1".

(** The list [errors] when the checks of [validate_environment] are done. *)
Definition environment_errors (h : host) : list pystr :=
  let errors := [] in
  let errors :=
    if negb (geteuid h =? 0) then errors ++ [lit "Must run as root"] else errors in
  fold_left
    (fun errors cmd =>
       if negb (os_system h (command_line cmd) =? 0)
       then errors ++ [lit "Required command not found: " ++ cmd]
       else errors)
    required_commands errors.

(** The list [warnings] when the checks are done. *)
Definition environment_warnings (h : host) : list pystr :=
  if negb (proc_cmdline_exists h) then [lit "Cannot verify rescue environment"] else [].

(** [validate_environment()]: the result and what it prints, one entry for
    each call of [print]. *)
Definition validate_environment (sg : signs) (h : host) : bool * list pystr :=
  let errors := environment_errors h in
  let warnings := environment_warnings h in
  if truthy_list errors then
    (false,
     [cross_mark sg ++ lit " Environment validation failed:"]
     ++ map (fun error => lit "  " ++ bullet sg ++ lit " " ++ error) errors)
  else
    (true,
     (if truthy_list warnings then
        [warning_sign sg ++ lit "  Environment warnings:"]
        ++ map (fun warning => lit "  " ++ bullet sg ++ lit " " ++ warning) warnings
      else [])
     ++ [check_mark sg ++ lit " Environment validation passed"]).

(** The constraints that [__post_init__] checks, with the patterns spelled
    out. *)
Definition valid_instance (c : ZFSConfig) : Prop :=
  Py.startswith (lit "/dev/") (disk c) = true
  /\ ~ (nvme_partition_shape (disk c) \/ sata_partition_shape (disk c))
  /\ class_word hostname_char (hostname c)
  /\ (length (hostname c) <= 63)%nat
  /\ class_word pool_char (pool_root c)
  /\ class_word pool_char (pool_boot c)
  /\ 64 <= arc_max_mb c
  /\ In (permit_root_login c) valid_permit_values.

(** [part in whole], for two strings. *)
Definition contains_text (part whole : pystr) : Prop :=
  exists pre post, whole = pre ++ part ++ post.

End Config.

(** ** progress_reporter.py *)

(** The float operations that the reporter applies to its time stamps: the
    truth value of a float (it is not zero), subtraction, and the format
    [:.1f]. The time stamps themselves come from the clock. *)
Class FloatOps (F : Type) : Type := {
  f_truthy : F -> bool;
  f_sub : F -> F -> F;
  f_format1 : F -> pystr
}.

(** [sum(1 for x in l if p x)] *)
Definition sum_ones {A : Type} (p : A -> bool) (l : list A) : Z :=
  fold_left Z.add (map (fun _ => 1) (List.filter p l)) 0.

(** [enumerate(l)], counting from [i]. *)
Fixpoint enumerate_from {A : Type} (i : Z) (l : list A) : list (Z * A) :=
  match l with
  | [] => []
  | x :: r => (i, x) :: enumerate_from (i + 1) r
  end.

Inductive LogLevel : Type := DEBUG | INFO | WARN | ERROR | SUCCESS.

Module ProgressStep.
Section WithFloat.
Context {F : Type} {ops : FloatOps F}.

Record t : Type := make {
  name : pystr;
  description : pystr;
  started : option F;
  completed : option F;
  error : option pystr
}.

Definition is_started (self : t) : bool :=
  match started self with Some _ => true | None => false end.

Definition is_completed (self : t) : bool :=
  match completed self with Some _ => true | None => false end.

Definition is_error (self : t) : bool :=
  match error self with Some _ => true | None => false end.

Definition duration (self : t) : option F :=
  match started self, completed self with
  | Some s, Some c => if f_truthy s && f_truthy c then Some (f_sub c s) else None
  | _, _ => None
  end.

Definition set_completed (self : t) (now : F) : t :=
  {| name := name self; description := description self; started := started self;
     completed := Some now; error := error self |}.

Definition set_error (self : t) (error_message : pystr) : t :=
  {| name := name self; description := description self; started := started self;
     completed := completed self; error := Some error_message |}.

End WithFloat.
Arguments t F : clear implicits.
End ProgressStep.

Module ProgressReporter.
Section WithFloat.
Context {F : Type} {ops : FloatOps F}.

(** The attributes of the reporter; [stdout] holds what it has printed, one
    entry for each call of [print]. *)
Record t : Type := make {
  total_steps : Z;
  current_step : Z;
  steps : list (ProgressStep.t F);
  use_color : bool;
  start_time : F;
  stdout : list pystr
}.

Definition print (self : t) (text : pystr) : t :=
  {| total_steps := total_steps self; current_step := current_step self;
     steps := steps self; use_color := use_color self;
     start_time := start_time self; stdout := stdout self ++ [text] |}.

Definition set_steps (self : t) (new_steps : list (ProgressStep.t F)) : t :=
  {| total_steps := total_steps self; current_step := current_step self;
     steps := new_steps; use_color := use_color self;
     start_time := start_time self; stdout := stdout self |}.

Definition set_current_step (self : t) (n : Z) : t :=
  {| total_steps := total_steps self; current_step := n;
     steps := steps self; use_color := use_color self;
     start_time := start_time self; stdout := stdout self |}.

(** [ProgressReporter(total_steps, use_color)]; [isatty] is
    [sys.stdout.isatty()] and [now] is [time.time()]. *)
Definition __init__ (total_steps : Z) (use_color : bool) (isatty : bool) (now : F) : t :=
  {| total_steps := total_steps; current_step := 0; steps := [];
     use_color := use_color && isatty; start_time := now; stdout := [] |}.

Definition esc : pystr := [ascii_of_N 27].

Definition _colorize (self : t) (text color_code : pystr) : pystr :=
  if negb (use_color self) then text
  else esc ++ lit "[" ++ color_code ++ lit "m" ++ text ++ esc ++ lit "[0m".

Definition _get_level_prefix (self : t) (level : LogLevel) : pystr :=
  match level with
  | DEBUG => _colorize self (lit "[DEBUG]") (lit "90")
  | INFO => _colorize self (lit "[INFO]") (lit "96")
  | WARN => _colorize self (lit "[WARN]") (lit "93")
  | ERROR => _colorize self (lit "[ERROR]") (lit "91")
  | SUCCESS => _colorize self (lit "[OK]") (lit "92")
  end.

Definition log (self : t) (level : LogLevel) (message : pystr) : t :=
  let prefix := _get_level_prefix self level in
  print self (prefix ++ lit " " ++ message).

Definition debug (self : t) (message : pystr) : t := log self DEBUG message.
Definition info (self : t) (message : pystr) : t := log self INFO message.
Definition warn (self : t) (message : pystr) : t := log self WARN message.
Definition error (self : t) (message : pystr) : t := log self ERROR message.
Definition success (self : t) (message : pystr) : t := log self SUCCESS message.

Definition len (self : t) : Z := Z.of_nat (length (steps self)).

Definition start_step (self : t) (name description : pystr) (now : F) : t * Z :=
  let step := ProgressStep.make name description (Some now) None None in
  let self := set_steps self (steps self ++ [step]) in
  let step_index := len self - 1 in
  let self := set_current_step self (step_index + 1) in
  let progress :=
    if 0 <? total_steps self
    then lit "(" ++ Py.str_of_int (current_step self) ++ lit "/"
         ++ Py.str_of_int (total_steps self) ++ lit ")"
    else lit "(" ++ Py.str_of_int (current_step self) ++ lit ")" in
  let self := info self (progress ++ lit " " ++ description) in
  (self, step_index).

Definition in_range (self : t) (step_index : Z) : bool :=
  (0 <=? step_index) && (step_index <? len self).

Definition complete_step (self : t) (step_index : Z) (success_message : option pystr)
    (now : F) : t :=
  if in_range self step_index then
    match steps self !! Z.to_nat step_index with
    | Some step =>
        let step := ProgressStep.set_completed step now in
        let self := set_steps self (<[Z.to_nat step_index := step]> (steps self)) in
        let by_duration :=
          match ProgressStep.duration step with
          | Some d =>
              if f_truthy d
              then success self (ProgressStep.name step ++ lit " completed in "
                                 ++ f_format1 d ++ lit "s")
              else success self (ProgressStep.name step ++ lit " completed")
          | None => success self (ProgressStep.name step ++ lit " completed")
          end in
        match success_message with
        | Some m => if Py.truthy m then success self m else by_duration
        | None => by_duration
        end
    | None => self
    end
  else self.

Definition fail_step (self : t) (step_index : Z) (error_message : pystr) : t :=
  if in_range self step_index then
    match steps self !! Z.to_nat step_index with
    | Some step =>
        let step := ProgressStep.set_error step error_message in
        let self := set_steps self (<[Z.to_nat step_index := step]> (steps self)) in
        error self (ProgressStep.name step ++ lit " failed: " ++ error_message)
    | None => self
    end
  else self.

Definition completed_steps (self : t) : Z := sum_ones ProgressStep.is_completed (steps self).
Definition failed_steps (self : t) : Z := sum_ones ProgressStep.is_error (steps self).

Definition rule : pystr := repeat "="%char 50.

Definition failed_line (item : Z * ProgressStep.t F) : pystr :=
  let '(i, step) := item in
  lit "  " ++ Py.str_of_int (i + 1) ++ lit ". " ++ ProgressStep.name step ++ lit ": "
  ++ match ProgressStep.error step with Some e => e | None => lit "None" end.

Definition show_summary (self : t) (now : F) : t :=
  let total_time := f_sub now (start_time self) in
  let completed_steps := completed_steps self in
  let failed_steps := failed_steps self in
  let self := print self ([Re.newline] ++ rule) in
  let self := print self (lit "INSTALLATION SUMMARY") in
  let self := print self rule in
  let self := print self (lit "Total time: " ++ f_format1 total_time ++ lit "s") in
  let self := print self (lit "Steps completed: " ++ Py.str_of_int completed_steps
                          ++ lit "/" ++ Py.str_of_int (len self)) in
  let self :=
    if 0 <? failed_steps then
      let self := print self (lit "Steps failed: " ++ Py.str_of_int failed_steps) in
      let self := print self ([Re.newline] ++ lit "Failed steps:") in
      fold_left (fun self item =>
                   if ProgressStep.is_error (snd item)
                   then print self (failed_line item) else self)
                (enumerate_from 0 (steps self)) self
    else print self (lit "All steps completed successfully!") in
  print self rule.

(** The dict that [get_status_json] hands to [json.dumps]. *)
Record step_status : Type := {
  st_name : pystr;
  st_description : pystr;
  st_started : option F;
  st_completed : option F;
  st_error : option pystr;
  st_duration : option F
}.

Record status : Type := {
  status_total_steps : Z;
  status_completed_steps : Z;
  status_failed_steps : Z;
  status_current_step : Z;
  status_total_time : F;
  status_steps : list step_status
}.

Definition get_status_json (self : t) (now : F) : status :=
  {| status_total_steps := len self;
     status_completed_steps := completed_steps self;
     status_failed_steps := failed_steps self;
     status_current_step := current_step self;
     status_total_time := f_sub now (start_time self);
     status_steps :=
       map (fun step =>
              {| st_name := ProgressStep.name step;
                 st_description := ProgressStep.description step;
                 st_started := ProgressStep.started step;
                 st_completed := ProgressStep.completed step;
                 st_error := ProgressStep.error step;
                 st_duration := ProgressStep.duration step |})
           (steps self) |}.

(** The calls a client can make on a reporter, each with the reading of the
    clock that it takes where it calls [time.time()]. *)
Inductive call : Type :=
| StartStep (name description : pystr) (now : F)
| CompleteStep (step_index : Z) (success_message : option pystr) (now : F)
| FailStep (step_index : Z) (error_message : pystr)
| Log (level : LogLevel) (message : pystr)
| ShowSummary (now : F)
| GetStatusJson (now : F).

Definition step (self : t) (c : call) : t :=
  match c with
  | StartStep name description now => fst (start_step self name description now)
  | CompleteStep i m now => complete_step self i m now
  | FailStep i m => fail_step self i m
  | Log level message => log self level message
  | ShowSummary now => show_summary self now
  | GetStatusJson _ => self
  end.

Definition run (self : t) (calls : list call) : t := fold_left step calls self.

Definition is_start_or_fail (c : call) : bool :=
  match c with
  | StartStep _ _ _ | FailStep _ _ => true
  | _ => false
  end.

Definition is_start (c : call) : bool :=
  match c with
  | StartStep _ _ _ => true
  | _ => false
  end.

(** The counter follows the list of steps. *)
Definition counter_follows (self : t) : Prop :=
  current_step self = Z.of_nat (length (steps self)).

(** No step has a completion time. *)
Definition never_completed (self : t) : Prop :=
  Forall (fun st => ProgressStep.completed st = None) (steps self).

End WithFloat.
Arguments t F : clear implicits.
Arguments call F : clear implicits.
Arguments status F : clear implicits.
Arguments step_status F : clear implicits.
End ProgressReporter.

(** A clock that counts whole seconds, for running the reporter on concrete
    calls. *)
#[global] Instance seconds_clock : FloatOps Z := {|
  f_truthy z := negb (z =? 0);
  f_sub := Z.sub;
  f_format1 z := Py.str_of_int z ++ lit ".0"
|}.

(** The tag of a level as [log] prints it without colour. *)
Definition plain_tag (level : LogLevel) : pystr :=
  match level with
  | DEBUG => lit "[DEBUG]"
  | INFO => lit "[INFO]"
  | WARN => lit "[WARN]"
  | ERROR => lit "[ERROR]"
  | SUCCESS => lit "[OK]"
  end.

(** The colour code of a level. *)
Definition colour_code (level : LogLevel) : pystr :=
  match level with
  | DEBUG => lit "90"
  | INFO => lit "96"
  | WARN => lit "93"
  | ERROR => lit "91"
  | SUCCESS => lit "92"
  end.

Definition is_fail {F : Type} (c : ProgressReporter.call F) : bool :=
  match c with
  | ProgressReporter.FailStep _ _ => true
  | _ => false
  end.

(** The entries of a snapshot whose completion time, and whose error, is
    set. *)
Definition entry_completed {F : Type} (e : ProgressReporter.step_status F) : bool :=
  match ProgressReporter.st_completed e with Some _ => true | None => false end.

Definition entry_failed {F : Type} (e : ProgressReporter.step_status F) : bool :=
  match ProgressReporter.st_error e with Some _ => true | None => false end.

(** * Properties *)

(** ** Python strings: strip, split and join *)

Module PyFacts.
Import Py.

Lemma char_eqb_eq a b : char_eqb a b = true <-> a = b.
Proof. apply Ascii.eqb_eq. Qed.

Lemma char_eqb_neq a b : char_eqb a b = false <-> a <> b.
Proof. apply Ascii.eqb_neq. Qed.

Lemma contains_In c s : contains c s = true <-> In c s.
Proof.
  unfold contains. rewrite existsb_exists. split.
  - intros (x & Hin & Hx). apply char_eqb_eq in Hx. subst. exact Hin.
  - intros Hin. exists c. split; [exact Hin | apply char_eqb_eq; reflexivity].
Qed.

Lemma contains_not_In c s : contains c s = false <-> ~ In c s.
Proof. rewrite <- contains_In. destruct (contains c s); intuition congruence. Qed.

Lemma dropwhile_id p s :
  match s with [] => true | c :: _ => negb (p c) end = true -> dropwhile p s = s.
Proof.
  destruct s as [|c r]; [reflexivity|]. simpl.
  intros H. apply negb_true_iff in H. rewrite H. reflexivity.
Qed.

Lemma strip_of_id p s : edge_free p s = true -> strip_of p s = s.
Proof.
  unfold edge_free, strip_of, rstrip_of, lstrip_of. intros H.
  apply andb_true_iff in H as [H1 H2].
  rewrite (dropwhile_id p s H1), (dropwhile_id p (rev s) H2).
  apply rev_involutive.
Qed.

Lemma free_of_edge_free p s : free_of p s = true -> edge_free p s = true.
Proof.
  unfold free_of, edge_free. intros H. rewrite forallb_forall in H.
  apply andb_true_iff. split.
  - destruct s as [|c r]; [reflexivity|]. apply H. left. reflexivity.
  - destruct (rev s) as [|c r] eqn:E; [reflexivity|]. apply H.
    apply in_rev. rewrite E. left. reflexivity.
Qed.

Lemma strip_of_nil p : strip_of p [] = [].
Proof. reflexivity. Qed.

(** Splitting on a separator. *)
Lemma split_nosep sep x : ~ In sep x -> split sep x = [x].
Proof.
  induction x as [|c x IH]; intros Hnot; simpl; [reflexivity|].
  destruct (char_eqb c sep) eqn:E.
  - apply char_eqb_eq in E. subst. exfalso. apply Hnot. left. reflexivity.
  - rewrite IH; [reflexivity|]. intros Hin. apply Hnot. right. exact Hin.
Qed.

Lemma split_app_sep sep x rest :
  ~ In sep x -> split sep (x ++ sep :: rest) = x :: split sep rest.
Proof.
  induction x as [|c x IH]; intros Hnot; simpl.
  - assert (char_eqb sep sep = true) as -> by (apply char_eqb_eq; reflexivity).
    reflexivity.
  - destruct (char_eqb c sep) eqn:E.
    + apply char_eqb_eq in E. subst. exfalso. apply Hnot. left. reflexivity.
    + rewrite IH; [reflexivity|]. intros Hin. apply Hnot. right. exact Hin.
Qed.

Lemma split_max_0 sep s : split_max sep 0 s = [s].
Proof. destruct s; reflexivity. Qed.

Lemma split_max_1 sep key raw :
  ~ In sep key -> split_max sep 1 (key ++ sep :: raw) = [key; raw].
Proof.
  induction key as [|c key IH]; intros Hnot; simpl.
  - assert (char_eqb sep sep = true) as -> by (apply char_eqb_eq; reflexivity).
    rewrite split_max_0. reflexivity.
  - destruct (char_eqb c sep) eqn:E.
    + apply char_eqb_eq in E. subst. exfalso. apply Hnot. left. reflexivity.
    + simpl in IH. rewrite IH; [reflexivity|]. intros Hin. apply Hnot. right. exact Hin.
Qed.

Lemma split_join sep l :
  l <> [] -> Forall (fun x => ~ In sep x) l -> split sep (join [sep] l) = l.
Proof.
  induction l as [|x l IH]; intros Hne Hall; [congruence|].
  apply Forall_cons in Hall as [Hx Hall].
  destruct l as [|y l].
  - simpl. apply split_nosep. exact Hx.
  - change (join [sep] (x :: y :: l)) with (x ++ sep :: join [sep] (y :: l)).
    rewrite split_app_sep by exact Hx. f_equal. apply IH; [discriminate | exact Hall].
Qed.

(** Splitting on whitespace. *)
Lemma split_ws_from_word w cur rest :
  free_of isspace w = true ->
  split_ws_from cur (w ++ rest) = split_ws_from (rev w ++ cur) rest.
Proof.
  revert cur; induction w as [|c w IH]; intros cur Hw; simpl; [reflexivity|].
  simpl in Hw. apply andb_true_iff in Hw as [Hc Hw]. apply negb_true_iff in Hc.
  rewrite Hc, (IH _ Hw), <- app_assoc. reflexivity.
Qed.

Lemma split_ws_join l :
  Forall (fun x => x <> [] /\ free_of isspace x = true) l ->
  split_ws (join (lit " ") l) = l.
Proof.
  unfold split_ws. induction l as [|x l IH]; intros Hall; [reflexivity|].
  apply Forall_cons in Hall as [[Hne Hx] Hall].
  assert (Hrev : rev x <> []).
  { intros E. apply Hne. rewrite <- (rev_involutive x), E. reflexivity. }
  destruct l as [|y l].
  - pose proof (split_ws_from_word x [] [] Hx) as Hw. rewrite !app_nil_r in Hw.
    cbn [join]. rewrite Hw. cbn [split_ws_from].
    destruct (rev x) eqn:E; [congruence|]. rewrite <- E, rev_involutive.
    reflexivity.
  - change (join (lit " ") (x :: y :: l)) with (x ++ " "%char :: join (lit " ") (y :: l)).
    rewrite (split_ws_from_word x [] _ Hx), app_nil_r.
    cbn [split_ws_from].
    assert (isspace " " = true) as -> by reflexivity.
    destruct (rev x) eqn:E; [congruence|]. rewrite <- E, rev_involutive.
    f_equal. apply IH. exact Hall.
Qed.

(** The pieces of [s.split()] are not empty and hold no whitespace. *)
Lemma split_ws_from_pieces s :
  forall cur, free_of isspace cur = true ->
    Forall (fun x => x <> [] /\ free_of isspace x = true) (split_ws_from cur s).
Proof.
  assert (Hrev : forall cur, free_of isspace cur = true -> free_of isspace (rev cur) = true).
  { unfold free_of. intros cur H. rewrite forallb_forall in *.
    intros c Hin. apply H, in_rev. exact Hin. }
  assert (Hnil : forall (c : ascii) cur, rev (c :: cur) <> []).
  { intros c cur E. apply (f_equal (@length ascii)) in E.
    rewrite length_rev in E. discriminate. }
  induction s as [|c s IH]; intros cur Hcur; simpl.
  - destruct cur as [|c0 cur]; [constructor|].
    constructor; [|constructor]. split; [apply Hnil | apply Hrev, Hcur].
  - destruct (isspace c) eqn:Hc.
    + destruct cur as [|c0 cur]; [apply IH; reflexivity|].
      constructor; [|apply IH; reflexivity].
      split; [apply Hnil | apply Hrev, Hcur].
    + apply IH. simpl. rewrite Hc. exact Hcur.
Qed.

Lemma split_ws_pieces s :
  Forall (fun x => x <> [] /\ free_of isspace x = true) (split_ws s).
Proof. apply split_ws_from_pieces. reflexivity. Qed.

(** Text in brackets. *)
Lemma startswith_bracket inner : startswith (lit "[") ("["%char :: inner) = true.
Proof. reflexivity. Qed.

Lemma endswith_bracket body : endswith (lit "]") (body ++ lit "]") = true.
Proof.
  unfold endswith. rewrite rev_app_distr. reflexivity.
Qed.

Lemma slice_bracket inner : slice_1_m1 ("["%char :: inner ++ lit "]") = inner.
Proof. unfold slice_1_m1. cbn [tl]. apply removelast_last. Qed.

End PyFacts.

(** ** Integers and their decimal text *)

Module IntFacts.
Import Py.

Lemma digit_text_digits d : forallb isdigit (digit_text d) = true.
Proof.
  unfold digit_text. induction d; simpl; try reflexivity; exact IHd.
Qed.

Lemma digit_text_nonnil d : d <> Decimal.Nil -> digit_text d <> [].
Proof. destruct d; intros H; [congruence | discriminate ..]. Qed.

Lemma isdigit_not_space c : isdigit c = true -> isspace_int c = false.
Proof.
  destruct c as [[] [] [] [] [] [] [] []]; intros H; try discriminate H; reflexivity.
Qed.

Lemma isdigit_not_sign c :
  isdigit c = true -> char_eqb c (ascii_of_N 45) = false /\ char_eqb c (ascii_of_N 43) = false.
Proof.
  destruct c as [[] [] [] [] [] [] [] []]; intros H; try discriminate H; split; reflexivity.
Qed.

Lemma digits_free_of_space s : forallb isdigit s = true -> free_of isspace_int s = true.
Proof.
  unfold free_of. rewrite !forallb_forall. intros H c Hin.
  rewrite (isdigit_not_space c (H c Hin)). reflexivity.
Qed.

Lemma int_body_ok_digits s : forallb isdigit s = true -> int_body_ok true s = true.
Proof.
  induction s as [|c s IH]; simpl; [reflexivity|].
  intros H. apply andb_true_iff in H as [Hc Hs]. rewrite Hc. auto.
Qed.

Lemma digits_of_digits s : forallb isdigit s = true -> digits_of s = s.
Proof.
  unfold digits_of. induction s as [|c s IH]; simpl; [reflexivity|].
  intros H. apply andb_true_iff in H as [Hc Hs]. rewrite Hc, IH; auto.
Qed.

Lemma nat_literal_digit_text d :
  d <> Decimal.Nil -> nat_literal (digit_text d) = Some (Z.of_uint d).
Proof.
  intros Hd. unfold nat_literal.
  pose proof (digit_text_digits d) as Hdig.
  pose proof (digit_text_nonnil d Hd) as Hne.
  assert (int_body_ok false (digit_text d) = true) as ->.
  { destruct (digit_text d) as [|c r]; [congruence|].
    simpl in Hdig |- *. apply andb_true_iff in Hdig as [Hc Hr].
    rewrite Hc. apply int_body_ok_digits, Hr. }
  rewrite (digits_of_digits _ Hdig). unfold uint_of_digits, digit_text.
  rewrite string_of_list_ascii_of_string, NilEmpty.usu. reflexivity.
Qed.

Lemma strip_digit_text d : strip_of isspace_int (digit_text d) = digit_text d.
Proof.
  apply PyFacts.strip_of_id, PyFacts.free_of_edge_free, digits_free_of_space,
    digit_text_digits.
Qed.

Lemma strip_minus_digit_text d :
  strip_of isspace_int (ascii_of_N 45 :: digit_text d) = ascii_of_N 45 :: digit_text d.
Proof.
  apply PyFacts.strip_of_id, PyFacts.free_of_edge_free.
  unfold free_of. cbn [forallb]. apply andb_true_iff. split; [reflexivity|].
  apply digits_free_of_space, digit_text_digits.
Qed.

Lemma int_digit_text d : d <> Decimal.Nil -> int (digit_text d) = Some (Z.of_uint d).
Proof.
  intros Hd. unfold int. rewrite strip_digit_text.
  pose proof (digit_text_digits d) as Hdig.
  pose proof (nat_literal_digit_text d Hd) as Hlit.
  destruct (digit_text d) as [|c r] eqn:E; [exfalso; exact (digit_text_nonnil d Hd E)|].
  simpl in Hdig. apply andb_true_iff in Hdig as [Hc _].
  destruct (isdigit_not_sign c Hc) as [-> ->]. exact Hlit.
Qed.

Lemma int_minus_digit_text d :
  d <> Decimal.Nil -> int (ascii_of_N 45 :: digit_text d) = Some (- Z.of_uint d).
Proof.
  intros Hd. unfold int. rewrite strip_minus_digit_text.
  assert (char_eqb (ascii_of_N 45) (ascii_of_N 45) = true) as -> by reflexivity.
  rewrite (nat_literal_digit_text d Hd). reflexivity.
Qed.

(** [int(str(z)) == z] *)
Theorem int_str_of_int z : int (str_of_int z) = Some z.
Proof.
  pose proof (DecimalZ.of_to z) as Hz.
  destruct z as [|p|p].
  - reflexivity.
  - change (str_of_int (Z.pos p)) with (digit_text (Pos.to_uint p)).
    rewrite int_digit_text by apply DecimalPos.Unsigned.to_uint_nonnil.
    f_equal. exact Hz.
  - change (str_of_int (Z.neg p)) with (ascii_of_N 45 :: digit_text (Pos.to_uint p)).
    rewrite int_minus_digit_text by apply DecimalPos.Unsigned.to_uint_nonnil.
    f_equal. exact Hz.
Qed.

End IntFacts.

(** ** Regular expressions: the matcher and the words *)

Module ReFacts.
Import Re.

Lemma cat_matches r1 r2 s :
  matches (Cat r1 r2) s <-> exists s1 s2, s = s1 ++ s2 /\ matches r1 s1 /\ matches r2 s2.
Proof.
  split.
  - inversion 1; subst. eauto.
  - intros (s1 & s2 & -> & H1 & H2). constructor; assumption.
Qed.

Lemma alt_matches r1 r2 s : matches (Alt r1 r2) s <-> matches r1 s \/ matches r2 s.
Proof.
  split.
  - inversion 1; subst; auto.
  - intros [H|H]; [apply m_alt_l | apply m_alt_r]; exact H.
Qed.

Lemma class_matches p s : matches (Class p) s <-> exists c, s = [c] /\ p c = true.
Proof.
  split.
  - inversion 1; subst. eauto.
  - intros (c & -> & H). constructor. exact H.
Qed.

Lemma nullable_matches r : nullable r = true <-> matches r [].
Proof.
  induction r as [| |p|r1 IH1 r2 IH2|r1 IH1 r2 IH2|r IH]; simpl.
  - split; [discriminate | inversion 1].
  - split; [constructor | reflexivity].
  - split; [discriminate | inversion 1].
  - rewrite andb_true_iff, IH1, IH2, cat_matches. split.
    + intros [H1 H2]. exists [], []. auto.
    + intros (s1 & s2 & E & H1 & H2). symmetry in E.
      apply app_eq_nil in E as [-> ->]. auto.
  - rewrite orb_true_iff, IH1, IH2, alt_matches. reflexivity.
  - split; [constructor | reflexivity].
Qed.

(** A word of [r*] that starts with [c] starts with a word of [r] that
    starts with [c]. *)
Lemma star_cons_inv r c s :
  matches (Star r) (c :: s) ->
  exists s1 s2, s = s1 ++ s2 /\ matches r (c :: s1) /\ matches (Star r) s2.
Proof.
  intros H. remember (Star r) as r' eqn:Er. remember (c :: s) as w eqn:Ew.
  revert c s Ew.
  induction H as [| | | | | |r0 s1 s2 H1 _ H2 IH2]; try discriminate.
  injection Er as ->. intros c s Ew.
  destruct s1 as [|c1 s1]; simpl in Ew.
  - apply IH2; [reflexivity | exact Ew].
  - injection Ew as -> <-. exists s1, s2. auto.
Qed.

Lemma cat_cons_matches r1 r2 c s :
  matches (Cat r1 r2) (c :: s)
  <-> (exists s1 s2, s = s1 ++ s2 /\ matches r1 (c :: s1) /\ matches r2 s2)
      \/ (matches r1 [] /\ matches r2 (c :: s)).
Proof.
  rewrite cat_matches. split.
  - intros (s1 & s2 & E & H1 & H2).
    destruct s1 as [|c1 s1]; simpl in E.
    + right. subst. auto.
    + injection E as -> ->. left. eauto.
  - intros [(s1 & s2 & -> & H1 & H2) | [H1 H2]].
    + exists (c :: s1), s2. auto.
    + exists [], (c :: s). auto.
Qed.

Lemma deriv_matches r c s : matches (deriv c r) s <-> matches r (c :: s).
Proof.
  revert s; induction r as [| |p|r1 IH1 r2 IH2|r1 IH1 r2 IH2|r IH]; intros s; simpl.
  - split; inversion 1.
  - split; inversion 1.
  - rewrite class_matches. destruct (p c) eqn:Hp.
    + split.
      * inversion 1; subst. eauto.
      * intros (c' & E & _). injection E as E1 E2. subst. constructor.
    + split; [inversion 1|]. intros (c' & E & Hc). injection E as E1 E2. subst. congruence.
  - assert (Hcat : matches (Cat (deriv c r1) r2) s
                   <-> exists s1 s2, s = s1 ++ s2 /\ matches r1 (c :: s1) /\ matches r2 s2).
    { rewrite cat_matches. split.
      - intros (s1 & s2 & -> & H1 & H2). exists s1, s2. rewrite <- IH1. auto.
      - intros (s1 & s2 & -> & H1 & H2). exists s1, s2. rewrite IH1. auto. }
    rewrite cat_cons_matches. destruct (nullable r1) eqn:Hn.
    + apply nullable_matches in Hn. rewrite alt_matches, Hcat, IH2. tauto.
    + rewrite Hcat. split; [auto|].
      intros [H | [H _]]; [exact H|].
      apply nullable_matches in H. congruence.
  - rewrite !alt_matches, IH1, IH2. reflexivity.
  - rewrite cat_matches. split.
    + intros (s1 & s2 & -> & H1 & H2).
      apply IH in H1. exact (m_star_cons _ (c :: s1) s2 H1 H2).
    + intros H. apply star_cons_inv in H as (s1 & s2 & -> & H1 & H2).
      exists s1, s2. rewrite IH. auto.
Qed.

Theorem fullmatch_matches r s : fullmatch r s = true <-> matches r s.
Proof.
  revert r; induction s as [|c s IH]; intros r; simpl.
  - apply nullable_matches.
  - rewrite IH. apply deriv_matches.
Qed.

(** The words of [[p]*] and of [[p]+]. *)
Lemma star_class_matches p s : matches (Star (Class p)) s <-> forallb p s = true.
Proof.
  split.
  - intros H. remember (Star (Class p)) as r eqn:Er.
    induction H as [| | | | | |r0 s1 s2 H1 _ H2 IH2]; try discriminate; [reflexivity|].
    injection Er as ->. apply class_matches in H1 as (c & -> & Hc). simpl.
    rewrite IH2 by reflexivity. rewrite andb_true_r. assumption.
  - induction s as [|c s IH]; simpl; [constructor|].
    intros H. apply andb_true_iff in H as [Hc Hs].
    apply (m_star_cons _ [c] s); [constructor; exact Hc | auto].
Qed.

Lemma plus_class_matches p s :
  matches (Plus (Class p)) s <-> s <> [] /\ forallb p s = true.
Proof.
  unfold Plus. split.
  - rewrite cat_matches. intros (s1 & s2 & -> & H1 & H2).
    apply class_matches in H1 as (c & -> & Hc). apply star_class_matches in H2.
    split; [discriminate|]. simpl. rewrite H2, andb_true_r. assumption.
  - intros [Hne H]. destruct s as [|c s]; [congruence|].
    simpl in H. apply andb_true_iff in H as [Hc Hs].
    apply (m_cat _ _ [c] s); [constructor; exact Hc | apply star_class_matches, Hs].
Qed.

Lemma chr_matches c s : matches (Chr c) s <-> s = [c].
Proof.
  unfold Chr. split.
  - rewrite class_matches. intros (c' & -> & Hc).
    apply Ascii.eqb_eq in Hc. congruence.
  - intros ->. constructor. apply Ascii.eqb_refl.
Qed.

Lemma str_matches w s : matches (Str w) s <-> s = w.
Proof.
  revert s; induction w as [|c w IH]; intros s; simpl.
  - split; [inversion 1; reflexivity | intros ->; constructor].
  - rewrite cat_matches. split.
    + intros (s1 & s2 & -> & H1 & H2). apply chr_matches in H1. apply IH in H2.
      subst. reflexivity.
    + intros ->. exists [c], w. repeat split; [apply chr_matches | apply IH]; reflexivity.
Qed.

(** [s.endswith(newline)] and [s[:-1]] *)
Lemma endswith_newline s :
  Py.endswith [newline] s = true <-> exists body, s = body ++ [newline].
Proof.
  unfold Py.endswith. change (rev [newline]) with [newline]. split.
  - destruct (rev s) as [|c r] eqn:E; [discriminate|].
    change (Py.startswith [newline] (c :: r)) with (Py.char_eqb newline c && true).
    rewrite andb_true_r. unfold Py.char_eqb. intros H. apply Ascii.eqb_eq in H. subst c.
    exists (rev r). rewrite <- (rev_involutive s), E. reflexivity.
  - intros [body ->]. rewrite rev_app_distr.
    change (Py.startswith [newline] (rev [newline] ++ rev body))
      with (Py.char_eqb newline newline && true).
    unfold Py.char_eqb. rewrite Ascii.eqb_refl. reflexivity.
Qed.

(** What [re.match] with a final [$] accepts: a word of the pattern, with or
    without one newline after it. *)
Theorem match_dollar_matches r s :
  match_dollar r s = true <-> matches r s \/ exists body, s = body ++ [newline] /\ matches r body.
Proof.
  unfold match_dollar. rewrite orb_true_iff, andb_true_iff, fullmatch_matches.
  split.
  - intros [H | [He H]]; [left; exact H | right].
    apply endswith_newline in He as [body ->].
    rewrite removelast_last in H. apply fullmatch_matches in H. eauto.
  - intros [H | (body & -> & H)]; [left; exact H | right].
    split; [apply endswith_newline; eauto|].
    rewrite removelast_last. apply fullmatch_matches. exact H.
Qed.

End ReFacts.

(** ** The validators *)

Section ValidatorFacts.
Import Config.

Lemma optional_newline_cases (P : pystr -> Prop) (s : pystr) :
  (P s \/ exists body, s = body ++ [Re.newline] /\ P body)
  <-> exists body nl, s = body ++ nl /\ P body /\ optional_newline nl.
Proof.
  split.
  - intros [H | (body & -> & H)].
    + exists s, []. rewrite app_nil_r. repeat split; [exact H | left; reflexivity].
    + exists body, [Re.newline]. repeat split; [exact H | right; reflexivity].
  - intros (body & nl & -> & H & [-> | ->]).
    + left. rewrite app_nil_r. exact H.
    + right. eauto.
Qed.

(** [re.match] of a class pattern [[p]+$]. *)
Lemma class_re_shape p s :
  Re.match_dollar (Re.Plus (Re.Class p)) s = true <-> class_word p s.
Proof.
  rewrite ReFacts.match_dollar_matches, optional_newline_cases. unfold class_word.
  split.
  - intros (body & nl & -> & H & Hnl). exists body, nl.
    destruct (proj1 (ReFacts.plus_class_matches _ _) H) as [H1 H2]. auto.
  - intros (body & nl & -> & H1 & H2 & Hnl). exists body, nl.
    split; [reflexivity|]. split; [|exact Hnl].
    apply ReFacts.plus_class_matches. auto.
Qed.

Lemma nvme_re_matches s :
  Re.matches nvme_partition_re s
  <-> exists pre ds, s = pre ++ "p"%char :: ds /\ forallb Re.dot pre = true /\ digits ds.
Proof.
  unfold nvme_partition_re. rewrite ReFacts.cat_matches. split.
  - intros (pre & s2 & -> & H1 & H2).
    apply ReFacts.star_class_matches in H1.
    apply ReFacts.cat_matches in H2 as (s3 & ds & -> & H3 & H4).
    apply ReFacts.chr_matches in H3 as ->.
    pose proof (proj1 (ReFacts.plus_class_matches _ _) H4) as Hds.
    exists pre, ds. auto.
  - intros (pre & ds & -> & H1 & H2). exists pre, ("p"%char :: ds).
    split; [reflexivity|]. split; [apply ReFacts.star_class_matches, H1|].
    apply ReFacts.cat_matches. exists ["p"%char], ds.
    split; [reflexivity|]. split; [apply ReFacts.chr_matches; reflexivity|].
    apply ReFacts.plus_class_matches. exact H2.
Qed.

Lemma sata_re_matches s :
  Re.matches sata_partition_re s
  <-> exists x y ds,
        s = lit "/dev/" ++ x :: "d"%char :: y :: ds
        /\ (x = "s"%char \/ x = "v"%char) /\ Re.range "a" "z" y = true /\ digits ds.
Proof.
  unfold sata_partition_re. rewrite ReFacts.cat_matches. split.
  - intros (s1 & s2 & -> & H1 & H2).
    apply ReFacts.str_matches in H1 as ->.
    apply ReFacts.cat_matches in H2 as (sx & s3 & -> & Hx & H3).
    apply ReFacts.class_matches in Hx as (x & -> & Hx).
    apply ReFacts.cat_matches in H3 as (sd & s4 & -> & Hd & H4).
    apply ReFacts.chr_matches in Hd as ->.
    apply ReFacts.cat_matches in H4 as (sy & ds & -> & Hy & Hds).
    apply ReFacts.class_matches in Hy as (y & -> & Hy).
    apply (proj1 (ReFacts.plus_class_matches _ _)) in Hds.
    exists x, y, ds. split; [reflexivity|]. split; [|split; [exact Hy | exact Hds]].
    unfold Re.one_of in Hx. simpl in Hx. unfold Py.char_eqb in Hx.
    rewrite orb_false_r in Hx. apply orb_true_iff in Hx as [Hx|Hx];
      apply Ascii.eqb_eq in Hx; auto.
  - intros (x & y & ds & -> & Hx & Hy & Hds).
    exists (lit "/dev/"), (x :: "d"%char :: y :: ds).
    split; [reflexivity|]. split; [apply ReFacts.str_matches; reflexivity|].
    apply ReFacts.cat_matches. exists [x], ("d"%char :: y :: ds).
    split; [reflexivity|]. split.
    { apply ReFacts.class_matches. exists x. split; [reflexivity|].
      destruct Hx as [-> | ->]; reflexivity. }
    apply ReFacts.cat_matches. exists ["d"%char], (y :: ds).
    split; [reflexivity|]. split; [apply ReFacts.chr_matches; reflexivity|].
    apply ReFacts.cat_matches. exists [y], ds.
    split; [reflexivity|]. split; [apply ReFacts.class_matches; eauto|].
    apply ReFacts.plus_class_matches. exact Hds.
Qed.

(** The two partition patterns of [_validate_disk], spelled out. *)
Theorem looks_like_partition_shape d :
  looks_like_partition d = true <-> nvme_partition_shape d \/ sata_partition_shape d.
Proof.
  unfold looks_like_partition.
  rewrite orb_true_iff, !ReFacts.match_dollar_matches, !optional_newline_cases.
  unfold nvme_partition_shape, sata_partition_shape.
  split; (intros [H|H]; [left|right]).
  - destruct H as (body & nl & -> & H & Hnl).
    apply nvme_re_matches in H as (pre & ds & -> & H1 & H2).
    exists pre, ds, nl. rewrite <- app_assoc. auto.
  - destruct H as (body & nl & -> & H & Hnl).
    apply sata_re_matches in H as (x & y & ds & -> & H1 & H2 & H3).
    exists x, y, ds, nl. rewrite <- app_assoc. auto.
  - destruct H as (pre & ds & nl & -> & H1 & H2 & Hnl).
    exists (pre ++ "p"%char :: ds), nl. rewrite <- app_assoc.
    repeat split; [|exact Hnl]. apply nvme_re_matches. eauto.
  - destruct H as (x & y & ds & nl & -> & H1 & H2 & H3 & Hnl).
    exists (lit "/dev/" ++ x :: "d"%char :: y :: ds), nl. rewrite <- app_assoc.
    repeat split; [|exact Hnl]. apply sata_re_matches. eauto 10.
Qed.

Lemma class_word_chars p s c :
  class_word p s -> In c s -> p c = true \/ c = Re.newline.
Proof.
  intros (body & nl & -> & _ & Hall & Hnl) Hin.
  apply in_app_or in Hin as [Hin | Hin].
  - left. rewrite forallb_forall in Hall. auto.
  - right. destruct Hnl as [-> | ->]; simpl in Hin; intuition congruence.
Qed.

Lemma class_word_nonempty p s : class_word p s -> s <> [].
Proof.
  intros (body & nl & -> & Hne & _) E. apply app_eq_nil in E as [E _]. auto.
Qed.

Lemma class_word_plain p s : s <> [] -> forallb p s = true -> class_word p s.
Proof.
  intros Hne Hall. exists s, []. rewrite app_nil_r.
  repeat split; [exact Hne | exact Hall | left; reflexivity].
Qed.

(** The four validators, one by one. *)
Lemma validate_disk_cases c :
  _validate_disk c
  = if negb (Py.startswith (lit "/dev/") (disk c)) then
      Raise (ValueError (lit "Invalid disk path: " ++ disk c))
    else if looks_like_partition (disk c) then
      Raise (ValueError (lit "DISK=" ++ disk c
                         ++ lit " appears to be a partition. Please specify the whole disk."))
    else Return tt.
Proof.
  unfold _validate_disk.
  destruct (negb _); [reflexivity|]. destruct (looks_like_partition _); reflexivity.
Qed.

Lemma validate_pools_cases c :
  _validate_pools c
  = if negb (Re.match_dollar pool_re (pool_root c)) then
      Raise (ValueError (lit "Invalid pool name: " ++ pool_root c))
    else if negb (Re.match_dollar pool_re (pool_boot c)) then
      Raise (ValueError (lit "Invalid pool name: " ++ pool_boot c))
    else if arc_max_mb c <? 64 then
      Raise (ValueError (lit "ARC max too small: " ++ Py.str_of_int (arc_max_mb c)
                         ++ lit "MB"))
    else Return tt.
Proof.
  unfold _validate_pools. cbn [for_each bind].
  destruct (negb (Re.match_dollar pool_re (pool_root c))); [reflexivity|].
  cbn [bind].
  destruct (negb (Re.match_dollar pool_re (pool_boot c))); reflexivity.
Qed.

Lemma construct_with_hostname h :
  construct (with_hostname h defaults)
  = (_validate_hostname (with_hostname h defaults) ;;; Return (with_hostname h defaults)).
Proof.
  unfold construct, __post_init__.
  assert (_validate_disk (with_hostname h defaults) = Return tt) as -> by reflexivity.
  cbn [bind].
  destruct (_validate_hostname (with_hostname h defaults)) as [[]|e]; [|reflexivity].
  cbn [bind].
  assert (_validate_pools (with_hostname h defaults) = Return tt) as -> by reflexivity.
  assert (_validate_ssh_config (with_hostname h defaults) = Return tt) as -> by reflexivity.
  reflexivity.
Qed.


Lemma hostname_match_false_of_char h c :
  In c h -> hostname_char c = false -> c <> Re.newline ->
  Re.match_dollar hostname_re h = false.
Proof.
  intros Hin Hc Hnl. apply not_true_iff_false. intros Hm.
  apply class_re_shape in Hm.
  destruct (class_word_chars _ _ _ Hm Hin); congruence.
Qed.

(** C5: a hostname that holds a space, a dot or an underscore, or is empty,
    or is longer than 63 characters is refused with a validation error of
    the hostname; a hostname of 1 to 63 letters, digits and hyphens is
    accepted (the other fields at their defaults). *)
Theorem hostname_validation (h : pystr) :
  ((In " "%char h \/ In "."%char h \/ In "_"%char h \/ h = [] \/ (63 < length h)%nat) ->
   construct (with_hostname h defaults)
     = Raise (ValueError (lit "Invalid hostname: " ++ h))
   \/ construct (with_hostname h defaults)
     = Raise (ValueError (lit "Hostname too long: " ++ h)))
  /\ ((forallb hostname_char h = true /\ (1 <= length h <= 63)%nat) ->
      construct (with_hostname h defaults) = Return (with_hostname h defaults)).
Proof.
  rewrite construct_with_hostname. unfold _validate_hostname.
  cbn [hostname with_hostname]. split.
  - intros Hbad.
    destruct (Re.match_dollar hostname_re h) eqn:Hm; [|left; reflexivity].
    right. cbn [negb].
    assert (Hlong : (63 < length h)%nat).
    { destruct Hbad as [H | [H | [H | [H | H]]]]; [| | | |exact H].
      - rewrite (hostname_match_false_of_char h " ") in Hm by (auto; discriminate).
        discriminate.
      - rewrite (hostname_match_false_of_char h ".") in Hm by (auto; discriminate).
        discriminate.
      - rewrite (hostname_match_false_of_char h "_") in Hm by (auto; discriminate).
        discriminate.
      - subst h. discriminate. }
    assert ((63 <? Z.of_nat (length h)) = true) as -> by (apply Z.ltb_lt; lia).
    reflexivity.
  - intros [Hall Hlen].
    assert (Hm : Re.match_dollar hostname_re h = true).
    { apply class_re_shape, class_word_plain; [|exact Hall].
      intros ->. simpl in Hlen. lia. }
    rewrite Hm. cbn [negb].
    assert ((63 <? Z.of_nat (length h)) = false) as -> by (apply Z.ltb_ge; lia).
    reflexivity.
Qed.

Lemma hostname_validation_witness :
  construct (with_hostname (lit "test host") defaults)
    = Raise (ValueError (lit "Invalid hostname: test host"))
  /\ construct (with_hostname (lit "test-host") defaults)
     = Return (with_hostname (lit "test-host") defaults).
Proof.
  split.
  - destruct (proj1 (hostname_validation (lit "test host"))) as [H | H].
    + left. simpl. tauto.
    + exact H.
    + discriminate H.
  - apply (proj2 (hostname_validation (lit "test-host"))).
    split; [reflexivity | simpl; lia].
Defined.

Lemma startswith_iff p s : Py.startswith p s = true <-> exists rest, s = p ++ rest.
Proof.
  revert s; induction p as [|a p IH]; intros s; cbn [Py.startswith].
  - split; [intros _; exists s; reflexivity | reflexivity].
  - destruct s as [|b s].
    + split; [discriminate | intros [rest H]; discriminate H].
    + rewrite andb_true_iff, IH. unfold Py.char_eqb. rewrite Ascii.eqb_eq. split.
      * intros [-> [rest ->]]. exists rest. reflexivity.
      * intros [rest H]. injection H as -> ->. eauto.
Qed.

Lemma under_dev_startswith d : Py.startswith (lit "/dev/") d = true <-> under_dev d.
Proof. apply startswith_iff. Qed.

Lemma not_under_dev_startswith d : Py.startswith (lit "/dev/") d = false <-> ~ under_dev d.
Proof.
  rewrite <- under_dev_startswith. destruct (Py.startswith _ d); intuition congruence.
Qed.

Lemma not_partition_shape d :
  looks_like_partition d = false <-> ~ (nvme_partition_shape d \/ sata_partition_shape d).
Proof.
  rewrite <- looks_like_partition_shape. destruct (looks_like_partition d); intuition congruence.
Qed.

Lemma class_word_dec_match p s :
  Re.match_dollar (Re.Plus (Re.Class p)) s = false <-> ~ class_word p s.
Proof.
  rewrite <- class_re_shape. destruct (Re.match_dollar _ s); intuition congruence.
Qed.




(** Each validator reads its own fields only. *)
Lemma validate_disk_ext c c' : disk c' = disk c -> _validate_disk c' = _validate_disk c.
Proof. unfold _validate_disk. intros ->. reflexivity. Qed.

Lemma validate_hostname_ext c c' :
  hostname c' = hostname c -> _validate_hostname c' = _validate_hostname c.
Proof. unfold _validate_hostname. intros ->. reflexivity. Qed.

Lemma validate_pools_ext c c' :
  pool_root c' = pool_root c -> pool_boot c' = pool_boot c ->
  arc_max_mb c' = arc_max_mb c -> _validate_pools c' = _validate_pools c.
Proof. unfold _validate_pools. intros -> -> ->. reflexivity. Qed.

Lemma validate_hostname_cases c :
  _validate_hostname c = Return tt
  \/ _validate_hostname c = Raise (ValueError (lit "Invalid hostname: " ++ hostname c))
  \/ _validate_hostname c = Raise (ValueError (lit "Hostname too long: " ++ hostname c)).
Proof.
  unfold _validate_hostname.
  destruct (negb _); [auto|]. destruct (63 <? _); auto.
Qed.

(** C8: construction runs the disk check, then the hostname check, then
    the checks of the two pool names and of the lower bound of the ARC
    size, then the check of permit_root_login, and raises the error of the
    first field that is wrong, with the message of that field and rule,
    whatever the fields are that the later checks read; when every field
    is right the instance is returned.  With a wrong disk the error is the
    one of the disk, whatever the hostname is. *)
Theorem checks_run_in_order (c : ZFSConfig) :
  (~ under_dev (disk c) ->
   construct c = Raise (ValueError (lit "Invalid disk path: " ++ disk c)))
  /\ (under_dev (disk c) ->
      nvme_partition_shape (disk c) \/ sata_partition_shape (disk c) ->
      construct c
      = Raise (ValueError (lit "DISK=" ++ disk c
                 ++ lit " appears to be a partition. Please specify the whole disk.")))
  /\ (disk_ok (disk c) -> ~ class_word hostname_char (hostname c) ->
      construct c = Raise (ValueError (lit "Invalid hostname: " ++ hostname c)))
  /\ (disk_ok (disk c) -> class_word hostname_char (hostname c) ->
      (63 < length (hostname c))%nat ->
      construct c = Raise (ValueError (lit "Hostname too long: " ++ hostname c)))
  /\ (disk_ok (disk c) -> hostname_ok (hostname c) -> ~ pool_ok (pool_root c) ->
      construct c = Raise (ValueError (lit "Invalid pool name: " ++ pool_root c)))
  /\ (disk_ok (disk c) -> hostname_ok (hostname c) -> pool_ok (pool_root c) ->
      ~ pool_ok (pool_boot c) ->
      construct c = Raise (ValueError (lit "Invalid pool name: " ++ pool_boot c)))
  /\ (disk_ok (disk c) -> hostname_ok (hostname c) -> pool_ok (pool_root c) ->
      pool_ok (pool_boot c) -> arc_max_mb c < 64 ->
      construct c
      = Raise (ValueError (lit "ARC max too small: " ++ Py.str_of_int (arc_max_mb c)
                 ++ lit "MB")))
  /\ (disk_ok (disk c) -> hostname_ok (hostname c) -> pool_ok (pool_root c) ->
      pool_ok (pool_boot c) -> 64 <= arc_max_mb c ->
      ~ In (permit_root_login c) [lit "yes"; lit "no"; lit "prohibit-password"] ->
      construct c
      = Raise (ValueError (lit "Invalid permit_root_login: " ++ permit_root_login c)))
  /\ (disk_ok (disk c) -> hostname_ok (hostname c) -> pool_ok (pool_root c) ->
      pool_ok (pool_boot c) -> 64 <= arc_max_mb c ->
      In (permit_root_login c) [lit "yes"; lit "no"; lit "prohibit-password"] ->
      construct c = Return c)
  /\ (~ disk_ok (disk c) -> ~ hostname_ok (hostname c) ->
      construct c = Raise (ValueError (lit "Invalid disk path: " ++ disk c))
      \/ construct c
         = Raise (ValueError (lit "DISK=" ++ disk c
                    ++ lit " appears to be a partition. Please specify the whole disk."))).
Proof.
  assert (Hdisk : disk_ok (disk c) -> _validate_disk c = Return tt).
  { intros [Hu Hs]. rewrite validate_disk_cases.
    apply under_dev_startswith in Hu. apply not_partition_shape in Hs.
    rewrite Hu, Hs. reflexivity. }
  assert (Hhost : hostname_ok (hostname c) -> _validate_hostname c = Return tt).
  { intros [Hw Hl]. unfold _validate_hostname.
    apply class_re_shape in Hw. unfold hostname_re. rewrite Hw. cbn [negb].
    assert ((63 <? Z.of_nat (length (hostname c))) = false) as -> by (apply Z.ltb_ge; lia).
    reflexivity. }
  assert (Hpool : forall p, pool_ok p -> Re.match_dollar pool_re p = true).
  { intros p Hp. apply class_re_shape, Hp. }
  assert (Hnpool : forall p, ~ pool_ok p -> Re.match_dollar pool_re p = false).
  { intros p Hp. apply class_word_dec_match, Hp. }
  unfold construct, __post_init__. split_and!.
  - intros Hu. apply not_under_dev_startswith in Hu.
    rewrite validate_disk_cases, Hu. reflexivity.
  - intros Hu Hs. apply under_dev_startswith in Hu. apply looks_like_partition_shape in Hs.
    rewrite validate_disk_cases, Hu, Hs. reflexivity.
  - intros Hd Hh. rewrite (Hdisk Hd). cbn [bind]. unfold _validate_hostname.
    apply class_word_dec_match in Hh. unfold hostname_re. rewrite Hh. reflexivity.
  - intros Hd Hw Hl. rewrite (Hdisk Hd). cbn [bind]. unfold _validate_hostname.
    apply class_re_shape in Hw. unfold hostname_re. rewrite Hw. cbn [negb].
    assert ((63 <? Z.of_nat (length (hostname c))) = true) as -> by (apply Z.ltb_lt; lia).
    reflexivity.
  - intros Hd Hh Hr. rewrite (Hdisk Hd), (Hhost Hh). cbn [bind].
    rewrite validate_pools_cases, (Hnpool _ Hr). reflexivity.
  - intros Hd Hh Hr Hb. rewrite (Hdisk Hd), (Hhost Hh). cbn [bind].
    rewrite validate_pools_cases, (Hpool _ Hr), (Hnpool _ Hb). reflexivity.
  - intros Hd Hh Hr Hb Ha. rewrite (Hdisk Hd), (Hhost Hh). cbn [bind].
    rewrite validate_pools_cases, (Hpool _ Hr), (Hpool _ Hb). cbn [negb].
    assert ((arc_max_mb c <? 64) = true) as -> by (apply Z.ltb_lt; lia).
    reflexivity.
  - intros Hd Hh Hr Hb Ha Hp. rewrite (Hdisk Hd), (Hhost Hh). cbn [bind].
    rewrite validate_pools_cases, (Hpool _ Hr), (Hpool _ Hb). cbn [negb].
    assert ((arc_max_mb c <? 64) = false) as -> by (apply Z.ltb_ge; lia).
    cbn [bind]. unfold _validate_ssh_config.
    rewrite bool_decide_eq_false_2; [reflexivity|].
    rewrite list_elem_of_In. exact Hp.
  - intros Hd Hh Hr Hb Ha Hp. rewrite (Hdisk Hd), (Hhost Hh). cbn [bind].
    rewrite validate_pools_cases, (Hpool _ Hr), (Hpool _ Hb). cbn [negb].
    assert ((arc_max_mb c <? 64) = false) as -> by (apply Z.ltb_ge; lia).
    cbn [bind]. unfold _validate_ssh_config.
    rewrite bool_decide_eq_true_2 by (apply list_elem_of_In; exact Hp).
    reflexivity.
  - intros Hd _. rewrite validate_disk_cases.
    destruct (Py.startswith (lit "/dev/") (disk c)) eqn:Hu; [|left; reflexivity].
    destruct (looks_like_partition (disk c)) eqn:Hs; [right; reflexivity|].
    exfalso. apply Hd. split; [apply under_dev_startswith, Hu | apply not_partition_shape, Hs].
Qed.

Lemma default_fields_ok :
  disk_ok (lit "/dev/sda") /\ hostname_ok (lit "mail1")
  /\ pool_ok (lit "rpool") /\ pool_ok (lit "bpool").
Proof.
  split_and!.
  - split; [exists (lit "sda"); reflexivity | apply not_partition_shape; reflexivity].
  - split; [apply class_re_shape; reflexivity | cbn; lia].
  - apply class_re_shape. reflexivity.
  - apply class_re_shape. reflexivity.
Qed.

Lemma checks_run_in_order_witness :
  construct (with_hostname (lit "bad host") (with_disk (lit "/dev/sda1") defaults))
    = Raise (ValueError
               (lit "DISK=/dev/sda1 appears to be a partition. Please specify the whole disk."))
  /\ construct (with_pool_root (lit "pool@special")
                  (with_arc_max_mb 32 (with_permit_root_login (lit "maybe") defaults)))
     = Raise (ValueError (lit "Invalid pool name: pool@special"))
  /\ construct (with_pool_boot (lit "b pool")
                  (with_arc_max_mb 32 (with_permit_root_login (lit "maybe") defaults)))
     = Raise (ValueError (lit "Invalid pool name: b pool"))
  /\ construct (with_arc_max_mb 32 (with_permit_root_login (lit "maybe") defaults))
     = Raise (ValueError (lit "ARC max too small: 32MB"))
  /\ construct (with_permit_root_login (lit "maybe") defaults)
     = Raise (ValueError (lit "Invalid permit_root_login: maybe"))
  /\ construct (with_hostname (repeat "a"%char 64) (with_pool_root (lit "") defaults))
     = Raise (ValueError (lit "Hostname too long: " ++ repeat "a"%char 64)).
Proof.
  destruct default_fields_ok as (Hd & Hh & Hr & Hb).
  split_and!.
  - destruct (checks_run_in_order
                (with_hostname (lit "bad host") (with_disk (lit "/dev/sda1") defaults)))
      as (_ & H & _).
    apply H.
    + exists (lit "sda1"). reflexivity.
    + apply looks_like_partition_shape. reflexivity.
  - destruct (checks_run_in_order
                (with_pool_root (lit "pool@special")
                   (with_arc_max_mb 32 (with_permit_root_login (lit "maybe") defaults))))
      as (_ & _ & _ & _ & H & _).
    apply H; [exact Hd | exact Hh |]. apply class_word_dec_match. reflexivity.
  - destruct (checks_run_in_order
                (with_pool_boot (lit "b pool")
                   (with_arc_max_mb 32 (with_permit_root_login (lit "maybe") defaults))))
      as (_ & _ & _ & _ & _ & H & _).
    apply H; [exact Hd | exact Hh | exact Hr |]. apply class_word_dec_match. reflexivity.
  - destruct (checks_run_in_order
                (with_arc_max_mb 32 (with_permit_root_login (lit "maybe") defaults)))
      as (_ & _ & _ & _ & _ & _ & H & _).
    apply H; [exact Hd | exact Hh | exact Hr | exact Hb |]. cbn. lia.
  - destruct (checks_run_in_order (with_permit_root_login (lit "maybe") defaults))
      as (_ & _ & _ & _ & _ & _ & _ & H & _).
    apply H; [exact Hd | exact Hh | exact Hr | exact Hb | cbn; lia |].
    cbn. intuition discriminate.
  - destruct (checks_run_in_order
                (with_hostname (repeat "a"%char 64) (with_pool_root (lit "") defaults)))
      as (_ & _ & _ & H & _).
    apply H; [exact Hd | apply class_re_shape; reflexivity | cbn; lia].
Defined.

(** What construction does guarantee: the patterns of the validators hold
    of the instance it returns, each with the one newline that [$] lets
    through at the end. *)
Lemma construct_returns c c' :
  construct c = Return c' ->
  c' = c
  /\ Py.startswith (lit "/dev/") (disk c) = true
  /\ looks_like_partition (disk c) = false
  /\ class_word hostname_char (hostname c)
  /\ (length (hostname c) <= 63)%nat
  /\ class_word pool_char (pool_root c)
  /\ class_word pool_char (pool_boot c)
  /\ 64 <= arc_max_mb c
  /\ In (permit_root_login c) valid_permit_values.
Proof.
  unfold construct, __post_init__.
  rewrite validate_disk_cases, validate_pools_cases.
  unfold _validate_hostname, _validate_ssh_config.
  destruct (Py.startswith (lit "/dev/") (disk c)) eqn:Hs; [|discriminate].
  destruct (looks_like_partition (disk c)) eqn:Hp; [discriminate|].
  destruct (Re.match_dollar hostname_re (hostname c)) eqn:Hh; [|discriminate].
  destruct (63 <? Z.of_nat (length (hostname c))) eqn:Hl; [discriminate|].
  destruct (Re.match_dollar pool_re (pool_root c)) eqn:Hr; [|discriminate].
  destruct (Re.match_dollar pool_re (pool_boot c)) eqn:Hb; [|discriminate].
  destruct (arc_max_mb c <? 64) eqn:Ha; [discriminate|].
  case_bool_decide as Hperm; [|discriminate].
  cbn [bind negb]. intros [= <-].
  apply Z.ltb_ge in Hl, Ha.
  split_and!; try reflexivity; try lia.
  - apply class_re_shape, Hh.
  - apply class_re_shape, Hr.
  - apply class_re_shape, Hb.
  - apply list_elem_of_In. exact Hperm.
Qed.

Lemma from_kwargs_constructs d c :
  from_kwargs d = Return c -> construct c = Return c.
Proof.
  unfold from_kwargs.
  repeat (match goal with
          | |- (bind ?m _ = _) -> _ => destruct m as [?|?]; [cbn [bind]|discriminate]
          end).
  intros H. pose proof (construct_returns _ _ H) as [-> _]. exact H.
Qed.

Lemma from_env_file_constructs env_file environ c :
  from_env_file env_file environ = Return c -> construct c = Return c.
Proof.
  unfold from_env_file.
  destruct (match env_file with Some _ => _ | None => _ end) as [d|]; [|discriminate].
  cbn [bind].
  destruct (fold_result _ _ _) as [d'|]; [|discriminate]. cbn [bind].
  apply from_kwargs_constructs.
Qed.

(** C3, at the input that breaks it: a hostname with a newline at its end
    passes the hostname pattern, so that direct construction and
    [from_env_file] (through the environment) return an instance whose
    hostname holds a character that is no letter, digit or hyphen. *)
Theorem trailing_newline_hostname_accepted :
  let h := lit "mail1" ++ [Re.newline] in
  construct (with_hostname h defaults) = Return (with_hostname h defaults)
  /\ from_env_file None {[ lit "HOSTNAME" := h ]} = Return (with_hostname h defaults)
  /\ In Re.newline (hostname (with_hostname h defaults))
  /\ hostname_char Re.newline = false
  /\ forallb hostname_char (hostname (with_hostname h defaults)) = false.
Proof.
  cbv zeta. split_and!.
  - vm_compute. reflexivity.
  - vm_compute. reflexivity.
  - cbn [hostname with_hostname]. apply in_or_app. right. left. reflexivity.
  - reflexivity.
  - reflexivity.
Qed.

End ValidatorFacts.

(** ** Loading: the overlay of the environment *)

Section LoadFacts.
Import Config.

Lemma env_table_fields_NoDup : NoDup (map snd _get_env_mapping).
Proof. compute_done. Qed.

Lemma env_table_vars_NoDup : NoDup (map fst _get_env_mapping).
Proof. compute_done. Qed.

(** A turn of the overlay loop for another field leaves the entry of [f]
    alone. *)
Lemma overlay_var_other environ d d' env_var f' f :
  overlay_var environ d (env_var, f') = Return d' -> f' <> f -> d' !! f = d !! f.
Proof.
  unfold overlay_var. destruct (environ !! env_var) as [value|].
  - destruct (_parse_value f' value) as [v|]; [|discriminate].
    cbn [bind]. intros [= <-] Hne. apply lookup_insert_ne. exact Hne.
  - intros [= <-] _. reflexivity.
Qed.

Lemma overlay_other environ items :
  forall d d' f,
    fold_result (overlay_var environ) items d = Return d' ->
    ~ In f (map snd items) -> d' !! f = d !! f.
Proof.
  induction items as [|[env_var f'] items IH]; intros d d' f; cbn [fold_result].
  - intros [= <-] _. reflexivity.
  - destruct (overlay_var environ d (env_var, f')) as [d1|] eqn:E1; [|discriminate].
    cbn [bind]. intros Hfold Hnotin. cbn [map snd In] in Hnotin.
    rewrite (IH d1 d' f Hfold) by tauto.
    apply (overlay_var_other environ d d1 env_var f' f E1). tauto.
Qed.

(** After the overlay loop, the entry of a field whose variable is set in
    the environment is the coercion of the value of that variable. *)
Lemma overlay_sets environ items :
  NoDup (map snd items) ->
  forall d d' env_var f value,
    fold_result (overlay_var environ) items d = Return d' ->
    In (env_var, f) items -> environ !! env_var = Some value ->
    exists v, _parse_value f value = Return v /\ d' !! f = Some v.
Proof.
  induction items as [|[env_var0 f0] items IH]; intros Hnd d d' env_var f value;
    cbn [fold_result].
  - intros _ [].
  - apply NoDup_cons in Hnd as [Hnotin Hnd].
    destruct (overlay_var environ d (env_var0, f0)) as [d1|] eqn:E1; [|discriminate].
    cbn [bind]. intros Hfold [Heq | Hin] Henv.
    + injection Heq as -> ->.
      unfold overlay_var in E1. rewrite Henv in E1.
      destruct (_parse_value f value) as [v|]; [|discriminate].
      cbn [bind] in E1. injection E1 as <-.
      exists v. split; [reflexivity|].
      rewrite (overlay_other environ items _ d' f Hfold).
      * apply lookup_insert_eq.
      * rewrite <- list_elem_of_In. exact Hnotin.
    + exact (IH Hnd d1 d' env_var f value Hfold Hin Henv).
Qed.

(** The instance built from the keyword arguments holds, for every key of
    the dict, the value of that key. *)
Lemma kw_str_lookup d f dflt s v :
  kw_str d f dflt = Return s -> d !! f = Some v -> v = VStr s.
Proof. unfold kw_str. intros H E. rewrite E in H. destruct v; congruence. Qed.

Lemma kw_int_lookup d f dflt z v :
  kw_int d f dflt = Return z -> d !! f = Some v -> v = VInt z.
Proof. unfold kw_int. intros H E. rewrite E in H. destruct v; congruence. Qed.

Lemma kw_bool_lookup d f dflt b v :
  kw_bool d f dflt = Return b -> d !! f = Some v -> v = VBool b.
Proof. unfold kw_bool. intros H E. rewrite E in H. destruct v; congruence. Qed.

Lemma kw_list_lookup d f dflt l v :
  kw_list d f dflt = Return l -> d !! f = Some v -> v = VList l.
Proof. unfold kw_list. intros H E. rewrite E in H. destruct v; congruence. Qed.

Lemma kw_opt_str_lookup d f dflt o v :
  kw_opt_str d f dflt = Return o -> d !! f = Some v ->
  v = match o with Some s => VStr s | None => VNone end.
Proof.
  unfold kw_opt_str. intros H E. rewrite E in H.
  destruct v; try discriminate; injection H as <-; reflexivity.
Qed.

Lemma from_kwargs_getattr d c f v :
  from_kwargs d = Return c -> d !! f = Some v -> getattr c f = v.
Proof.
  unfold from_kwargs.
  repeat (match goal with
          | |- (bind ?m _ = _) -> _ =>
              let E := fresh "E" in destruct m as [?|?] eqn:E; [cbn [bind]|discriminate]
          end).
  intros H. apply construct_returns in H as [-> _]. intros Hf.
  destruct f; cbn [getattr disk hostname timezone pool_root pool_boot arc_max_mb
                    encrypt ci_datasources force new_user new_user_sudo ssh_import_ids
                    ssh_authorized_keys ssh_authorized_keys_urls permit_root_login
                    password_auth]; symmetry;
    first [ eapply kw_str_lookup; eassumption
          | eapply kw_int_lookup; eassumption
          | eapply kw_bool_lookup; eassumption
          | eapply kw_list_lookup; eassumption
          | eapply kw_opt_str_lookup; eassumption ].
Qed.

(** C7: whenever [from_env_file] returns, a field whose environment
    variable is set holds the coercion of the value of that variable,
    whatever the file says of it; with the file line HOSTNAME=fromfile and
    the environment variable HOSTNAME=fromenv the hostname is fromenv, and
    it is fromfile when the variable is not set. *)
Theorem environ_overrides_file
    (env_file : option (list pystr)) (environ : gmap pystr pystr) (c : ZFSConfig)
    (env_var : pystr) (field_name : field) (value : pystr) :
  from_env_file env_file environ = Return c ->
  In (env_var, field_name) _get_env_mapping ->
  environ !! env_var = Some value ->
  _parse_value field_name value = Return (getattr c field_name)
  /\ (exists c1,
        from_env_file (Some [lit "HOSTNAME=fromfile"]) {[ lit "HOSTNAME" := lit "fromenv" ]}
          = Return c1 /\ hostname c1 = lit "fromenv")
  /\ (exists c2,
        from_env_file (Some [lit "HOSTNAME=fromfile"]) ∅ = Return c2
        /\ hostname c2 = lit "fromfile").
Proof.
  intros Hload Hin Henv. split; [|split].
  - unfold from_env_file in Hload.
    destruct (match env_file with Some _ => _ | None => _ end) as [d0|]; [|discriminate].
    cbn [bind] in Hload.
    destruct (fold_result (overlay_var environ) _get_env_mapping d0) as [d1|] eqn:Hfold;
      [|discriminate].
    cbn [bind] in Hload.
    destruct (overlay_sets environ _ env_table_fields_NoDup d0 d1 env_var field_name value
                Hfold Hin Henv) as (v & Hv & Hd1).
    rewrite Hv. f_equal. symmetry. exact (from_kwargs_getattr d1 c field_name v Hload Hd1).
  - eexists. split; vm_compute; reflexivity.
  - eexists. split; vm_compute; reflexivity.
Qed.

Lemma environ_overrides_file_witness :
  exists c,
    from_env_file (Some [lit "HOSTNAME=fromfile"; lit "ENCRYPT=no"])
      {[ lit "HOSTNAME" := lit "fromenv" ]} = Return c
    /\ _parse_value Fhostname (lit "fromenv") = Return (getattr c Fhostname).
Proof.
  eexists. split; [vm_compute; reflexivity|].
  eapply (environ_overrides_file
            (Some [lit "HOSTNAME=fromfile"; lit "ENCRYPT=no"])
            {[ lit "HOSTNAME" := lit "fromenv" ]} _ (lit "HOSTNAME") Fhostname (lit "fromenv")).
  - vm_compute. reflexivity.
  - right. left. reflexivity.
  - vm_compute. reflexivity.
Defined.

(** ** Loading: coercion of list fields and inline comments *)

Lemma parse_value_list f value :
  In f list_fields ->
  _parse_value f value
  = if negb (Py.truthy value) then Return (VList [])
    else if Py.startswith (lit "[") value && Py.endswith (lit "]") value then
      Return (VList (clean_items (Py.split "," (Py.slice_1_m1 value))))
    else Return (VList (clean_items (Py.split_ws value))).
Proof. intros [<- | [<- | [<- | [<- | []]]]]; reflexivity. Qed.

Lemma clean_items_pieces l :
  Forall (fun x => x <> [] /\ Py.free_of Py.isspace x = true) l ->
  clean_items l = map Py.strip_quotes l.
Proof.
  unfold clean_items. induction l as [|x l IH]; intros Hall; [reflexivity|].
  apply Forall_cons in Hall as [[Hne Hx] Hall].
  assert (Hs : Py.strip x = x).
  { apply PyFacts.strip_of_id, PyFacts.free_of_edge_free, Hx. }
  cbn [List.filter]. rewrite Hs.
  destruct x as [|c x]; [congruence|]. cbn [Py.truthy map].
  rewrite Hs. f_equal. apply IH. exact Hall.
Qed.

Lemma parse_value_bracketed f inner :
  In f list_fields ->
  _parse_value f ("["%char :: inner ++ lit "]")
  = Return (VList (clean_items (Py.split "," inner))).
Proof.
  intros Hf. rewrite (parse_value_list f _ Hf). cbn [Py.truthy negb].
  rewrite PyFacts.startswith_bracket.
  change ("["%char :: inner ++ lit "]") with (("["%char :: inner) ++ lit "]") at 1.
  rewrite PyFacts.endswith_bracket, PyFacts.slice_bracket. reflexivity.
Qed.

(** C6, as the code has it: for each of the four list fields the empty
    string gives the empty list; a value in brackets is split on commas,
    each piece loses its surrounding whitespace, pieces that are then empty
    are dropped, and the others lose their surrounding quote characters;
    any other value is split on runs of whitespace and each piece loses its
    surrounding quote characters. *)
Theorem list_coercion (f : field) (value inner : pystr) :
  In f list_fields ->
  _parse_value f [] = Return (VList [])
  /\ _parse_value f ("["%char :: inner ++ lit "]")
     = Return (VList (map (fun item => Py.strip_quotes (Py.strip item))
                          (List.filter (fun item => Py.truthy (Py.strip item))
                                       (Py.split "," inner))))
  /\ (value <> [] ->
      Py.startswith (lit "[") value && Py.endswith (lit "]") value = false ->
      _parse_value f value = Return (VList (map Py.strip_quotes (Py.split_ws value))))
  /\ _parse_value Fssh_import_ids (lit "gh:user1 gh:user2")
     = Return (VList [lit "gh:user1"; lit "gh:user2"])
  /\ _parse_value Fci_datasources (lit "[ConfigDrive,NoCloud,Ec2]")
     = Return (VList [lit "ConfigDrive"; lit "NoCloud"; lit "Ec2"]).
Proof.
  intros Hf. split_and!.
  - rewrite (parse_value_list f _ Hf). reflexivity.
  - apply parse_value_bracketed, Hf.
  - intros Hne Hw. rewrite (parse_value_list f _ Hf), Hw.
    destruct value as [|c value]; [congruence|]. cbn [Py.truthy negb].
    rewrite clean_items_pieces by apply PyFacts.split_ws_pieces. reflexivity.
  - reflexivity.
  - reflexivity.
Qed.

Lemma list_coercion_witness :
  _parse_value Fssh_authorized_keys (lit "'a' b")
  = Return (VList [lit "a"; lit "b"]).
Proof.
  destruct (list_coercion Fssh_authorized_keys (lit "'a' b") [])
    as (_ & _ & H & _).
  - right. left. reflexivity.
  - rewrite H; [reflexivity | discriminate | reflexivity].
Defined.

(** C6 as the specification words it fails on a list in brackets with an
    empty piece or with a space after a comma. *)
Lemma list_coercion_counterexample :
  _parse_value Fci_datasources (lit "[a,,b]") = Return (VList [lit "a"; lit "b"])
  /\ specified_list_coercion (lit "[a,,b]") = [lit "a"; lit ""; lit "b"]
  /\ _parse_value Fci_datasources (lit "[a, b]") = Return (VList [lit "a"; lit "b"])
  /\ specified_list_coercion (lit "[a, b]") = [lit "a"; lit " b"]
  /\ ~ (forall value,
          _parse_value Fci_datasources value
          = Return (VList (specified_list_coercion value))).
Proof.
  split_and!; try reflexivity.
  intros H. specialize (H (lit "[a,,b]")). discriminate H.
Qed.

Lemma strip_line_startswith line key raw :
  Py.strip line = key ++ "="%char :: raw ->
  Py.truthy (Py.strip line) = true /\ Py.contains "=" (Py.strip line) = true.
Proof.
  intros ->. split.
  - destruct key; reflexivity.
  - apply PyFacts.contains_In, in_or_app. right. left. reflexivity.
Qed.

(** C4, as the code has it: the value is what follows the first [=] of
    the line, without its surrounding whitespace and then without all the
    quote characters at its two ends; when a [#] is left in it, whether it
    stood inside quotes or not, the value is cut before the first [#] and
    trimmed the same way again. *)
Theorem inline_comment_cut (line key raw : pystr) :
  Py.strip line = key ++ "="%char :: raw ->
  ~ In "="%char key ->
  Py.startswith (lit "#") (Py.strip line) = false ->
  let value := Py.strip_quotes (Py.strip raw) in
  (~ In "#"%char value -> key_value_of_line line = Some (Py.strip key, value))
  /\ (forall pre post, value = pre ++ "#"%char :: post -> ~ In "#"%char pre ->
        key_value_of_line line = Some (Py.strip key, Py.strip_quotes (Py.strip pre)))
  /\ (exists c,
        from_env_file (Some [lit "DISK=/dev/sda  # comment"]) ∅ = Return c
        /\ disk c = lit "/dev/sda").
Proof.
  intros Hline Hkey Hhash value.
  destruct (strip_line_startswith line key raw Hline) as [Ht Hc].
  assert (Hkv : key_value_of_line line
                = Some (Py.strip key,
                        if Py.contains "#" value
                        then Py.strip_quotes (Py.strip (hd [] (Py.split "#" value)))
                        else value)).
  { unfold key_value_of_line. cbv zeta. rewrite Ht, Hhash, Hc. cbn [negb orb].
    rewrite Hline, (PyFacts.split_max_1 "=" key raw Hkey). reflexivity. }
  split_and!.
  - intros Hno. rewrite Hkv. apply PyFacts.contains_not_In in Hno. rewrite Hno.
    reflexivity.
  - intros pre post Hv Hpre. rewrite Hkv.
    assert (Py.contains "#" value = true) as ->.
    { apply PyFacts.contains_In. rewrite Hv. apply in_or_app. right. left. reflexivity. }
    rewrite Hv, (PyFacts.split_app_sep "#" pre post Hpre). reflexivity.
  - eexists. split; vm_compute; reflexivity.
Qed.

Lemma inline_comment_cut_witness :
  key_value_of_line (lit "DISK=/dev/sda  # comment") = Some (lit "DISK", lit "/dev/sda").
Proof.
  destruct (inline_comment_cut (lit "DISK=/dev/sda  # comment") (lit "DISK")
              (lit "/dev/sda  # comment")) as (_ & H & _).
  - reflexivity.
  - vm_compute. intuition discriminate.
  - reflexivity.
  - apply (H (lit "/dev/sda  ") (lit " comment")).
    + reflexivity.
    + vm_compute. intuition discriminate.
Defined.

(** C4 as the specification words it fails on a quoted value that holds a
    [#], which is cut there, and on a value in two layers of quotes, which
    loses both. *)
Lemma quoted_hash_counterexample :
  let quoted := lit "TZ=" ++ Py.quoted (lit "Etc/UTC#1") in
  let nested := lit "TZ=" ++ [Py.dquote; Py.squote] ++ lit "UTC" ++ [Py.squote; Py.dquote] in
  key_value_of_line quoted = Some (lit "TZ", lit "Etc/UTC")
  /\ (exists c, from_env_file (Some [quoted]) ∅ = Return c
               /\ timezone c = lit "Etc/UTC" /\ timezone c <> lit "Etc/UTC#1")
  /\ key_value_of_line nested = Some (lit "TZ", lit "UTC")
  /\ lit "UTC" <> [Py.squote] ++ lit "UTC" ++ [Py.squote].
Proof.
  cbv zeta. split_and!.
  - reflexivity.
  - eexists. split_and!; [vm_compute; reflexivity | reflexivity | discriminate].
  - reflexivity.
  - discriminate.
Qed.

End LoadFacts.

(** ** Serialization and the way back *)

Section RoundTripFacts.
Import Config.

Lemma parse_value_int value :
  _parse_value Farc_max_mb value
  = match Py.int value with
    | Some z => Return (VInt z)
    | None => Raise (IntValueError value)
    end.
Proof. reflexivity. Qed.

Lemma parse_value_new_user value :
  _parse_value Fnew_user value
  = if negb (Py.truthy value) then Return VNone else Return (VStr value).
Proof. reflexivity. Qed.

Lemma join_truthy sep x l : Py.truthy x = true -> Py.truthy (Py.join sep (x :: l)) = true.
Proof.
  destruct x as [|c x]; [discriminate|]. intros _. destruct l; reflexivity.
Qed.

Lemma space_items_pieces l :
  forallb space_item l = true ->
  Forall (fun x => x <> [] /\ Py.free_of Py.isspace x = true) l
  /\ map Py.strip_quotes l = l.
Proof.
  induction l as [|x l IH]; cbn [forallb map]; [split; [constructor | reflexivity]|].
  intros H. apply andb_true_iff in H as [Hx Hl].
  unfold space_item in Hx. apply andb_true_iff in Hx as [Hx Hq].
  apply andb_true_iff in Hx as [Ht Hs].
  destruct (IH Hl) as [IH1 IH2]. split.
  - constructor; [|exact IH1]. split; [|exact Hs].
    intros ->. discriminate Ht.
  - rewrite IH2. unfold Py.strip_quotes. rewrite (PyFacts.strip_of_id _ _ Hq). reflexivity.
Qed.

Lemma space_list_round_trip f l :
  In f [Fssh_import_ids; Fssh_authorized_keys; Fssh_authorized_keys_urls] ->
  space_list l = true ->
  _parse_value f (env_string f (VList l)) = Return (VList l).
Proof.
  intros Hf Hl. unfold space_list in Hl. apply andb_true_iff in Hl as [Hitems Hbr].
  apply negb_true_iff in Hbr. unfold in_brackets in Hbr.
  destruct (space_items_pieces l Hitems) as [Hpieces Hquotes].
  assert (Hstr : env_string f (VList l) = Py.join (lit " ") l).
  { destruct Hf as [<- | [<- | [<- | []]]]; reflexivity. }
  rewrite Hstr, parse_value_list.
  2:{ destruct Hf as [<- | [<- | [<- | []]]]; cbn; tauto. }
  destruct l as [|x l]; [reflexivity|].
  rewrite join_truthy.
  2:{ cbn [forallb] in Hitems. apply andb_true_iff in Hitems as [Hx _].
      unfold space_item in Hx. apply andb_true_iff in Hx as [Hx _].
      apply andb_true_iff in Hx as [Hx _]. exact Hx. }
  cbn [negb]. rewrite Hbr, (PyFacts.split_ws_join _ Hpieces),
    (clean_items_pieces _ Hpieces), Hquotes.
  reflexivity.
Qed.

Lemma comma_items_clean l :
  forallb comma_item l = true ->
  Forall (fun x => ~ In ","%char x) l /\ clean_items l = l.
Proof.
  unfold clean_items.
  induction l as [|x l IH]; cbn [forallb]; [split; [constructor | reflexivity]|].
  intros H. apply andb_true_iff in H as [Hx Hl].
  unfold comma_item in Hx. apply andb_true_iff in Hx as [Hx Hq].
  apply andb_true_iff in Hx as [Hx Hs]. apply andb_true_iff in Hx as [Ht Hc].
  apply negb_true_iff, PyFacts.contains_not_In in Hc.
  destruct (IH Hl) as [IH1 IH2]. split; [constructor; assumption|].
  assert (Hstrip : Py.strip x = x) by (apply PyFacts.strip_of_id, Hs).
  cbn [List.filter]. rewrite Hstrip, Ht. cbn [map].
  rewrite Hstrip, IH2. unfold Py.strip_quotes.
  rewrite (PyFacts.strip_of_id _ _ Hq). reflexivity.
Qed.

Lemma comma_list_round_trip l :
  comma_list l = true ->
  _parse_value Fci_datasources (env_string Fci_datasources (VList l)) = Return (VList l).
Proof.
  intros Hl. destruct (comma_items_clean l Hl) as [Hcommas Hclean].
  change (env_string Fci_datasources (VList l))
    with ("["%char :: Py.join [","%char] l ++ lit "]").
  rewrite parse_value_bracketed by (cbn; tauto).
  destruct l as [|x l]; [reflexivity|].
  rewrite PyFacts.split_join by (discriminate || exact Hcommas).
  rewrite Hclean. reflexivity.
Qed.

(** Coercing the string that [to_env_dict] writes for a field gives back the
    value of the field. *)
Lemma parse_env_string c f :
  roundtrip_safe c = true ->
  _parse_value f (env_string f (getattr c f)) = Return (getattr c f).
Proof.
  unfold roundtrip_safe. intros H.
  apply andb_true_iff in H as [H Hci]. apply andb_true_iff in H as [H Hurls].
  apply andb_true_iff in H as [H Hkeys]. apply andb_true_iff in H as [Huser Hids].
  destruct f; cbn [getattr]; try reflexivity.
  - cbn [env_string]. rewrite parse_value_int, IntFacts.int_str_of_int. reflexivity.
  - destruct (encrypt c); reflexivity.
  - apply comma_list_round_trip, Hci.
  - destruct (force c); reflexivity.
  - destruct (new_user c) as [u|]; [|reflexivity].
    cbn [env_string]. rewrite parse_value_new_user, Huser. reflexivity.
  - destruct (new_user_sudo c); reflexivity.
  - apply space_list_round_trip; [cbn; tauto | exact Hids].
  - apply space_list_round_trip; [cbn; tauto | exact Hkeys].
  - apply space_list_round_trip; [cbn; tauto | exact Hurls].
  - destruct (password_auth c); reflexivity.
Qed.

(** The entries of the dict that [to_env_dict] returns. *)
Lemma env_dict_fold_other c items :
  forall (m0 : gmap pystr pystr) (k : pystr), ~ In k (map fst items) ->
    fold_left (fun env_dict '(env_var, field_name) =>
                 <[env_var := env_string field_name (getattr c field_name)]> env_dict)
              items m0 !! k = m0 !! k.
Proof.
  induction items as [|[k0 f0] items IH]; intros m0 k Hnot; cbn [fold_left]; [reflexivity|].
  cbn [map fst In] in Hnot. rewrite IH by tauto.
  apply lookup_insert_ne. intros ->. tauto.
Qed.

Lemma env_dict_fold_lookup c items :
  NoDup (map fst items) ->
  forall (m0 : gmap pystr pystr) (k : pystr) (f : field), In (k, f) items ->
    fold_left (fun env_dict '(env_var, field_name) =>
                 <[env_var := env_string field_name (getattr c field_name)]> env_dict)
              items m0 !! k = Some (env_string f (getattr c f)).
Proof.
  induction items as [|[k0 f0] items IH]; intros Hnd m0 k f; cbn [fold_left]; [intros []|].
  cbn [map fst] in Hnd. apply NoDup_cons in Hnd as [Hnotin Hnd].
  intros [Heq | Hin].
  - injection Heq as -> ->. rewrite env_dict_fold_other.
    + apply lookup_insert_eq.
    + rewrite <- list_elem_of_In. exact Hnotin.
  - apply (IH Hnd). exact Hin.
Qed.

Lemma to_env_dict_lookup c env_var f :
  In (env_var, f) _get_env_mapping ->
  to_env_dict c !! env_var = Some (env_string f (getattr c f)).
Proof. apply env_dict_fold_lookup, env_table_vars_NoDup. Qed.

(** The overlay loop returns when every coercion does. *)
Lemma overlay_returns environ items :
  (forall k f, In (k, f) items ->
     exists value v, environ !! k = Some value /\ _parse_value f value = Return v) ->
  forall d, exists d', fold_result (overlay_var environ) items d = Return d'.
Proof.
  induction items as [|[k0 f0] items IH]; intros Hall d; cbn [fold_result].
  - eauto.
  - destruct (Hall k0 f0) as (value & v & Hk & Hv); [left; reflexivity|].
    unfold overlay_var at 1. rewrite Hk, Hv. cbn [bind].
    apply IH. intros k f Hin. apply Hall. right. exact Hin.
Qed.

Lemma every_field_in_table f : exists env_var, In (env_var, f) _get_env_mapping.
Proof.
  destruct f; eexists; unfold _get_env_mapping, env_table;
    repeat (first [left; reflexivity | right]).
Qed.

Lemma from_kwargs_of_getattr d c :
  (forall f, d !! f = Some (getattr c f)) -> from_kwargs d = construct c.
Proof.
  intros H. unfold from_kwargs, kw_str, kw_int, kw_bool, kw_list, kw_opt_str.
  rewrite (H Fdisk), (H Fhostname), (H Ftimezone), (H Fpool_root), (H Fpool_boot),
    (H Farc_max_mb), (H Fencrypt), (H Fci_datasources), (H Fforce), (H Fnew_user),
    (H Fnew_user_sudo), (H Fssh_import_ids), (H Fssh_authorized_keys),
    (H Fssh_authorized_keys_urls), (H Fpermit_root_login), (H Fpassword_auth).
  cbn [getattr bind].
  destruct c as [? ? ? ? ? ? ? ? ? [u|] ? ? ? ? ? ?]; reflexivity.
Qed.

(** C1, as the code has it: for a valid configuration whose lists and
    optional user are written without loss, every string of [to_env_dict]
    coerces back to the value of its field, and loading with that dict as
    the environment returns the configuration itself. *)
Theorem env_dict_round_trip (c : ZFSConfig) :
  construct c = Return c ->
  roundtrip_safe c = true ->
  (forall env_var f, In (env_var, f) _get_env_mapping ->
     exists text, to_env_dict c !! env_var = Some text
                  /\ _parse_value f text = Return (getattr c f))
  /\ from_env_file None (to_env_dict c) = Return c.
Proof.
  intros Hvalid Hsafe.
  assert (Hfields : forall env_var f, In (env_var, f) _get_env_mapping ->
            exists text, to_env_dict c !! env_var = Some text
                         /\ _parse_value f text = Return (getattr c f)).
  { intros env_var f Hin. eexists. split; [apply to_env_dict_lookup, Hin|].
    apply parse_env_string, Hsafe. }
  split; [exact Hfields|].
  unfold from_env_file. cbn [bind].
  destruct (overlay_returns (to_env_dict c) _get_env_mapping) with (d := (∅ : gmap field pyvalue))
    as [d' Hd'].
  { intros k f Hin. destruct (Hfields k f Hin) as (text & H1 & H2). eauto. }
  rewrite Hd'. cbn [bind].
  rewrite (from_kwargs_of_getattr d' c); [exact Hvalid|].
  intros f. destruct (every_field_in_table f) as [env_var Hin].
  destruct (Hfields env_var f Hin) as (text & H1 & H2).
  destruct (overlay_sets (to_env_dict c) _ env_table_fields_NoDup ∅ d' env_var f text
              Hd' Hin H1) as (v & Hv & Hlook).
  rewrite Hlook. congruence.
Qed.

Lemma env_dict_round_trip_witness :
  let c := with_ssh_authorized_keys [lit "ssh-ed25519"; lit "AAAAC3Nz"]
             (with_disk (lit "/dev/nvme0n1") defaults) in
  construct c = Return c /\ from_env_file None (to_env_dict c) = Return c.
Proof.
  intros c. split; [vm_compute; reflexivity|].
  apply (env_dict_round_trip c); vm_compute; reflexivity.
Defined.

(** The conditions of [roundtrip_safe] at work: a valid configuration that
    breaks one of them comes back changed. *)
Lemma round_trip_conditions_needed :
  comes_back_changed (with_ssh_authorized_keys [lit ""] defaults)
  /\ comes_back_changed (with_ssh_authorized_keys [lit "'k'"] defaults)
  /\ comes_back_changed (with_ssh_authorized_keys [lit "[k]"] defaults)
  /\ comes_back_changed (with_ci_datasources [lit ""] defaults)
  /\ comes_back_changed (with_ci_datasources [lit "a,b"] defaults)
  /\ comes_back_changed (with_ci_datasources [lit " a"] defaults)
  /\ comes_back_changed (with_ci_datasources [lit "'a'"] defaults)
  /\ comes_back_changed (with_new_user (Some (lit "")) defaults).
Proof.
  unfold comes_back_changed.
  split_and!; try (vm_compute; reflexivity);
    vm_compute; eexists; (split; [reflexivity | discriminate]).
Qed.

(** C1 as the specification words it fails on a valid configuration with an
    authorized key, which holds spaces: written with spaces between the
    elements, the list comes back in three pieces. *)
Lemma round_trip_counterexample :
  let c := with_ssh_authorized_keys [lit "ssh-ed25519 AAAAC3Nz admin@host"] defaults in
  construct c = Return c
  /\ exists c', from_env_file None (to_env_dict c) = Return c'
       /\ ssh_authorized_keys c' = [lit "ssh-ed25519"; lit "AAAAC3Nz"; lit "admin@host"]
       /\ c' <> c.
Proof.
  cbv zeta. split; [vm_compute; reflexivity|].
  eexists. split_and!.
  - vm_compute. reflexivity.
  - reflexivity.
  - intros H. apply (f_equal ssh_authorized_keys) in H. discriminate H.
Qed.

End RoundTripFacts.

(** ** The unit tests of the repository, run on the embedding *)

Section UnitTests.
Import Config.

Example test_default_config : construct defaults = Return defaults.
Proof. vm_compute. reflexivity. Qed.

Example test_env_file_parsing :
  exists c,
    from_env_file
      (Some [lit "# Test configuration"; lit "DISK=/dev/nvme0n1"; lit "HOSTNAME=testhost";
             lit "TZ=America/New_York"; lit "POOL_R=mypool"; lit "ARC_MAX_MB=4096";
             lit "ENCRYPT=yes"; lit "FORCE=1"; lit "NEW_USER=testuser";
             lit "SSH_IMPORT_IDS=" ++ Py.quoted (lit "gh:user1 gh:user2");
             lit "PERMIT_ROOT_LOGIN=yes"; lit "PASSWORD_AUTH=no"]) ∅ = Return c
    /\ disk c = lit "/dev/nvme0n1" /\ hostname c = lit "testhost"
    /\ timezone c = lit "America/New_York" /\ pool_root c = lit "mypool"
    /\ arc_max_mb c = 4096 /\ encrypt c = true /\ force c = true
    /\ new_user c = Some (lit "testuser")
    /\ ssh_import_ids c = [lit "gh:user1"; lit "gh:user2"]
    /\ permit_root_login c = lit "yes" /\ password_auth c = false.
Proof. eexists. split; [vm_compute; reflexivity|]. split_and!; reflexivity. Qed.

Example test_disk_validation :
  Forall (fun d => construct (with_disk d defaults) = Return (with_disk d defaults))
    [lit "/dev/sda"; lit "/dev/nvme0n1"; lit "/dev/vda"]
  /\ Forall (fun d => exists msg, construct (with_disk d defaults) = Raise (ValueError msg))
       [lit "/dev/sda1"; lit "/dev/nvme0n1p1"; lit "/dev/vda2"; lit "not_a_device"].
Proof.
  split; repeat constructor; try (vm_compute; reflexivity);
    eexists; vm_compute; reflexivity.
Qed.

Example test_hostname_validation :
  Forall (fun h => construct (with_hostname h defaults) = Return (with_hostname h defaults))
    [lit "test"; lit "test-host"; lit "host123"; lit "a"]
  /\ Forall (fun h => exists msg, construct (with_hostname h defaults) = Raise (ValueError msg))
       [lit "test host"; lit "test.host"; lit "test_host"; lit ""; repeat "a"%char 64].
Proof.
  split; repeat constructor; try (vm_compute; reflexivity);
    eexists; vm_compute; reflexivity.
Qed.

Example test_list_parsing :
  exists c,
    from_env_file
      (Some [lit "SSH_IMPORT_IDS=gh:user1 gh:user2";
             lit "SSH_AUTHORIZED_KEYS_URLS="
               ++ Py.quoted (lit "https://example.com/keys1.txt https://example.com/keys2.txt");
             lit "CI_DATASOURCES=[ConfigDrive,NoCloud,Ec2]"]) ∅ = Return c
    /\ ssh_import_ids c = [lit "gh:user1"; lit "gh:user2"]
    /\ ssh_authorized_keys_urls c
       = [lit "https://example.com/keys1.txt"; lit "https://example.com/keys2.txt"]
    /\ ci_datasources c = [lit "ConfigDrive"; lit "NoCloud"; lit "Ec2"].
Proof. eexists. split; [vm_compute; reflexivity|]. split_and!; reflexivity. Qed.

Example test_boolean_parsing :
  map (fun text => _parse_value Fencrypt (lit text))
      ["1"; "0"; "true"; "false"; "yes"; "no"; "on"; "off"; "True"; "False"]%string
  = map (fun b => Return (VBool b))
      [true; false; true; false; true; false; true; false; true; false].
Proof. vm_compute. reflexivity. Qed.

Example test_to_env_dict :
  let c := {| disk := lit "/dev/nvme0n1"; hostname := lit "testhost";
              timezone := timezone defaults; pool_root := pool_root defaults;
              pool_boot := pool_boot defaults; arc_max_mb := arc_max_mb defaults;
              encrypt := true; ci_datasources := ci_datasources defaults;
              force := force defaults; new_user := new_user defaults;
              new_user_sudo := new_user_sudo defaults;
              ssh_import_ids := [lit "gh:user1"; lit "gh:user2"];
              ssh_authorized_keys := []; ssh_authorized_keys_urls := [];
              permit_root_login := permit_root_login defaults;
              password_auth := password_auth defaults |} in
  to_env_dict c !! lit "DISK" = Some (lit "/dev/nvme0n1")
  /\ to_env_dict c !! lit "HOSTNAME" = Some (lit "testhost")
  /\ to_env_dict c !! lit "ENCRYPT" = Some (lit "1")
  /\ to_env_dict c !! lit "SSH_IMPORT_IDS" = Some (lit "gh:user1 gh:user2")
  /\ to_env_dict c !! lit "CI_DATASOURCES" = Some (lit "[ConfigDrive,NoCloud,Ec2]")
  /\ to_env_dict c !! lit "NEW_USER" = Some (lit "").
Proof. cbv zeta. split_and!; vm_compute; reflexivity. Qed.

Example test_comments_in_env_file :
  exists c,
    from_env_file
      (Some [lit "# This is a comment"; lit "DISK=/dev/sda  # This is an inline comment";
             lit "HOSTNAME=test"; lit "# Another comment";
             lit "ENCRYPT=yes   # Enable encryption"]) ∅ = Return c
    /\ disk c = lit "/dev/sda" /\ hostname c = lit "test" /\ encrypt c = true.
Proof. eexists. split; [vm_compute; reflexivity|]. split_and!; reflexivity. Qed.

End UnitTests.

(** ** The progress reporter *)

Section ReporterFacts.
Context {F : Type} {ops : FloatOps F}.
Import ProgressReporter.

Implicit Types (self : ProgressReporter.t F) (st : ProgressStep.t F).

Lemma sum_ones_from {A : Type} (l : list A) (k : Z) :
  fold_left Z.add (map (fun _ => 1) l) k = k + Z.of_nat (length l).
Proof.
  revert k; induction l as [|x l IH]; intros k; simpl.
  - lia.
  - rewrite IH. lia.
Qed.

Lemma sum_ones_length {A : Type} (p : A -> bool) (l : list A) :
  sum_ones p l = Z.of_nat (length (List.filter p l)).
Proof. unfold sum_ones. rewrite sum_ones_from. lia. Qed.

Lemma print_steps self text : steps (print self text) = steps self.
Proof. reflexivity. Qed.

Lemma log_steps self level m : steps (log self level m) = steps self.
Proof. reflexivity. Qed.

Lemma log_current_step self level m :
  current_step (log self level m) = current_step self.
Proof. reflexivity. Qed.

(** What a loop of conditional prints leaves alone, and what it keeps. *)
Lemma fold_print_frame {A : Type} (cond : A -> bool) (line : A -> pystr)
    (l : list A) self :
  let self' := fold_left (fun s x => if cond x then print s (line x) else s) l self in
  steps self' = steps self /\ current_step self' = current_step self
  /\ total_steps self' = total_steps self
  /\ (forall x, In x (stdout self) -> In x (stdout self')).
Proof.
  revert self; induction l as [|a l IH]; intros self; simpl.
  - auto.
  - destruct (IH (if cond a then print self (line a) else self)) as (H1 & H2 & H3 & H4).
    rewrite H1, H2, H3.
    destruct (cond a); simpl; repeat split; auto.
    intros x Hx. apply H4. simpl. apply in_or_app. auto.
Qed.

Lemma show_summary_frame self now :
  steps (show_summary self now) = steps self
  /\ current_step (show_summary self now) = current_step self
  /\ total_steps (show_summary self now) = total_steps self.
Proof.
  unfold show_summary. cbv zeta.
  destruct (0 <? _); [|auto].
  match goal with |- context [fold_left ?f ?l ?s] =>
    destruct (fold_print_frame (fun it => ProgressStep.is_error (snd it)) failed_line l s)
      as (H1 & H2 & H3 & _) end.
  cbv beta in H1, H2, H3.
  repeat split.
  - etransitivity; [exact H1 | reflexivity].
  - etransitivity; [exact H2 | reflexivity].
  - etransitivity; [exact H3 | reflexivity].
Qed.

Lemma show_summary_steps self now : steps (show_summary self now) = steps self.
Proof. apply show_summary_frame. Qed.

Lemma show_summary_current_step self now :
  current_step (show_summary self now) = current_step self.
Proof. apply show_summary_frame. Qed.

Lemma show_summary_total_steps self now :
  total_steps (show_summary self now) = total_steps self.
Proof. apply show_summary_frame. Qed.

(** The line that reports the number of failed steps is printed whenever
    that number is positive. *)
Lemma show_summary_failed_line self now :
  0 < failed_steps self ->
  In (lit "Steps failed: " ++ Py.str_of_int (failed_steps self))
     (stdout (show_summary self now)).
Proof.
  intros Hpos. unfold show_summary. cbv zeta.
  apply Z.ltb_lt in Hpos. rewrite Hpos.
  match goal with |- context [fold_left ?f ?l ?s] =>
    destruct (fold_print_frame (fun it => ProgressStep.is_error (snd it)) failed_line l s)
      as (_ & _ & _ & H4) end.
  cbv beta in H4.
  change (stdout (print ?T rule)) with (stdout T ++ [rule]).
  apply in_or_app. left. apply H4.
  change (stdout (print ?T ?x)) with (stdout T ++ [x]).
  apply in_or_app. left.
  change (stdout (print ?T ?x)) with (stdout T ++ [x]).
  apply in_or_app. right. left. reflexivity.
Qed.

Lemma in_range_lookup self i :
  in_range self i = true ->
  exists st, steps self !! Z.to_nat i = Some st /\ (Z.to_nat i < length (steps self))%nat.
Proof.
  unfold in_range, len. intros H. apply andb_true_iff in H as [H1 H2].
  apply Z.leb_le in H1. apply Z.ltb_lt in H2.
  assert (Hlt : (Z.to_nat i < length (steps self))%nat) by lia.
  destruct (lookup_lt_is_Some_2 (steps self) (Z.to_nat i) Hlt) as [st Hst].
  exists st. auto.
Qed.

Lemma fail_step_steps self i msg :
  steps (fail_step self i msg)
  = if in_range self i
    then match steps self !! Z.to_nat i with
         | Some st => <[Z.to_nat i := ProgressStep.set_error st msg]> (steps self)
         | None => steps self
         end
    else steps self.
Proof.
  unfold fail_step. destruct (in_range self i); [|reflexivity].
  destruct (steps self !! Z.to_nat i); reflexivity.
Qed.

Lemma complete_step_steps self i m now :
  steps (complete_step self i m now)
  = if in_range self i
    then match steps self !! Z.to_nat i with
         | Some st => <[Z.to_nat i := ProgressStep.set_completed st now]> (steps self)
         | None => steps self
         end
    else steps self.
Proof.
  unfold complete_step. destruct (in_range self i); [|reflexivity].
  destruct (steps self !! Z.to_nat i) as [st|]; [|reflexivity].
  cbv zeta.
  destruct m as [m|]; [destruct (Py.truthy m)|];
    try reflexivity;
    destruct (ProgressStep.duration _) as [d|]; try reflexivity;
    destruct (f_truthy d); reflexivity.
Qed.

Lemma complete_step_current_step self i m now :
  current_step (complete_step self i m now) = current_step self.
Proof.
  unfold complete_step. destruct (in_range self i); [|reflexivity].
  destruct (steps self !! Z.to_nat i) as [st|]; [|reflexivity].
  cbv zeta.
  destruct m as [m|]; [destruct (Py.truthy m)|];
    try reflexivity;
    destruct (ProgressStep.duration _) as [d|]; try reflexivity;
    destruct (f_truthy d); reflexivity.
Qed.

Lemma complete_step_total_steps self i m now :
  total_steps (complete_step self i m now) = total_steps self.
Proof.
  unfold complete_step. destruct (in_range self i); [|reflexivity].
  destruct (steps self !! Z.to_nat i) as [st|]; [|reflexivity].
  cbv zeta.
  destruct m as [m|]; [destruct (Py.truthy m)|];
    try reflexivity;
    destruct (ProgressStep.duration _) as [d|]; try reflexivity;
    destruct (f_truthy d); reflexivity.
Qed.

Lemma fail_step_current_step self i msg :
  current_step (fail_step self i msg) = current_step self.
Proof.
  unfold fail_step. destruct (in_range self i); [|reflexivity].
  destruct (steps self !! Z.to_nat i); reflexivity.
Qed.

Lemma fail_step_frame self i msg :
  total_steps (fail_step self i msg) = total_steps self
  /\ use_color (fail_step self i msg) = use_color self
  /\ start_time (fail_step self i msg) = start_time self.
Proof.
  unfold fail_step. destruct (in_range self i); [|auto].
  destruct (steps self !! Z.to_nat i); auto.
Qed.

Lemma start_step_steps self n d now :
  steps (fst (start_step self n d now))
  = steps self ++ [ProgressStep.make n d (Some now) None None].
Proof. unfold start_step. cbv zeta. destruct (0 <? _); reflexivity. Qed.

Lemma start_step_current_step self n d now :
  current_step (fst (start_step self n d now)) = Z.of_nat (length (steps self)) + 1.
Proof.
  unfold start_step. cbv zeta.
  destruct (0 <? _); simpl; unfold len; simpl; rewrite length_app; simpl; lia.
Qed.

Lemma step_length self c :
  length (steps (step self c))
  = (length (steps self) + if is_start c then 1 else 0)%nat.
Proof.
  destruct c; cbn [step is_start].
  - rewrite start_step_steps, length_app. simpl. lia.
  - rewrite complete_step_steps. destruct (in_range _ _); [|lia].
    destruct (_ !! _); [rewrite length_insert|]; lia.
  - rewrite fail_step_steps. destruct (in_range _ _); [|lia].
    destruct (_ !! _); [rewrite length_insert|]; lia.
  - rewrite log_steps. lia.
  - rewrite show_summary_steps. lia.
  - lia.
Qed.

Lemma step_counter_follows self c :
  counter_follows self -> counter_follows (step self c).
Proof.
  unfold counter_follows. intros Inv.
  destruct c; cbn [step].
  - rewrite start_step_current_step, start_step_steps, length_app. simpl. lia.
  - rewrite complete_step_current_step, complete_step_steps, Inv.
    destruct (in_range _ _); [|lia].
    destruct (_ !! _); [rewrite length_insert|]; lia.
  - rewrite fail_step_current_step, fail_step_steps, Inv.
    destruct (in_range _ _); [|lia].
    destruct (_ !! _); [rewrite length_insert|]; lia.
  - exact Inv.
  - rewrite show_summary_current_step, show_summary_steps. exact Inv.
  - exact Inv.
Qed.

Lemma run_cons self c calls : run self (c :: calls) = run (step self c) calls.
Proof. reflexivity. Qed.

Lemma run_counter_follows calls self :
  counter_follows self ->
  counter_follows (run self calls)
  /\ length (steps (run self calls))
     = (length (steps self) + length (List.filter is_start calls))%nat.
Proof.
  revert self; induction calls as [|c calls IH]; intros self Inv.
  - split; [exact Inv | simpl; lia].
  - rewrite run_cons.
    destruct (IH (step self c) (step_counter_follows self c Inv)) as [H1 H2].
    split; [exact H1|].
    rewrite H2, step_length. simpl.
    destruct (is_start c); simpl; lia.
Qed.

Lemma step_total_steps self c : total_steps (step self c) = total_steps self.
Proof.
  destruct c; cbn [step].
  - reflexivity.
  - apply complete_step_total_steps.
  - apply fail_step_frame.
  - reflexivity.
  - apply show_summary_total_steps.
  - reflexivity.
Qed.

Lemma run_total_steps calls self : total_steps (run self calls) = total_steps self.
Proof.
  revert self; induction calls as [|c calls IH]; intros self; [reflexivity|].
  rewrite run_cons, IH. apply step_total_steps.
Qed.

Lemma run_never_completed calls self :
  forallb is_start_or_fail calls = true ->
  never_completed self -> never_completed (run self calls).
Proof.
  revert self; induction calls as [|c calls IH]; intros self Hcalls Inv.
  - exact Inv.
  - rewrite run_cons. simpl in Hcalls. apply andb_true_iff in Hcalls as [Hc Hcalls].
    apply IH; [exact Hcalls|].
    unfold never_completed in *.
    destruct c; simpl in Hc; try discriminate; cbn [step].
    + rewrite start_step_steps. apply Forall_app. split; [exact Inv|].
      constructor; [reflexivity | constructor].
    + rewrite fail_step_steps. destruct (in_range _ _); [|exact Inv].
      destruct (steps self !! Z.to_nat step_index) as [st|] eqn:Hst; [|exact Inv].
      apply Forall_insert; [exact Inv|].
      simpl. exact (Forall_lookup_1 _ _ _ _ Inv Hst).
Qed.

Lemma fail_step_lookup self i msg j st :
  in_range self i = true ->
  steps self !! j = Some st ->
  steps (fail_step self i msg) !! j
  = Some (if bool_decide (j = Z.to_nat i) then ProgressStep.set_error st msg else st).
Proof.
  intros Hi Hj. rewrite fail_step_steps, Hi.
  destruct (in_range_lookup self i Hi) as (sti & Hsti & Hlt).
  rewrite Hsti. case_bool_decide as Heq.
  - subst j. rewrite Hsti in Hj. injection Hj as ->.
    apply list_lookup_insert_eq. exact Hlt.
  - rewrite list_lookup_insert_ne by congruence. exact Hj.
Qed.

(** C9: [fail_step] with an index in range sets the error field of that
    step and nothing else: the length of the list, every other step, the
    name, description, start time and completion time of the failed step,
    and the other attributes of the reporter stay as they were.  The number
    of failed steps that [show_summary] computes is the number of steps
    whose error field is set, and it is the number it prints.  After any
    sequence of [start_step] and [fail_step] calls on a new reporter no step
    has a completion time. *)
Theorem fail_step_sets_only_error
    (self : ProgressReporter.t F) (i : Z) (msg : pystr) (now : F)
    (total : Z) (color tty : bool) (now0 : F) (calls : list (call F)) :
  in_range self i = true ->
  forallb is_start_or_fail calls = true ->
  (length (steps (fail_step self i msg)) = length (steps self)
   /\ (forall (j : nat) st, steps self !! j = Some st ->
         exists st', steps (fail_step self i msg) !! j = Some st'
           /\ ProgressStep.name st' = ProgressStep.name st
           /\ ProgressStep.description st' = ProgressStep.description st
           /\ ProgressStep.started st' = ProgressStep.started st
           /\ ProgressStep.completed st' = ProgressStep.completed st
           /\ ProgressStep.error st'
              = if bool_decide (j = Z.to_nat i) then Some msg else ProgressStep.error st)
   /\ total_steps (fail_step self i msg) = total_steps self
   /\ current_step (fail_step self i msg) = current_step self
   /\ use_color (fail_step self i msg) = use_color self
   /\ start_time (fail_step self i msg) = start_time self)
  /\ (failed_steps self
      = Z.of_nat (length (List.filter ProgressStep.is_error (steps self)))
      /\ (0 < failed_steps self ->
          In (lit "Steps failed: "
              ++ Py.str_of_int
                   (Z.of_nat (length (List.filter ProgressStep.is_error (steps self)))))
             (stdout (show_summary self now))))
  /\ Forall (fun st => ProgressStep.completed st = None)
        (steps (run (__init__ total color tty now0) calls)).
Proof.
  intros Hi Hcalls. split; [|split].
  - split; [|split].
    + rewrite fail_step_steps, Hi.
      destruct (in_range_lookup self i Hi) as (sti & -> & _).
      apply length_insert.
    + intros j st Hj. eexists. split; [apply fail_step_lookup; eassumption|].
      case_bool_decide; simpl; auto.
    + destruct (fail_step_frame self i msg) as (H1 & H2 & H3).
      rewrite fail_step_current_step. auto.
  - split; [apply sum_ones_length|].
    intros Hpos. rewrite <- sum_ones_length. apply show_summary_failed_line. exact Hpos.
  - apply (run_never_completed calls); [exact Hcalls|]. constructor.
Qed.

(** C10: in the snapshot of [get_status_json] the entry total_steps is the
    length of the list of steps, which is the number of [start_step] calls
    made so far, and not the expected count given to the constructor, which
    stays in the attribute [total_steps]; the entry current_step is the
    number of [start_step] calls; and after any sequence of calls the
    attribute [current_step] is the length of the list of steps. *)
Theorem status_counts_started_steps
    (total : Z) (color tty : bool) (now0 now : F) (calls : list (call F)) :
  let r := run (__init__ total color tty now0) calls in
  let r1 := run (__init__ 7 color tty now0) [StartStep (lit "prereqs") (lit "") now] in
  status_total_steps (get_status_json r now) = Z.of_nat (length (steps r))
  /\ status_total_steps (get_status_json r now)
     = Z.of_nat (length (List.filter is_start calls))
  /\ status_current_step (get_status_json r now)
     = Z.of_nat (length (List.filter is_start calls))
  /\ current_step r = Z.of_nat (length (steps r))
  /\ total_steps r = total
  /\ (status_total_steps (get_status_json r1 now) = 1 /\ total_steps r1 = 7).
Proof.
  intros r r1.
  assert (Inv0 : counter_follows (__init__ total color tty now0)) by reflexivity.
  destruct (run_counter_follows calls _ Inv0) as [Hinv Hlen].
  fold r in Hinv, Hlen. simpl in Hlen.
  unfold counter_follows in Hinv.
  repeat split.
  - cbn [get_status_json status_total_steps]. unfold len. rewrite Hlen. reflexivity.
  - cbn [get_status_json status_current_step]. rewrite Hinv, Hlen. reflexivity.
  - exact Hinv.
  - apply run_total_steps.
Qed.

End ReporterFacts.

(** The reporter run on a whole-second clock: a step is started, then
    failed. *)
Lemma fail_step_sets_only_error_witness :
  let self := fst (ProgressReporter.start_step
                     (ProgressReporter.__init__ 0 true false 100)
                     (lit "pools") (lit "Creating ZFS pools") 101) in
  ProgressReporter.in_range self 0 = true
  /\ ProgressReporter.failed_steps (ProgressReporter.fail_step self 0 (lit "no disk")) = 1
  /\ Forall (fun st => ProgressStep.completed st = None)
       (ProgressReporter.steps
          (ProgressReporter.run (ProgressReporter.__init__ 0 true false 100)
             [ProgressReporter.StartStep (lit "pools") (lit "Creating ZFS pools") 101;
              ProgressReporter.FailStep 0 (lit "no disk")])).
Proof.
  intros self. split; [reflexivity|]. split; [reflexivity|].
  apply (fail_step_sets_only_error self 0 (lit "no disk") 102 0 true false 100
           [ProgressReporter.StartStep (lit "pools") (lit "Creating ZFS pools") 101;
            ProgressReporter.FailStep 0 (lit "no disk")]);
    reflexivity.
Defined.

(** * Further properties of config_parser.py *)

Section MoreValidatorFacts.
Import Config.

Lemma construct_returns_valid c c' :
  construct c = Return c' -> c' = c /\ valid_instance c.
Proof.
  intros H. apply construct_returns in H as (-> & H1 & H2 & H3 & H4 & H5 & H6 & H7 & H8).
  split; [reflexivity|]. unfold valid_instance. split_and!; try assumption.
  rewrite <- looks_like_partition_shape. congruence.
Qed.

Lemma construct_valid c : construct c = Return c <-> valid_instance c.
Proof.
  split; [intros H; apply (construct_returns_valid c c H)|].
  intros (H1 & H2 & H3 & H4 & H5 & H6 & H7 & H8).
  unfold construct, __post_init__.
  rewrite validate_disk_cases, validate_pools_cases.
  unfold _validate_hostname, _validate_ssh_config.
  rewrite H1. cbn [negb].
  assert (looks_like_partition (disk c) = false) as ->.
  { apply not_true_iff_false. rewrite looks_like_partition_shape. exact H2. }
  cbn [bind].
  apply class_re_shape in H3, H5, H6. unfold hostname_re, pool_re.
  rewrite H3. cbn [negb].
  assert ((63 <? Z.of_nat (length (hostname c))) = false) as -> by (apply Z.ltb_ge; lia).
  cbn [bind]. rewrite H5, H6. cbn [negb].
  assert ((arc_max_mb c <? 64) = false) as -> by (apply Z.ltb_ge; lia).
  cbn [bind].
  rewrite bool_decide_eq_true_2 by (apply list_elem_of_In; exact H8).
  reflexivity.
Qed.

(** X9: construction returns exactly the configurations that meet the
    constraints of the four validators, and returns them unchanged; what
    [from_env_file] returns meets them too. *)
Theorem construct_iff_valid (c : ZFSConfig) :
  (construct c = Return c <-> valid_instance c)
  /\ (forall c', construct c = Return c' -> c' = c)
  /\ (forall env_file environ,
        from_env_file env_file environ = Return c -> valid_instance c).
Proof.
  split_and!.
  - apply construct_valid.
  - intros c' H. apply (construct_returns_valid c c' H).
  - intros env_file environ H. apply from_env_file_constructs in H.
    apply construct_valid, H.
Qed.

Lemma construct_iff_valid_witness :
  valid_instance defaults
  /\ valid_instance (with_disk (lit "/dev/nvme0n1") defaults).
Proof.
  split.
  - apply (proj1 (proj1 (construct_iff_valid defaults))). vm_compute. reflexivity.
  - apply (proj2 (proj2 (construct_iff_valid (with_disk (lit "/dev/nvme0n1") defaults)))
             (Some [lit "DISK=/dev/nvme0n1"]) ∅).
    vm_compute. reflexivity.
Defined.

(** X6: in a valid configuration the ARC size can be replaced by any
    integer from 64 on and by no smaller one, for which construction raises
    the error of the ARC size. *)
Theorem arc_lower_bound (c : ZFSConfig) (z : Z) :
  construct c = Return c ->
  (64 <= z -> construct (with_arc_max_mb z c) = Return (with_arc_max_mb z c))
  /\ (z < 64 ->
      construct (with_arc_max_mb z c)
      = Raise (ValueError (lit "ARC max too small: " ++ Py.str_of_int z ++ lit "MB"))).
Proof.
  intros Hc. apply construct_valid in Hc.
  destruct Hc as (H1 & H2 & H3 & H4 & H5 & H6 & H7 & H8). split.
  - intros Hz. apply construct_valid. unfold valid_instance.
    cbn [with_arc_max_mb disk hostname pool_root pool_boot arc_max_mb permit_root_login].
    split_and!; assumption.
  - intros Hz. unfold construct, __post_init__.
    rewrite validate_disk_cases, validate_pools_cases.
    unfold _validate_hostname.
    cbn [with_arc_max_mb disk hostname pool_root pool_boot arc_max_mb permit_root_login].
    rewrite H1. cbn [negb].
    assert (looks_like_partition (disk c) = false) as ->.
    { apply not_true_iff_false. rewrite looks_like_partition_shape. exact H2. }
    cbn [bind].
    apply class_re_shape in H3, H5, H6. unfold hostname_re, pool_re.
    rewrite H3. cbn [negb].
    assert ((63 <? Z.of_nat (length (hostname c))) = false) as -> by (apply Z.ltb_ge; lia).
    cbn [bind]. rewrite H5, H6. cbn [negb].
    assert ((z <? 64) = true) as -> by (apply Z.ltb_lt; lia).
    reflexivity.
Qed.

Lemma arc_lower_bound_witness :
  construct (with_arc_max_mb 64 defaults) = Return (with_arc_max_mb 64 defaults)
  /\ construct (with_arc_max_mb 63 defaults)
     = Raise (ValueError (lit "ARC max too small: 63MB")).
Proof.
  split.
  - apply (arc_lower_bound defaults 64); [vm_compute; reflexivity | lia].
  - apply (arc_lower_bound defaults 63); [vm_compute; reflexivity | lia].
Defined.

(** X7: in a valid configuration permit_root_login can be replaced by yes,
    no and prohibit-password, spelled in lower case, and by nothing else:
    any other text raises the error of permit_root_login. *)
Theorem permit_root_login_values (c : ZFSConfig) (v : pystr) :
  construct c = Return c ->
  (In v [lit "yes"; lit "no"; lit "prohibit-password"] ->
   construct (with_permit_root_login v c) = Return (with_permit_root_login v c))
  /\ (~ In v [lit "yes"; lit "no"; lit "prohibit-password"] ->
      construct (with_permit_root_login v c)
      = Raise (ValueError (lit "Invalid permit_root_login: " ++ v))).
Proof.
  intros Hc. apply construct_valid in Hc.
  destruct Hc as (H1 & H2 & H3 & H4 & H5 & H6 & H7 & H8). split.
  - intros Hv. apply construct_valid. unfold valid_instance.
    cbn [with_permit_root_login disk hostname pool_root pool_boot arc_max_mb
           permit_root_login].
    split_and!; assumption.
  - intros Hv. unfold construct, __post_init__.
    rewrite validate_disk_cases, validate_pools_cases.
    unfold _validate_hostname, _validate_ssh_config.
    cbn [with_permit_root_login disk hostname pool_root pool_boot arc_max_mb
           permit_root_login].
    rewrite H1. cbn [negb].
    assert (looks_like_partition (disk c) = false) as ->.
    { apply not_true_iff_false. rewrite looks_like_partition_shape. exact H2. }
    cbn [bind].
    apply class_re_shape in H3, H5, H6. unfold hostname_re, pool_re.
    rewrite H3. cbn [negb].
    assert ((63 <? Z.of_nat (length (hostname c))) = false) as -> by (apply Z.ltb_ge; lia).
    cbn [bind]. rewrite H5, H6. cbn [negb].
    assert ((arc_max_mb c <? 64) = false) as -> by (apply Z.ltb_ge; lia).
    cbn [bind].
    rewrite bool_decide_eq_false_2; [reflexivity|].
    rewrite list_elem_of_In. exact Hv.
Qed.

Lemma permit_root_login_values_witness :
  construct (with_permit_root_login (lit "no") defaults)
    = Return (with_permit_root_login (lit "no") defaults)
  /\ construct (with_permit_root_login (lit "Yes") defaults)
     = Raise (ValueError (lit "Invalid permit_root_login: Yes")).
Proof.
  split.
  - apply (permit_root_login_values defaults (lit "no")); [vm_compute; reflexivity|].
    right. left. reflexivity.
  - apply (permit_root_login_values defaults (lit "Yes")); [vm_compute; reflexivity|].
    cbn. intuition discriminate.
Defined.

(** X8: in a valid configuration the name of the root pool can be replaced
    by any non-empty text of letters, digits, hyphens and underscores, of
    any length; a name that does not match the pattern of pool names raises
    the error of pool names, and it is the root pool that is reported when
    both names are wrong. *)
Theorem pool_name_validation (c : ZFSConfig) (p q : pystr) :
  construct c = Return c ->
  (p <> [] -> forallb pool_char p = true ->
   construct (with_pool_root p c) = Return (with_pool_root p c))
  /\ (~ class_word pool_char p ->
      construct (with_pool_root p (with_pool_boot q c))
      = Raise (ValueError (lit "Invalid pool name: " ++ p)))
  /\ (~ class_word pool_char q ->
      construct (with_pool_boot q c)
      = Raise (ValueError (lit "Invalid pool name: " ++ q))).
Proof.
  intros Hc. apply construct_valid in Hc.
  destruct Hc as (H1 & H2 & H3 & H4 & H5 & H6 & H7 & H8).
  assert (Hlp : looks_like_partition (disk c) = false).
  { apply not_true_iff_false. rewrite looks_like_partition_shape. exact H2. }
  assert (Hlen : (63 <? Z.of_nat (length (hostname c))) = false) by (apply Z.ltb_ge; lia).
  pose proof (proj2 (class_re_shape _ _) H3) as Hh.
  split_and!.
  - intros Hne Hall. apply construct_valid. unfold valid_instance.
    cbn [with_pool_root disk hostname pool_root pool_boot arc_max_mb permit_root_login].
    split_and!; try assumption. apply class_word_plain; assumption.
  - intros Hp. apply class_word_dec_match in Hp.
    unfold construct, __post_init__.
    rewrite validate_disk_cases, validate_pools_cases. unfold _validate_hostname.
    cbn [with_pool_root with_pool_boot disk hostname pool_root pool_boot arc_max_mb].
    rewrite H1, Hlp. cbn [negb bind]. unfold hostname_re in Hh. unfold hostname_re.
    rewrite Hh, Hlen. cbn [negb bind]. unfold pool_re. rewrite Hp. reflexivity.
  - intros Hq. apply class_word_dec_match in Hq.
    unfold construct, __post_init__.
    rewrite validate_disk_cases, validate_pools_cases. unfold _validate_hostname.
    cbn [with_pool_boot disk hostname pool_root pool_boot arc_max_mb].
    rewrite H1, Hlp. cbn [negb bind]. unfold hostname_re.
    rewrite Hh, Hlen. cbn [negb bind]. unfold pool_re.
    rewrite (proj2 (class_re_shape _ _) H5), Hq. reflexivity.
Qed.

Lemma pool_name_validation_witness :
  construct (with_pool_root (lit "pool_backup") defaults)
    = Return (with_pool_root (lit "pool_backup") defaults)
  /\ construct (with_pool_root (lit "pool@special") (with_pool_boot (lit "b p") defaults))
     = Raise (ValueError (lit "Invalid pool name: pool@special"))
  /\ construct (with_pool_boot (lit "") defaults)
     = Raise (ValueError (lit "Invalid pool name: ")).
Proof.
  split_and!.
  - apply (pool_name_validation defaults (lit "pool_backup") []);
      [vm_compute; reflexivity | discriminate | reflexivity].
  - apply (pool_name_validation defaults (lit "pool@special") (lit "b p"));
      [vm_compute; reflexivity|].
    apply class_word_dec_match. reflexivity.
  - apply (pool_name_validation defaults [] (lit ""));
      [vm_compute; reflexivity|].
    apply class_word_dec_match. reflexivity.
Defined.

End MoreValidatorFacts.

Section MoreLoadFacts.
Import Config.

Lemma fold_result_app {A S : Type} (body : S -> A -> result S) (l1 l2 : list A) (acc : S) :
  fold_result body (l1 ++ l2) acc
  = (acc' <- fold_result body l1 acc ;; fold_result body l2 acc').
Proof.
  revert acc; induction l1 as [|x l1 IH]; intros acc; cbn [app fold_result bind].
  - reflexivity.
  - destruct (body acc x) as [acc1|e]; cbn [bind]; [apply IH | reflexivity].
Qed.

(** Only the integer field raises, and with the text it was given. *)
Lemma parse_value_raises f value e :
  _parse_value f value = Raise e ->
  f = Farc_max_mb /\ e = IntValueError value /\ Py.int value = None.
Proof.
  destruct f; try (intros H; discriminate H).
  - rewrite parse_value_int. destruct (Py.int value); [discriminate|].
    intros [= <-]. auto.
  - rewrite (parse_value_list Fci_datasources) by (cbn; tauto).
    destruct (negb _); [discriminate|]. destruct (_ && _); discriminate.
  - rewrite parse_value_new_user. destruct (negb _); discriminate.
  - rewrite (parse_value_list Fssh_import_ids) by (cbn; tauto).
    destruct (negb _); [discriminate|]. destruct (_ && _); discriminate.
  - rewrite (parse_value_list Fssh_authorized_keys) by (cbn; tauto).
    destruct (negb _); [discriminate|]. destruct (_ && _); discriminate.
  - rewrite (parse_value_list Fssh_authorized_keys_urls) by (cbn; tauto).
    destruct (negb _); [discriminate|]. destruct (_ && _); discriminate.
Qed.

Lemma load_line_raises d line e :
  load_line d line = Raise e -> exists text, e = IntValueError text.
Proof.
  unfold load_line. destruct (key_value_of_line line) as [[key value]|]; [|discriminate].
  destruct (_env_to_field_name key) as [f|]; [|discriminate].
  destruct (_parse_value f value) as [v|e'] eqn:E; [discriminate|].
  cbn [bind]. intros [= <-]. apply parse_value_raises in E as (_ & -> & _). eauto.
Qed.

Lemma load_lines_raises lines :
  forall d e, fold_result load_line lines d = Raise e -> exists text, e = IntValueError text.
Proof.
  induction lines as [|line lines IH]; intros d e; cbn [fold_result]; [discriminate|].
  destruct (load_line d line) as [d1|e1] eqn:E; cbn [bind].
  - apply IH.
  - intros [= <-]. exact (load_line_raises d line e1 E).
Qed.

Lemma overlay_raises environ items :
  forall d e,
    fold_result (overlay_var environ) items d = Raise e -> exists text, e = IntValueError text.
Proof.
  induction items as [|[k f] items IH]; intros d e; cbn [fold_result]; [discriminate|].
  destruct (overlay_var environ d (k, f)) as [d1|e1] eqn:E; cbn [bind].
  - apply IH.
  - intros [= <-]. unfold overlay_var in E.
    destruct (environ !! k) as [value|]; [|discriminate].
    destruct (_parse_value f value) as [v|e'] eqn:E'; [discriminate|].
    cbn [bind] in E. injection E as <-.
    apply parse_value_raises in E' as (_ & -> & _). eauto.
Qed.

Lemma load_lines_bad_int lines line value :
  In line lines ->
  key_value_of_line line = Some (lit "ARC_MAX_MB", value) ->
  Py.int value = None ->
  forall d, exists text, fold_result load_line lines d = Raise (IntValueError text).
Proof.
  intros Hin Hkv Hint. induction lines as [|l lines IH]; [destruct Hin|].
  intros d. cbn [fold_result].
  destruct (load_line d l) as [d1|e1] eqn:E; cbn [bind].
  - destruct Hin as [-> | Hin]; [|apply (IH Hin)].
    unfold load_line in E. rewrite Hkv in E.
    change (_env_to_field_name (lit "ARC_MAX_MB")) with (Some Farc_max_mb) in E.
    cbv beta iota in E. rewrite parse_value_int, Hint in E. discriminate E.
  - destruct (load_line_raises d l e1 E) as [text ->]. eauto.
Qed.

Lemma overlay_bad_int environ value :
  environ !! lit "ARC_MAX_MB" = Some value ->
  Py.int value = None ->
  forall d, exists text,
    fold_result (overlay_var environ) _get_env_mapping d = Raise (IntValueError text).
Proof.
  intros Henv Hint d.
  change _get_env_mapping
    with ([ (lit "DISK", Fdisk); (lit "HOSTNAME", Fhostname); (lit "TZ", Ftimezone);
            (lit "POOL_R", Fpool_root); (lit "POOL_B", Fpool_boot) ]
          ++ (lit "ARC_MAX_MB", Farc_max_mb) :: skipn 6 _get_env_mapping).
  rewrite fold_result_app.
  destruct (fold_result (overlay_var environ) _ d) as [d1|e1] eqn:E; cbn [bind].
  - cbn [fold_result]. unfold overlay_var at 1.
    rewrite Henv, parse_value_int, Hint. cbn [bind]. eauto.
  - destruct (overlay_raises _ _ _ _ E) as [text ->]. eauto.
Qed.

(** X2: a value of ARC_MAX_MB that [int] does not read makes
    [from_env_file] raise the error of [int], in a line of the file
    whatever the environment holds, and in the environment whatever the
    file holds. *)
Theorem bad_integer_is_fatal
    (lines : list pystr) (line value : pystr) (env_file : option (list pystr))
    (environ : gmap pystr pystr) :
  Py.int value = None ->
  (In line lines -> key_value_of_line line = Some (lit "ARC_MAX_MB", value) ->
   exists text, from_env_file (Some lines) environ = Raise (IntValueError text))
  /\ (environ !! lit "ARC_MAX_MB" = Some value ->
      exists text, from_env_file env_file environ = Raise (IntValueError text)).
Proof.
  intros Hint. split.
  - intros Hin Hkv. unfold from_env_file.
    destruct (load_lines_bad_int lines line value Hin Hkv Hint ∅) as [text ->].
    eauto.
  - intros Henv. unfold from_env_file.
    destruct (match env_file with Some _ => _ | None => _ end) as [d|e] eqn:E; cbn [bind].
    + destruct (overlay_bad_int environ value Henv Hint d) as [text ->]. eauto.
    + destruct env_file as [ls|]; [|discriminate].
      destruct (load_lines_raises ls _ _ E) as [text ->]. eauto.
Qed.

Lemma bad_integer_is_fatal_witness :
  (exists text,
     from_env_file (Some [lit "HOSTNAME=h"; lit "ARC_MAX_MB=2G"])
       {[ lit "ARC_MAX_MB" := lit "4096" ]} = Raise (IntValueError text))
  /\ (exists text,
        from_env_file (Some [lit "ARC_MAX_MB=4096"]) {[ lit "ARC_MAX_MB" := lit "2G" ]}
        = Raise (IntValueError text)).
Proof.
  split.
  - apply (bad_integer_is_fatal [lit "HOSTNAME=h"; lit "ARC_MAX_MB=2G"]
             (lit "ARC_MAX_MB=2G") (lit "2G") None); [reflexivity | | reflexivity].
    right. left. reflexivity.
  - apply (bad_integer_is_fatal [] [] (lit "2G") (Some [lit "ARC_MAX_MB=4096"])
             {[ lit "ARC_MAX_MB" := lit "2G" ]}); [reflexivity|].
    vm_compute. reflexivity.
Defined.

(** The key table. *)
Lemma env_table_keys_NoDup : NoDup (_get_env_mapping.*1).
Proof. compute_done. Qed.

Lemma env_to_field_name_In k f :
  _env_to_field_name k = Some f <-> In (k, f) _get_env_mapping.
Proof.
  unfold _env_to_field_name. rewrite <- list_elem_of_In.
  symmetry. apply elem_of_list_to_map. exact env_table_keys_NoDup.
Qed.

Lemma pairs_same_snd {A B : Type} (l : list (A * B)) a a' b :
  NoDup (map snd l) -> In (a, b) l -> In (a', b) l -> a = a'.
Proof.
  induction l as [|[x y] l IH]; cbn [map snd]; intros Hnd H1 H2; [destruct H1|].
  apply NoDup_cons in Hnd as [Hnot Hnd].
  assert (Hin : forall z, In (z, y) l -> In y (map snd l)).
  { intros z Hz. apply in_map_iff. exists (z, y). auto. }
  rewrite list_elem_of_In in Hnot.
  destruct H1 as [E1 | H1], H2 as [E2 | H2].
  - congruence.
  - injection E1 as -> ->. exfalso. eauto.
  - injection E2 as -> ->. exfalso. eauto.
  - exact (IH Hnd H1 H2).
Qed.

(** X11: the dict of [_env_to_field_name] and the pairs of
    [_get_env_mapping] are the same table, so that loading and saving use
    the same names; a name is recognized exactly when it is a key of the
    table, each field has one name and only one, and the names are
    case-sensitive. *)
Theorem key_tables_agree (k k' : pystr) (f : field) :
  env_to_field_name_mapping = _get_env_mapping
  /\ (_env_to_field_name k = Some f <-> In (k, f) _get_env_mapping)
  /\ (_env_to_field_name k = Some f -> _env_to_field_name k' = Some f -> k' = k)
  /\ (exists name, _env_to_field_name name = Some f)
  /\ (_env_to_field_name k = Some f -> k <> Py.lower k).
Proof.
  split_and!.
  - reflexivity.
  - apply env_to_field_name_In.
  - rewrite !env_to_field_name_In. intros H1 H2.
    exact (pairs_same_snd _ _ _ _ env_table_fields_NoDup H2 H1).
  - destruct (every_field_in_table f) as [name H]. exists name.
    apply env_to_field_name_In, H.
  - rewrite env_to_field_name_In. unfold _get_env_mapping, env_table. cbn [In].
    intros H. repeat (destruct H as [H | H]; [injection H as <- _; discriminate|]).
    destruct H.
Qed.

Lemma key_tables_agree_witness :
  lit "hostname" <> lit "HOSTNAME" /\ _env_to_field_name (lit "hostname") = None.
Proof.
  split; [|reflexivity].
  destruct (key_tables_agree (lit "HOSTNAME") (lit "hostname") Fhostname)
    as (_ & _ & _ & _ & H).
  intros E. apply H; [reflexivity|]. rewrite <- E. reflexivity.
Defined.

(** Lines that the loop passes over. *)
Lemma dropwhile_incl p s c : In c (Py.dropwhile p s) -> In c s.
Proof.
  induction s as [|x s IH]; cbn [Py.dropwhile]; [auto|].
  destruct (p x); [right; auto | auto].
Qed.

Lemma strip_of_incl p s c : In c (Py.strip_of p s) -> In c s.
Proof.
  unfold Py.strip_of, Py.rstrip_of, Py.lstrip_of. intros H.
  apply in_rev, dropwhile_incl, in_rev, dropwhile_incl in H. exact H.
Qed.

Lemma load_line_passed_over d line : passed_over line -> load_line d line = Return d.
Proof.
  unfold load_line.
  intros [H | [H | [H | (key & value & Hkv & Hk)]]].
  - unfold key_value_of_line. cbv zeta. rewrite H. reflexivity.
  - unfold key_value_of_line. cbv zeta. rewrite H, orb_true_r. reflexivity.
  - unfold key_value_of_line. cbv zeta.
    destruct (negb _ || _); [reflexivity|].
    assert (Py.contains "=" (Py.strip line) = false) as ->; [|reflexivity].
    apply PyFacts.contains_not_In. intros Hin. apply H. exact (strip_of_incl _ _ _ Hin).
  - rewrite Hkv, Hk. reflexivity.
Qed.

(** X4: a line that is blank, a comment, without [=] or with a key that is
    not in the table changes nothing: the file loads as it does without
    the line, wherever the line stands. *)
Theorem passed_over_line_changes_nothing
    (before after : list pystr) (line : pystr) (environ : gmap pystr pystr) :
  passed_over line ->
  from_env_file (Some (before ++ line :: after)) environ
  = from_env_file (Some (before ++ after)) environ.
Proof.
  intros Hp. unfold from_env_file. rewrite !fold_result_app.
  destruct (fold_result load_line before ∅) as [d|e]; cbn [bind]; [|reflexivity].
  cbn [fold_result]. rewrite (load_line_passed_over d line Hp). reflexivity.
Qed.

Lemma passed_over_line_changes_nothing_witness :
  from_env_file (Some [lit "HOSTNAME=web1"; lit "export DISK=/dev/sdb"; lit "FORCE=1"]) ∅
  = from_env_file (Some [lit "HOSTNAME=web1"; lit "FORCE=1"]) ∅.
Proof.
  apply (passed_over_line_changes_nothing [lit "HOSTNAME=web1"] [lit "FORCE=1"]
           (lit "export DISK=/dev/sdb") ∅).
  right. right. right. exists (lit "export DISK"), (lit "/dev/sdb").
  split; reflexivity.
Defined.

Lemma overlay_nothing_set environ items :
  (forall k f, In (k, f) items -> environ !! k = None) ->
  forall d, fold_result (overlay_var environ) items d = Return d.
Proof.
  induction items as [|[k f] items IH]; intros Hnone d; cbn [fold_result]; [reflexivity|].
  unfold overlay_var at 1. rewrite (Hnone k f) by (left; reflexivity). cbn [bind].
  apply IH. intros k' f' Hin. apply (Hnone k' f'). right. exact Hin.
Qed.

Lemma load_lines_passed_over lines :
  Forall passed_over lines -> forall d, fold_result load_line lines d = Return d.
Proof.
  induction 1 as [|line lines Hp _ IH]; intros d; cbn [fold_result]; [reflexivity|].
  rewrite (load_line_passed_over d line Hp). cbn [bind]. apply IH.
Qed.

(** X3: when the file is missing, or holds only lines that are passed
    over, and no variable of the table is set in the environment,
    [from_env_file] returns the defaults. *)
Theorem defaults_when_nothing_is_set (lines : list pystr) (environ : gmap pystr pystr) :
  (forall k f, In (k, f) _get_env_mapping -> environ !! k = None) ->
  Forall passed_over lines ->
  from_env_file None environ = Return defaults
  /\ from_env_file (Some lines) environ = Return defaults.
Proof.
  intros Hnone Hlines. unfold from_env_file.
  rewrite (load_lines_passed_over lines Hlines). cbn [bind].
  rewrite (overlay_nothing_set environ _ Hnone). cbn [bind].
  split; vm_compute; reflexivity.
Qed.

Lemma defaults_when_nothing_is_set_witness :
  from_env_file (Some [lit ""; lit "# settings"; lit "no equals sign"; lit "COLOR=red"])
    {[ lit "PATH" := lit "/usr/bin" ]} = Return defaults.
Proof.
  apply (defaults_when_nothing_is_set
           [lit ""; lit "# settings"; lit "no equals sign"; lit "COLOR=red"]
           {[ lit "PATH" := lit "/usr/bin" ]}).
  - intros k f Hin. unfold _get_env_mapping, env_table in Hin. cbn [In] in Hin.
    repeat (destruct Hin as [Hin | Hin]; [injection Hin as <- _; reflexivity|]).
    destruct Hin.
  - apply Forall_cons. split; [left; reflexivity|].
    apply Forall_cons. split; [right; left; reflexivity|].
    apply Forall_cons. split; [right; right; left; vm_compute; intuition discriminate|].
    apply Forall_cons. split; [|apply Forall_nil_2].
    right. right. right. exists (lit "COLOR"), (lit "red"). split; reflexivity.
Defined.

Lemma load_line_other d d' line f :
  ~ assigns line f -> load_line d line = Return d' -> d' !! f = d !! f.
Proof.
  unfold load_line, assigns. intros Hno.
  destruct (key_value_of_line line) as [[key value]|]; [|intros [= <-]; reflexivity].
  destruct (_env_to_field_name key) as [f'|] eqn:Hk; [|intros [= <-]; reflexivity].
  destruct (_parse_value f' value) as [v|]; [|discriminate].
  cbn [bind]. intros [= <-]. apply lookup_insert_ne. intros ->. apply Hno. eauto.
Qed.

Lemma load_lines_other lines f :
  Forall (fun line => ~ assigns line f) lines ->
  forall d d', fold_result load_line lines d = Return d' -> d' !! f = d !! f.
Proof.
  induction 1 as [|line lines Hno _ IH]; intros d d'; cbn [fold_result].
  - intros [= <-]. reflexivity.
  - destruct (load_line d line) as [d1|] eqn:E; [|discriminate]. cbn [bind].
    intros H. rewrite (IH d1 d' H). exact (load_line_other d d1 line f Hno E).
Qed.

Lemma overlay_keeps environ items f :
  (forall k, In (k, f) items -> environ !! k = None) ->
  forall d d', fold_result (overlay_var environ) items d = Return d' -> d' !! f = d !! f.
Proof.
  induction items as [|[k0 f0] items IH]; intros Hnone d d'; cbn [fold_result].
  - intros [= <-]. reflexivity.
  - destruct (overlay_var environ d (k0, f0)) as [d1|] eqn:E; [|discriminate]. cbn [bind].
    intros H. rewrite (IH (fun k Hin => Hnone k (or_intror Hin)) d1 d' H).
    destruct (decide (f0 = f)) as [-> | Hne].
    + unfold overlay_var in E. rewrite (Hnone k0) in E by (left; reflexivity).
      injection E as <-. reflexivity.
    + exact (overlay_var_other environ d d1 k0 f0 f E Hne).
Qed.

(** X5: within the file the last line that gives a value to a field wins:
    when the variable of the field is not set in the environment, the
    field of the configuration that [from_env_file] returns is the coercion
    of the value of that line. *)
Theorem last_line_of_a_field_wins
    (before after : list pystr) (line key value : pystr) (f : field)
    (environ : gmap pystr pystr) (c : ZFSConfig) :
  key_value_of_line line = Some (key, value) ->
  _env_to_field_name key = Some f ->
  Forall (fun later => ~ assigns later f) after ->
  environ !! key = None ->
  from_env_file (Some (before ++ line :: after)) environ = Return c ->
  _parse_value f value = Return (getattr c f).
Proof.
  intros Hkv Hk Hafter Henv. unfold from_env_file. rewrite fold_result_app.
  destruct (fold_result load_line before ∅) as [d1|]; [|discriminate].
  cbn [bind fold_result]. unfold load_line at 1. rewrite Hkv, Hk.
  destruct (_parse_value f value) as [v|]; [|discriminate]. cbn [bind].
  destruct (fold_result load_line after _) as [d3|] eqn:E3; [|discriminate]. cbn [bind].
  destruct (fold_result (overlay_var environ) _ d3) as [d4|] eqn:E4; [|discriminate].
  cbn [bind]. intros Hc. f_equal. symmetry.
  apply (from_kwargs_getattr d4 c f v Hc).
  assert (Hunset : forall k, In (k, f) _get_env_mapping -> environ !! k = None).
  { intros k Hin. apply env_to_field_name_In in Hk.
    rewrite (pairs_same_snd _ _ _ _ env_table_fields_NoDup Hin Hk). exact Henv. }
  rewrite (overlay_keeps environ _get_env_mapping f Hunset d3 d4 E4).
  rewrite (load_lines_other after f Hafter _ d3 E3). apply lookup_insert_eq.
Qed.

Lemma last_line_of_a_field_wins_witness :
  exists c,
    from_env_file (Some [lit "HOSTNAME=first"; lit "HOSTNAME=second"; lit "TZ=UTC"]) ∅
      = Return c
    /\ _parse_value Fhostname (lit "second") = Return (getattr c Fhostname).
Proof.
  eexists. split; [vm_compute; reflexivity|].
  apply (last_line_of_a_field_wins [lit "HOSTNAME=first"] [lit "TZ=UTC"]
           (lit "HOSTNAME=second") (lit "HOSTNAME") (lit "second") Fhostname ∅).
  - reflexivity.
  - reflexivity.
  - apply Forall_cons. split; [|apply Forall_nil_2].
    intros (k & v & Hkv & Hk). vm_compute in Hkv. injection Hkv as <- <-.
    vm_compute in Hk. discriminate Hk.
  - reflexivity.
  - vm_compute. reflexivity.
Defined.

(** X10: the dict of [to_env_dict] has an entry for each of the sixteen
    names of the table and for nothing else; the entry of a boolean field
    is 1 or 0, and the entry of an absent user is the empty string. *)
Theorem env_dict_entries (c : ZFSConfig) (k : pystr) (f : field) :
  (is_Some (to_env_dict c !! k) <-> In k (map fst _get_env_mapping))
  /\ (In (k, f) _get_env_mapping -> In f bool_fields ->
      to_env_dict c !! k = Some (lit "1") \/ to_env_dict c !! k = Some (lit "0"))
  /\ (new_user c = None -> to_env_dict c !! lit "NEW_USER" = Some (lit "")).
Proof.
  split_and!.
  - split.
    + intros Hsome. destruct (decide (k ∈ map fst _get_env_mapping)) as [Hin | Hnot];
        [apply list_elem_of_In; exact Hin|].
      rewrite list_elem_of_In in Hnot.
      unfold to_env_dict in Hsome. rewrite env_dict_fold_other in Hsome by exact Hnot.
      rewrite lookup_empty in Hsome. destruct Hsome as [? Hsome]. discriminate Hsome.
    + intros Hin. apply in_map_iff in Hin as ([k0 f0] & <- & Hin). cbn [fst].
      rewrite (to_env_dict_lookup c k0 f0 Hin). eauto.
  - intros Hin Hb. rewrite (to_env_dict_lookup c k f Hin).
    destruct Hb as [<- | [<- | [<- | [<- | []]]]]; cbn [getattr env_string];
      match goal with |- context [if ?b then _ else _] => destruct b end; auto.
  - intros Hnone. rewrite (to_env_dict_lookup c (lit "NEW_USER") Fnew_user).
    + cbn [getattr]. rewrite Hnone. reflexivity.
    + unfold _get_env_mapping, env_table. cbn [In]. tauto.
Qed.

Lemma env_dict_entries_witness :
  to_env_dict defaults !! lit "FORCE" = Some (lit "0")
  /\ to_env_dict defaults !! lit "NEW_USER" = Some (lit "")
  /\ to_env_dict defaults !! lit "force" = None.
Proof.
  destruct (env_dict_entries defaults (lit "FORCE") Fforce) as (_ & H2 & H3).
  destruct (env_dict_entries defaults (lit "force") Fforce) as (H1 & _ & _).
  split_and!.
  - destruct H2 as [H | H].
    + unfold _get_env_mapping, env_table. cbn [In]. tauto.
    + cbn. tauto.
    + vm_compute in H. discriminate H.
    + exact H.
  - apply H3. reflexivity.
  - destruct (to_env_dict defaults !! lit "force") eqn:E; [|reflexivity].
    exfalso. assert (Hs : In (lit "force") (map fst _get_env_mapping)) by (apply H1; eauto).
    vm_compute in Hs. intuition discriminate.
Defined.

Lemma lower_char_idempotent c : Py.lower_char (Py.lower_char c) = Py.lower_char c.
Proof. destruct c as [[] [] [] [] [] [] [] []]; reflexivity. Qed.

Lemma lower_idempotent s : Py.lower (Py.lower s) = Py.lower s.
Proof.
  unfold Py.lower. rewrite map_map. apply map_ext. intros c. apply lower_char_idempotent.
Qed.

(** X1: for the four boolean fields coercion never raises; it gives true
    when the value, in lower case, is 1, true, yes or on, and false for any
    other text; the letter case of the value does not matter. *)
Theorem boolean_coercion (f : field) (value other : pystr) :
  In f bool_fields ->
  (_parse_value f value = Return (VBool true) <-> In (Py.lower value) true_words)
  /\ (_parse_value f value = Return (VBool false) <-> ~ In (Py.lower value) true_words)
  /\ _parse_value f (Py.lower value) = _parse_value f value
  /\ (Py.lower other = Py.lower value -> _parse_value f other = _parse_value f value).
Proof.
  intros Hf.
  assert (Hp : forall v, _parse_value f v
                         = Return (VBool (bool_decide (Py.lower v ∈ true_words)))).
  { intros v. destruct Hf as [<- | [<- | [<- | [<- | []]]]]; reflexivity. }
  rewrite !Hp, lower_idempotent. split_and!.
  - rewrite <- list_elem_of_In. split.
    + intros [= E]. apply bool_decide_eq_true in E. exact E.
    + intros E. rewrite bool_decide_eq_true_2 by exact E. reflexivity.
  - rewrite <- list_elem_of_In. split.
    + intros [= E]. apply bool_decide_eq_false in E. exact E.
    + intros E. rewrite bool_decide_eq_false_2 by exact E. reflexivity.
  - reflexivity.
  - intros ->. reflexivity.
Qed.

Lemma boolean_coercion_witness :
  _parse_value Fencrypt (lit "YES") = Return (VBool true)
  /\ _parse_value Fencrypt (lit "enabled") = Return (VBool false).
Proof.
  destruct (boolean_coercion Fencrypt (lit "YES") []) as (H1 & _).
  { left. reflexivity. }
  destruct (boolean_coercion Fencrypt (lit "enabled") []) as (_ & H2 & _).
  { left. reflexivity. }
  split.
  - apply H1. right. right. left. reflexivity.
  - apply H2. vm_compute. intuition discriminate.
Defined.

End MoreLoadFacts.

Section SummaryFacts.
Import Config.

Lemma contains_text_refl x : contains_text x x.
Proof. exists [], []. rewrite app_nil_r. reflexivity. Qed.

Lemma contains_text_app x pre post w :
  contains_text x w -> contains_text x (pre ++ w ++ post).
Proof.
  intros (a & b & ->). exists (pre ++ a), (b ++ post).
  rewrite <- !app_assoc. reflexivity.
Qed.

Lemma contains_text_after x pre w : contains_text x w -> contains_text x (pre ++ w).
Proof.
  intros H. rewrite <- (app_nil_r w). apply contains_text_app. exact H.
Qed.

Lemma join_contains sep x l : In x l -> contains_text x (Py.join sep l).
Proof.
  induction l as [|y l IH]; [intros []|].
  intros [-> | Hin].
  - destruct l as [|z l]; [apply contains_text_refl|].
    change (Py.join sep (x :: z :: l)) with ([] ++ x ++ (sep ++ Py.join sep (z :: l))).
    apply contains_text_app, contains_text_refl.
  - destruct l as [|z l]; [destruct Hin|].
    change (Py.join sep (y :: z :: l)) with (y ++ sep ++ Py.join sep (z :: l)).
    apply contains_text_after, contains_text_after, IH, Hin.
Qed.

Lemma summary_line_contains c line x :
  In line (display_summary_lines c) -> contains_text x line ->
  contains_text x (display_summary c).
Proof.
  intros Hin (a & b & ->). unfold display_summary.
  destruct (join_contains [Re.newline] _ _ Hin) as (p & q & ->).
  exists (p ++ a), (b ++ q). rewrite <- !app_assoc. reflexivity.
Qed.

Lemma summary_lines_shape c :
  display_summary_lines c
  = [ lit "=== ZFS Installation Configuration ===";
      lit "Target Disk: " ++ disk c;
      lit "Hostname: " ++ hostname c;
      lit "Timezone: " ++ timezone c;
      lit "Root Pool: " ++ pool_root c;
      lit "Boot Pool: " ++ pool_boot c;
      lit "ARC Max: " ++ Py.str_of_int (arc_max_mb c) ++ lit "MB";
      lit "Encryption: " ++ (if encrypt c then lit "Enabled" else lit "Disabled");
      lit "Force Mode: " ++ (if force c then lit "Yes" else lit "No") ]
    ++ (if truthy_opt (new_user c)
        then [ lit "New User: "
                 ++ match new_user c with Some u => u | None => lit "None" end;
               lit "User Sudo: " ++ (if new_user_sudo c then lit "Yes" else lit "No") ]
        else [])
    ++ (if truthy_list (ssh_import_ids c)
        then [ lit "SSH Import IDs: " ++ Py.join (lit ", ") (ssh_import_ids c) ]
        else [])
    ++ [ lit "Root Login: " ++ permit_root_login c;
         lit "Password Auth: " ++ (if password_auth c then lit "Yes" else lit "No") ].
Proof.
  unfold display_summary_lines. cbv zeta.
  destruct (truthy_opt (new_user c)), (truthy_list (ssh_import_ids c)); reflexivity.
Qed.

(** X12: the summary shows the disk, the hostname, the time zone, both
    pool names and the value of permit_root_login of every configuration,
    and also the user when it is present and not empty and every SSH
    import id. *)
Theorem summary_shows_the_fields (c : ZFSConfig) (user id : pystr) :
  contains_text (disk c) (display_summary c)
  /\ contains_text (hostname c) (display_summary c)
  /\ contains_text (timezone c) (display_summary c)
  /\ contains_text (pool_root c) (display_summary c)
  /\ contains_text (pool_boot c) (display_summary c)
  /\ contains_text (permit_root_login c) (display_summary c)
  /\ (new_user c = Some user -> user <> [] -> contains_text user (display_summary c))
  /\ (In id (ssh_import_ids c) -> contains_text id (display_summary c)).
Proof.
  assert (Hline : forall label x,
            In (label ++ x) (display_summary_lines c) ->
            contains_text x (display_summary c)).
  { intros label x Hin. apply (summary_line_contains c _ x Hin).
    apply contains_text_after, contains_text_refl. }
  pose proof (summary_lines_shape c) as Hs.
  split_and!.
  - apply (Hline (lit "Target Disk: ")). rewrite Hs. cbn [app In]. tauto.
  - apply (Hline (lit "Hostname: ")). rewrite Hs. cbn [app In]. tauto.
  - apply (Hline (lit "Timezone: ")). rewrite Hs. cbn [app In]. tauto.
  - apply (Hline (lit "Root Pool: ")). rewrite Hs. cbn [app In]. tauto.
  - apply (Hline (lit "Boot Pool: ")). rewrite Hs. cbn [app In]. tauto.
  - apply (Hline (lit "Root Login: ")). rewrite Hs.
    apply in_or_app. right. apply in_or_app. right. apply in_or_app. right.
    left. reflexivity.
  - intros Hu Hne. apply (Hline (lit "New User: ")). rewrite Hs, Hu.
    destruct user as [|ch user]; [congruence|]. cbn [truthy_opt Py.truthy].
    apply in_or_app. right. apply in_or_app. left. left. reflexivity.
  - intros Hin.
    apply (summary_line_contains c
             (lit "SSH Import IDs: " ++ Py.join (lit ", ") (ssh_import_ids c))).
    + rewrite Hs. destruct (ssh_import_ids c) as [|i ids] eqn:E; [destruct Hin|].
      cbn [truthy_list].
      apply in_or_app. right. apply in_or_app. right. apply in_or_app. left.
      left. reflexivity.
    + apply contains_text_after, join_contains, Hin.
Qed.

Lemma summary_shows_the_fields_witness :
  let c := with_new_user (Some (lit "testuser")) (with_disk (lit "/dev/nvme0n1") defaults) in
  contains_text (lit "testuser") (display_summary c)
  /\ contains_text (lit "/dev/nvme0n1") (display_summary c).
Proof.
  intros c.
  destruct (summary_shows_the_fields c (lit "testuser") []) as (H1 & _ & _ & _ & _ & _ & H7 & _).
  split; [apply H7; [reflexivity | discriminate] | exact H1].
Defined.

Lemma one_line_app a b : one_line (a ++ b) = one_line a && one_line b.
Proof.
  unfold one_line, Py.contains. rewrite existsb_app, negb_orb. reflexivity.
Qed.

Lemma one_line_join sep l :
  one_line sep = true -> forallb one_line l = true -> one_line (Py.join sep l) = true.
Proof.
  intros Hsep. induction l as [|x l IH]; [reflexivity|].
  cbn [forallb]. intros H. apply andb_true_iff in H as [Hx Hl].
  destruct l as [|y l]; [exact Hx|].
  change (Py.join sep (x :: y :: l)) with (x ++ sep ++ Py.join sep (y :: l)).
  rewrite !one_line_app, Hx, Hsep, (IH Hl). reflexivity.
Qed.

Lemma one_line_digits s : forallb Py.isdigit s = true -> one_line s = true.
Proof.
  induction s as [|ch s IH]; [reflexivity|].
  cbn [forallb]. intros H. apply andb_true_iff in H as [Hc Hs].
  change (ch :: s) with ([ch] ++ s). rewrite one_line_app, (IH Hs), andb_true_r.
  destruct ch as [[] [] [] [] [] [] [] []]; try discriminate Hc; reflexivity.
Qed.

Lemma one_line_str_of_int z : one_line (Py.str_of_int z) = true.
Proof.
  destruct z as [|p|p].
  - reflexivity.
  - change (Py.str_of_int (Z.pos p)) with (Py.digit_text (Pos.to_uint p)).
    apply one_line_digits, IntFacts.digit_text_digits.
  - change (Py.str_of_int (Z.neg p))
      with ([ascii_of_N 45] ++ Py.digit_text (Pos.to_uint p)).
    rewrite one_line_app. apply andb_true_iff. split; [reflexivity|].
    apply one_line_digits, IntFacts.digit_text_digits.
Qed.

Lemma one_line_not_In s : one_line s = true <-> ~ In Re.newline s.
Proof.
  unfold one_line. rewrite negb_true_iff. apply PyFacts.contains_not_In.
Qed.

(** Every entry of the summary is one line when the fields are. *)
Lemma summary_entries_one_line c :
  shown_on_one_line c = true -> forallb one_line (display_summary_lines c) = true.
Proof.
  unfold shown_on_one_line. rewrite !andb_true_iff.
  intros [[[[[[[Hd Hh] Ht] Hr] Hb] Hu] Hi] Hp].
  assert (Huser : forallb one_line
            (if truthy_opt (new_user c)
             then [ lit "New User: "
                      ++ match new_user c with Some u => u | None => lit "None" end;
                    lit "User Sudo: " ++ (if new_user_sudo c then lit "Yes" else lit "No") ]
             else []) = true).
  { destruct (truthy_opt (new_user c)); [|reflexivity].
    cbn [forallb]. rewrite !one_line_app.
    destruct (new_user c) as [u|]; [rewrite Hu|]; destruct (new_user_sudo c); reflexivity. }
  assert (Hids : forallb one_line
            (if truthy_list (ssh_import_ids c)
             then [ lit "SSH Import IDs: " ++ Py.join (lit ", ") (ssh_import_ids c) ]
             else []) = true).
  { destruct (truthy_list (ssh_import_ids c)); [|reflexivity].
    cbn [forallb]. rewrite one_line_app, (one_line_join (lit ", ") _ eq_refl Hi).
    reflexivity. }
  rewrite summary_lines_shape, !forallb_app.
  apply andb_true_iff; split;
    [|apply andb_true_iff; split;
      [exact Huser | apply andb_true_iff; split; [exact Hids|]]].
  - cbn [forallb].
    rewrite !one_line_app, Hd, Hh, Ht, Hr, Hb, one_line_str_of_int.
    destruct (encrypt c), (force c); reflexivity.
  - cbn [forallb]. rewrite !one_line_app, Hp.
    destruct (password_auth c); reflexivity.
Qed.

(** X13: the text of the summary depends on thirteen fields only (the
    authorized keys, their URLs and the data sources are not among them);
    when none of the text fields that are shown holds a newline, the text
    returned has eleven lines, two more for the user when it is present
    and not empty, and one more for the SSH import ids when there are
    some, and without a user no line of the text starts with the label of
    the user, and without import ids none starts with their label. *)
Theorem summary_text_lines (c : ZFSConfig) :
  (forall c', same_shown_fields c' c -> display_summary c' = display_summary c)
  /\ (shown_on_one_line c = true ->
      Py.split Re.newline (display_summary c) = display_summary_lines c
      /\ length (Py.split Re.newline (display_summary c))
         = (11 + (if truthy_opt (new_user c) then 2 else 0)
            + (if truthy_list (ssh_import_ids c) then 1 else 0))%nat
      /\ (truthy_opt (new_user c) = false ->
          Forall (fun line => Py.startswith (lit "New User: ") line = false
                              /\ Py.startswith (lit "User Sudo: ") line = false)
                 (Py.split Re.newline (display_summary c)))
      /\ (ssh_import_ids c = [] ->
          Forall (fun line => Py.startswith (lit "SSH Import IDs: ") line = false)
                 (Py.split Re.newline (display_summary c)))).
Proof.
  split.
  - intros c' (H1 & H2 & H3 & H4 & H5 & H6 & H7 & H8 & H9 & H10 & H11 & H12 & H13).
    unfold display_summary, display_summary_lines. cbv zeta.
    rewrite H1, H2, H3, H4, H5, H6, H7, H8, H9, H10, H11, H12, H13. reflexivity.
  - intros Hone.
    assert (Hsplit : Py.split Re.newline (display_summary c) = display_summary_lines c).
    { unfold display_summary. apply PyFacts.split_join.
      - rewrite summary_lines_shape. discriminate.
      - apply Forall_forall. intros line Hin. apply one_line_not_In.
        pose proof (summary_entries_one_line c Hone) as Hall.
        rewrite forallb_forall in Hall. apply Hall, list_elem_of_In, Hin. }
    rewrite Hsplit, summary_lines_shape. split_and!.
    + reflexivity.
    + destruct (truthy_opt (new_user c)), (truthy_list (ssh_import_ids c)); reflexivity.
    + intros ->. destruct (truthy_list (ssh_import_ids c));
        cbn [app]; repeat (apply Forall_cons; split; [split; reflexivity|]);
        apply Forall_nil_2.
    + intros ->. cbn [truthy_list]. destruct (truthy_opt (new_user c));
        cbn [app]; repeat (apply Forall_cons; split; [reflexivity|]);
        apply Forall_nil_2.
Qed.

Lemma summary_text_lines_witness :
  length (Py.split Re.newline (display_summary (with_new_user (Some (lit "")) defaults)))
  = 11%nat
  /\ Forall (fun line => Py.startswith (lit "New User: ") line = false
                         /\ Py.startswith (lit "User Sudo: ") line = false)
            (Py.split Re.newline
               (display_summary (with_new_user (Some (lit "")) defaults)))
  /\ display_summary (with_ssh_authorized_keys [lit "ssh-ed25519 AAAA"]
                        (with_ci_datasources [] defaults))
     = display_summary defaults.
Proof.
  destruct (summary_text_lines (with_new_user (Some (lit "")) defaults)) as [_ H].
  destruct (H eq_refl) as (_ & H2 & H3 & _).
  split_and!.
  - exact H2.
  - apply H3. reflexivity.
  - apply (proj1 (summary_text_lines defaults)).
    unfold same_shown_fields. split_and!; reflexivity.
Defined.

(** A newline in a field breaks its entry over two lines of the text. *)
Lemma newline_in_a_field_adds_a_line :
  length (Py.split Re.newline
            (display_summary
               {| disk := lit "/dev/sda"; hostname := lit "mail1";
                  timezone := lit "UTC" ++ Re.newline :: lit "New User: root";
                  pool_root := lit "rpool"; pool_boot := lit "bpool";
                  arc_max_mb := 2048; encrypt := false;
                  ci_datasources := []; force := false;
                  new_user := None; new_user_sudo := true;
                  ssh_import_ids := []; ssh_authorized_keys := [];
                  ssh_authorized_keys_urls := [];
                  permit_root_login := lit "prohibit-password";
                  password_auth := false |}))
  = 12%nat.
Proof. vm_compute. reflexivity. Qed.

End SummaryFacts.

Section EnvironmentFacts.
Import Config.

Lemma fold_append_filter {A B : Type} (p : A -> bool) (g : A -> B) (l : list A) :
  forall acc,
    fold_left (fun acc x => if p x then acc ++ [g x] else acc) l acc
    = acc ++ map g (List.filter p l).
Proof.
  induction l as [|x l IH]; intros acc; cbn [fold_left List.filter map].
  - rewrite app_nil_r. reflexivity.
  - rewrite IH. destruct (p x); [|reflexivity].
    cbn [map]. rewrite <- app_assoc. reflexivity.
Qed.

(** The errors in the order of the checks. *)
Lemma environment_errors_shape h :
  environment_errors h
  = (if negb (geteuid h =? 0) then [lit "Must run as root"] else [])
    ++ map (fun cmd => lit "Required command not found: " ++ cmd)
         (List.filter (fun cmd => negb (os_system h (command_line cmd) =? 0))
                      required_commands).
Proof. unfold environment_errors. cbv zeta. apply fold_append_filter. Qed.

Lemma filter_nil_iff {A : Type} (p : A -> bool) (l : list A) :
  List.filter p l = [] <-> Forall (fun x => p x = false) l.
Proof.
  induction l as [|x l IH]; cbn [List.filter].
  - split; [constructor | reflexivity].
  - destruct (p x) eqn:E.
    + split; [discriminate|]. intros H. apply Forall_cons in H as [H _]. congruence.
    + rewrite IH. split; [intros H; apply Forall_cons; auto|].
      intros H. apply Forall_cons in H as [_ H]. exact H.
Qed.

(** X14: [validate_environment] passes exactly when the effective user is
    root and [os.system] reports status 0 for each of the four commands;
    whether /proc/cmdline exists makes no difference to the result. *)
Theorem environment_passes_iff (sg : signs) (h : host) (marker : bool) :
  (fst (validate_environment sg h) = true
   <-> geteuid h = 0
       /\ Forall (fun cmd => os_system h (command_line cmd) = 0) required_commands)
  /\ fst (validate_environment sg
            {| geteuid := geteuid h; proc_cmdline_exists := marker;
               os_system := os_system h |})
     = fst (validate_environment sg h).
Proof.
  assert (Hres : forall h0, fst (validate_environment sg h0)
                            = negb (truthy_list (environment_errors h0))).
  { intros h0. unfold validate_environment. cbv zeta.
    destruct (truthy_list (environment_errors h0)); reflexivity. }
  split.
  - rewrite Hres, environment_errors_shape.
    destruct (geteuid h =? 0) eqn:Heuid; cbn [negb app].
    + apply Z.eqb_eq in Heuid.
      destruct (List.filter _ required_commands) as [|x l] eqn:Hf; cbn [map truthy_list negb].
      * apply filter_nil_iff in Hf. split; [|reflexivity]. intros _. split; [exact Heuid|].
        eapply Forall_impl; [exact Hf|]. cbv beta. intros cmd Hc.
        apply negb_false_iff, Z.eqb_eq in Hc. exact Hc.
      * split; [discriminate|]. intros [_ Hall]. exfalso.
        assert (Hnil : List.filter (fun cmd => negb (os_system h (command_line cmd) =? 0))
                         required_commands = []).
        { apply filter_nil_iff. eapply Forall_impl; [exact Hall|]. cbv beta.
          intros cmd Hc. apply negb_false_iff, Z.eqb_eq. exact Hc. }
        congruence.
    + apply Z.eqb_neq in Heuid. cbn [truthy_list negb].
      split; [discriminate | intros [E _]; contradiction].
  - rewrite !Hres. reflexivity.
Qed.

Lemma environment_passes_iff_witness :
  fst (validate_environment
         {| cross_mark := lit "x"; warning_sign := lit "!"; check_mark := lit "v";
            bullet := lit "*" |}
         {| geteuid := 0; proc_cmdline_exists := false; os_system := fun _ => 0 |})
  = true.
Proof.
  apply (proj1 (environment_passes_iff _ _ true)).
  split; [reflexivity|]. repeat (apply Forall_cons; split; [reflexivity|]).
  apply Forall_nil_2.
Defined.

(** X15: when [validate_environment] fails it prints the heading of the
    failure and one line for each failed check, root first and then the
    missing commands in the order zpool, zfs, debootstrap, sgdisk, and it
    prints no warning; when it passes, it prints the warning about the
    rescue environment if /proc/cmdline is missing, and then the line of
    success. *)
Theorem environment_report (sg : signs) (h : host) (cmd : pystr) :
  (fst (validate_environment sg h) = false ->
   snd (validate_environment sg h)
   = [cross_mark sg ++ lit " Environment validation failed:"]
     ++ map (fun error => lit "  " ++ bullet sg ++ lit " " ++ error)
          ((if negb (geteuid h =? 0) then [lit "Must run as root"] else [])
           ++ map (fun cmd => lit "Required command not found: " ++ cmd)
                (List.filter (fun cmd => negb (os_system h (command_line cmd) =? 0))
                             required_commands)))
  /\ (In cmd required_commands -> os_system h (command_line cmd) <> 0 ->
      fst (validate_environment sg h) = false
      /\ In (lit "  " ++ bullet sg ++ lit " " ++ lit "Required command not found: " ++ cmd)
            (snd (validate_environment sg h)))
  /\ (fst (validate_environment sg h) = true ->
      snd (validate_environment sg h)
      = (if proc_cmdline_exists h then []
         else [warning_sign sg ++ lit "  Environment warnings:";
               lit "  " ++ bullet sg ++ lit " " ++ lit "Cannot verify rescue environment"])
        ++ [check_mark sg ++ lit " Environment validation passed"]).
Proof.
  pose proof (environment_errors_shape h) as Hshape.
  split_and!.
  - unfold validate_environment. cbv zeta. rewrite <- Hshape.
    destruct (truthy_list (environment_errors h)); [reflexivity | discriminate].
  - intros Hin Hst.
    assert (Herr : In (lit "Required command not found: " ++ cmd) (environment_errors h)).
    { rewrite Hshape. apply in_or_app. right.
      apply in_map_iff. exists cmd. split; [reflexivity|].
      apply filter_In. split; [exact Hin|].
      apply negb_true_iff, Z.eqb_neq. exact Hst. }
    unfold validate_environment. cbv zeta.
    destruct (environment_errors h) as [|e es] eqn:E; [destruct Herr|].
    cbn [truthy_list fst snd]. split; [reflexivity|].
    apply in_or_app. right.
    apply (in_map (fun error => lit "  " ++ bullet sg ++ lit " " ++ error)) in Herr.
    exact Herr.
  - unfold validate_environment, environment_warnings. cbv zeta.
    destruct (truthy_list (environment_errors h)); [discriminate|].
    intros _. destruct (proc_cmdline_exists h); reflexivity.
Qed.

Lemma environment_report_witness :
  let sg := {| cross_mark := lit "x"; warning_sign := lit "!"; check_mark := lit "v";
               bullet := lit "*" |} in
  let h := {| geteuid := 1000; proc_cmdline_exists := false;
              os_system := fun line => if bool_decide (line = command_line (lit "zfs"))
                                       then 1 else 0 |} in
  validate_environment sg h
  = (false, [lit "x Environment validation failed:"; lit "  * Must run as root";
             lit "  * Required command not found: zfs"]).
Proof.
  intros sg h.
  destruct (environment_report sg h (lit "zfs")) as (H1 & H2 & _).
  destruct H2 as [Hf _]; [right; left; reflexivity | vm_compute; discriminate|].
  specialize (H1 Hf).
  destruct (validate_environment sg h) as [b out]. cbn [fst snd] in *.
  rewrite Hf, H1. reflexivity.
Defined.

End EnvironmentFacts.

(** * Further properties of progress_reporter.py *)

Section MoreReporterFacts.
Context {F : Type} {ops : FloatOps F}.
Import ProgressReporter.

Implicit Types (self : ProgressReporter.t F) (st : ProgressStep.t F).

Lemma complete_step_lookup self i m now j st :
  in_range self i = true ->
  steps self !! j = Some st ->
  steps (complete_step self i m now) !! j
  = Some (if bool_decide (j = Z.to_nat i) then ProgressStep.set_completed st now else st).
Proof.
  intros Hi Hj. rewrite complete_step_steps, Hi.
  destruct (in_range_lookup self i Hi) as (sti & Hsti & Hlt).
  rewrite Hsti. case_bool_decide as Heq.
  - subst j. rewrite Hsti in Hj. injection Hj as ->.
    apply list_lookup_insert_eq. exact Hlt.
  - rewrite list_lookup_insert_ne by congruence. exact Hj.
Qed.

Lemma filter_insert_same {A : Type} (p : A -> bool) (l : list A) (i : nat) (x y : A) :
  l !! i = Some x -> p y = p x -> length (List.filter p (<[i := y]> l)) = length (List.filter p l).
Proof.
  revert i; induction l as [|a l IH]; intros i Hl Hp; [discriminate|].
  destruct i as [|i].
  - injection Hl as ->. change (<[0%nat := y]> (x :: l)) with (y :: l).
    cbn [List.filter]. rewrite Hp. destruct (p x); reflexivity.
  - change (<[S i := y]> (a :: l)) with (a :: <[i := y]> l).
    change ((a :: l) !! S i) with (l !! i) in Hl.
    cbn [List.filter]. destruct (p a); cbn [length]; rewrite (IH i Hl Hp); reflexivity.
Qed.

Lemma complete_step_stdout self i m now :
  in_range self i = true ->
  exists line, stdout (complete_step self i m now) = stdout self ++ [line].
Proof.
  intros Hi. unfold complete_step. rewrite Hi.
  destruct (in_range_lookup self i Hi) as (sti & -> & _). cbv zeta.
  destruct m as [m|]; [destruct (Py.truthy m)|];
    try (eexists; reflexivity);
    destruct (ProgressStep.duration _) as [d|]; try (eexists; reflexivity);
    destruct (f_truthy d); eexists; reflexivity.
Qed.

(** X16: [complete_step] with an index in range sets the completion time
    of that step to the reading of the clock and changes nothing else in
    the list: every other step, and the name, description, start time and
    error of the step itself, stay as they were, so that completing a step
    never clears its error; the counters of the reporter stay, the number of
    failed steps stays, and one line is printed. *)
Theorem complete_step_sets_only_completion
    (self : ProgressReporter.t F) (i : Z) (m : option pystr) (now : F) :
  in_range self i = true ->
  length (steps (complete_step self i m now)) = length (steps self)
  /\ (forall (j : nat) st, steps self !! j = Some st ->
        exists st', steps (complete_step self i m now) !! j = Some st'
          /\ ProgressStep.name st' = ProgressStep.name st
          /\ ProgressStep.description st' = ProgressStep.description st
          /\ ProgressStep.started st' = ProgressStep.started st
          /\ ProgressStep.error st' = ProgressStep.error st
          /\ ProgressStep.completed st'
             = if bool_decide (j = Z.to_nat i) then Some now else ProgressStep.completed st)
  /\ total_steps (complete_step self i m now) = total_steps self
  /\ current_step (complete_step self i m now) = current_step self
  /\ failed_steps (complete_step self i m now) = failed_steps self
  /\ (exists line, stdout (complete_step self i m now) = stdout self ++ [line]).
Proof.
  intros Hi. destruct (in_range_lookup self i Hi) as (sti & Hsti & Hlt). split_and!.
  - rewrite complete_step_steps, Hi, Hsti. apply length_insert.
  - intros j st Hj. eexists. split; [apply complete_step_lookup; eassumption|].
    case_bool_decide; cbn; auto.
  - apply complete_step_total_steps.
  - apply complete_step_current_step.
  - unfold failed_steps. rewrite !sum_ones_length, complete_step_steps, Hi, Hsti.
    f_equal. apply (filter_insert_same _ _ _ sti); [exact Hsti | reflexivity].
  - apply complete_step_stdout, Hi.
Qed.

(** X17: an index that is negative or not below the number of steps is
    ignored: [complete_step] and [fail_step] leave the reporter as it is and
    print nothing; a negative index does not count from the end. *)
Theorem out_of_range_index_is_ignored
    (self : ProgressReporter.t F) (i : Z) (m : option pystr) (msg : pystr) (now : F) :
  i < 0 \/ Z.of_nat (length (steps self)) <= i ->
  complete_step self i m now = self /\ fail_step self i msg = self.
Proof.
  intros Hi.
  assert (Hr : in_range self i = false).
  { unfold in_range, len. apply andb_false_iff.
    destruct Hi as [Hi | Hi]; [left; apply Z.leb_gt | right; apply Z.ltb_ge]; lia. }
  unfold complete_step, fail_step. rewrite Hr. auto.
Qed.

Lemma insert_last {A : Type} (l : list A) (x y : A) :
  <[length l := y]> (l ++ [x]) = l ++ [y].
Proof.
  induction l as [|a l IH]; [reflexivity|].
  change (<[length (a :: l) := y]> ((a :: l) ++ [x])) with (a :: <[length l := y]> (l ++ [x])).
  rewrite IH. reflexivity.
Qed.

Lemma start_step_index self n d now : snd (start_step self n d now) = len self.
Proof.
  unfold start_step. cbv zeta. cbn [snd]. unfold len. cbn [steps set_steps].
  rewrite length_app. cbn [length]. lia.
Qed.

Lemma start_step_in_range self n d now :
  in_range (fst (start_step self n d now)) (len self) = true.
Proof.
  unfold in_range, len. rewrite start_step_steps, length_app. cbn [length].
  apply andb_true_iff. split; [apply Z.leb_le | apply Z.ltb_lt]; lia.
Qed.

Lemma start_then_complete_steps self n d t0 m t1 :
  steps (complete_step (fst (start_step self n d t0)) (snd (start_step self n d t0)) m t1)
  = steps self
    ++ [ProgressStep.set_completed (ProgressStep.make n d (Some t0) None None) t1].
Proof.
  rewrite start_step_index, complete_step_steps, start_step_in_range, start_step_steps.
  unfold len. rewrite Nat2Z.id.
  rewrite lookup_app_r by lia. rewrite Nat.sub_diag. cbn [lookup list_lookup].
  apply insert_last.
Qed.

Lemma start_then_fail_steps self n d t0 msg :
  steps (fail_step (fst (start_step self n d t0)) (snd (start_step self n d t0)) msg)
  = steps self
    ++ [ProgressStep.set_error (ProgressStep.make n d (Some t0) None None) msg].
Proof.
  rewrite start_step_index, fail_step_steps, start_step_in_range, start_step_steps.
  unfold len. rewrite Nat2Z.id.
  rewrite lookup_app_r by lia. rewrite Nat.sub_diag. cbn [lookup list_lookup].
  apply insert_last.
Qed.

Lemma filter_length_app {A : Type} (p : A -> bool) (l1 l2 : list A) :
  length (List.filter p (l1 ++ l2))
  = (length (List.filter p l1) + length (List.filter p l2))%nat.
Proof. rewrite List.filter_app, length_app. reflexivity. Qed.

(** X18: [start_step] returns the number of steps there were before, which
    is the index of the step it appends: the new step has the given name,
    description and start time, no completion time and no error, and the
    earlier steps are untouched.  The index is good at once for
    [complete_step] and for [fail_step], which then raise the number of
    completed, respectively failed, steps by one. *)
Theorem start_step_issues_the_next_index
    (self : ProgressReporter.t F) (name description : pystr) (now : F) :
  let r := start_step self name description now in
  snd r = Z.of_nat (length (steps self))
  /\ steps (fst r) = steps self ++ [ProgressStep.make name description (Some now) None None]
  /\ in_range (fst r) (snd r) = true
  /\ (forall m now', completed_steps (complete_step (fst r) (snd r) m now')
                      = completed_steps self + 1)
  /\ (forall msg, failed_steps (fail_step (fst r) (snd r) msg) = failed_steps self + 1).
Proof.
  cbv zeta. split_and!.
  - apply start_step_index.
  - apply start_step_steps.
  - rewrite start_step_index. apply start_step_in_range.
  - intros m now'. unfold completed_steps.
    rewrite !sum_ones_length, start_then_complete_steps, filter_length_app.
    cbn. lia.
  - intros msg. unfold failed_steps.
    rewrite !sum_ones_length, start_then_fail_steps, filter_length_app.
    cbn. lia.
Qed.

(** X19: a step that is started and then completed has the duration
    completion time minus start time when both stamps are non-zero, and no
    duration otherwise, since a stamp of zero counts as not set. *)
Theorem duration_of_a_completed_step
    (self : ProgressReporter.t F) (name description : pystr) (t0 t1 : F)
    (m : option pystr) :
  let r := start_step self name description t0 in
  exists st,
    steps (complete_step (fst r) (snd r) m t1) !! length (steps self) = Some st
    /\ ProgressStep.started st = Some t0
    /\ ProgressStep.completed st = Some t1
    /\ ProgressStep.duration st
       = if f_truthy t0 && f_truthy t1 then Some (f_sub t1 t0) else None.
Proof.
  cbv zeta. eexists. split_and!.
  - rewrite start_then_complete_steps, lookup_app_r by lia.
    rewrite Nat.sub_diag. reflexivity.
  - reflexivity.
  - reflexivity.
  - reflexivity.
Qed.

Lemma filter_length_le {A : Type} (p : A -> bool) (l : list A) :
  (length (List.filter p l) <= length l)%nat.
Proof.
  induction l as [|a l IH]; cbn [List.filter length]; [lia|].
  destruct (p a); cbn [length]; lia.
Qed.

Lemma filter_map_length {A B : Type} (g : A -> B) (p : B -> bool) (l : list A) :
  length (List.filter p (map g l)) = length (List.filter (fun x => p (g x)) l).
Proof.
  induction l as [|a l IH]; cbn [map List.filter]; [reflexivity|].
  destruct (p (g a)); cbn [length]; rewrite IH; reflexivity.
Qed.

(** X20: the snapshot of [get_status_json] is consistent with its own list
    of steps: there is one entry for each step, total_steps is the number of
    entries, completed_steps the number of entries with a completion time
    and failed_steps the number of entries with an error, and neither
    exceeds total_steps. *)
Theorem snapshot_is_consistent (self : ProgressReporter.t F) (now : F) :
  let s := get_status_json self now in
  length (status_steps s) = length (steps self)
  /\ status_total_steps s = Z.of_nat (length (status_steps s))
  /\ status_completed_steps s
     = Z.of_nat (length (List.filter entry_completed (status_steps s)))
  /\ status_failed_steps s
     = Z.of_nat (length (List.filter entry_failed (status_steps s)))
  /\ 0 <= status_completed_steps s <= status_total_steps s
  /\ 0 <= status_failed_steps s <= status_total_steps s.
Proof.
  cbv zeta. cbn [get_status_json status_steps status_total_steps status_completed_steps
                   status_failed_steps].
  unfold completed_steps, failed_steps, len.
  rewrite !sum_ones_length, !filter_map_length, length_map.
  pose proof (filter_length_le ProgressStep.is_completed (steps self)).
  pose proof (filter_length_le ProgressStep.is_error (steps self)).
  split_and!; try reflexivity; lia.
Qed.

(** What a loop of conditional prints appends, and the colour flag. *)
Lemma fold_print_appends {A : Type} (cond : A -> bool) (line : A -> pystr)
    (l : list A) self :
  let self' := fold_left (fun s x => if cond x then print s (line x) else s) l self in
  stdout self' = stdout self ++ map line (List.filter cond l)
  /\ use_color self' = use_color self /\ start_time self' = start_time self.
Proof.
  revert self; induction l as [|a l IH]; intros self; cbn [fold_left List.filter].
  - rewrite app_nil_r. auto.
  - destruct (IH (if cond a then print self (line a) else self)) as (H1 & H2 & H3).
    cbv zeta in H1, H2, H3. rewrite H1, H2, H3.
    destruct (cond a); cbn [map stdout print use_color start_time]; [|auto].
    rewrite <- app_assoc. auto.
Qed.

Lemma show_summary_stdout self now :
  stdout (show_summary self now)
  = stdout self
    ++ [ [Re.newline] ++ rule; lit "INSTALLATION SUMMARY"; rule;
         lit "Total time: " ++ f_format1 (f_sub now (start_time self)) ++ lit "s";
         lit "Steps completed: " ++ Py.str_of_int (completed_steps self) ++ lit "/"
           ++ Py.str_of_int (len self) ]
    ++ (if 0 <? failed_steps self
        then [ lit "Steps failed: " ++ Py.str_of_int (failed_steps self);
               [Re.newline] ++ lit "Failed steps:" ]
             ++ map failed_line
                  (List.filter (fun item => ProgressStep.is_error (snd item))
                               (enumerate_from 0 (steps self)))
        else [ lit "All steps completed successfully!" ])
    ++ [rule].
Proof.
  unfold show_summary. cbv zeta.
  destruct (0 <? failed_steps self).
  - match goal with |- context [fold_left ?f ?l ?s] =>
      destruct (fold_print_appends (fun it => ProgressStep.is_error (snd it)) failed_line l s)
        as (H1 & _) end.
    cbv beta zeta in H1.
    change (stdout (print ?T ?x)) with (stdout T ++ [x]) at 1.
    rewrite H1. cbn [stdout print steps]. rewrite <- !app_assoc. reflexivity.
  - cbn [stdout print]. rewrite <- !app_assoc. reflexivity.
Qed.

Lemma show_summary_use_color self now :
  use_color (show_summary self now) = use_color self.
Proof.
  unfold show_summary. cbv zeta.
  destruct (0 <? failed_steps self); [|reflexivity].
  match goal with |- context [fold_left ?f ?l ?s] =>
    destruct (fold_print_appends (fun it => ProgressStep.is_error (snd it)) failed_line l s)
      as (_ & H2 & _) end.
  cbv beta zeta in H2.
  change (use_color (print ?T ?x)) with (use_color T). rewrite H2. reflexivity.
Qed.

(** No step has an error. *)
Lemma no_error_failed_steps self :
  Forall (fun st => ProgressStep.error st = None) (steps self) -> failed_steps self = 0.
Proof.
  unfold failed_steps. rewrite sum_ones_length. intros H.
  assert (List.filter ProgressStep.is_error (steps self) = []) as ->; [|reflexivity].
  induction H as [|st l Hst _ IH]; [reflexivity|].
  cbn [List.filter]. unfold ProgressStep.is_error at 1. rewrite Hst. exact IH.
Qed.

Lemma run_without_fail calls :
  forall self,
    forallb (fun c => negb (is_fail c)) calls = true ->
    Forall (fun st => ProgressStep.error st = None) (steps self) ->
    Forall (fun st => ProgressStep.error st = None) (steps (run self calls)).
Proof.
  induction calls as [|c calls IH]; intros self Hcalls Inv; [exact Inv|].
  rewrite run_cons. cbn [forallb] in Hcalls. apply andb_true_iff in Hcalls as [Hc Hcalls].
  apply IH; [exact Hcalls|].
  destruct c; cbn [is_fail negb] in Hc; try discriminate; cbn [step].
  - rewrite start_step_steps. apply Forall_app. split; [exact Inv|].
    constructor; [reflexivity | constructor].
  - rewrite complete_step_steps. destruct (in_range _ _); [|exact Inv].
    destruct (steps self !! Z.to_nat step_index) as [st|] eqn:Hst; [|exact Inv].
    apply Forall_insert; [exact Inv|].
    cbn. exact (Forall_lookup_1 _ _ _ _ Inv Hst).
  - exact Inv.
  - rewrite show_summary_steps. exact Inv.
  - exact Inv.
Qed.

(** X21: when no step has failed, [show_summary] prints the heading, the
    total time, the count of completed steps and the line that all steps
    completed successfully, whether or not every step was completed; and
    no step has failed after any calls on a new reporter among which there
    is no [fail_step]. *)
Theorem summary_without_failures
    (self : ProgressReporter.t F) (now : F)
    (total : Z) (color tty : bool) (now0 : F) (calls : list (call F)) :
  (failed_steps self = 0 ->
   stdout (show_summary self now)
   = stdout self
     ++ [ [Re.newline] ++ rule; lit "INSTALLATION SUMMARY"; rule;
          lit "Total time: " ++ f_format1 (f_sub now (start_time self)) ++ lit "s";
          lit "Steps completed: " ++ Py.str_of_int (completed_steps self) ++ lit "/"
            ++ Py.str_of_int (Z.of_nat (length (steps self)));
          lit "All steps completed successfully!"; rule ])
  /\ (forallb (fun c => negb (is_fail c)) calls = true ->
      failed_steps (run (__init__ total color tty now0) calls) = 0).
Proof.
  split.
  - intros H0. rewrite show_summary_stdout, H0. reflexivity.
  - intros Hcalls. apply no_error_failed_steps, run_without_fail; [exact Hcalls|].
    constructor.
Qed.

Lemma failed_lines_listed (l : list (ProgressStep.t F)) :
  forall (k : Z) (j : nat) st,
    l !! j = Some st -> ProgressStep.is_error st = true ->
    In (failed_line (k + Z.of_nat j, st))
       (map failed_line
          (List.filter (fun item => ProgressStep.is_error (snd item)) (enumerate_from k l))).
Proof.
  induction l as [|a l IH]; intros k j st Hj Hst; [discriminate|].
  cbn [enumerate_from List.filter snd].
  destruct j as [|j].
  - injection Hj as ->. rewrite Hst. cbn [map]. left. f_equal. f_equal. lia.
  - change ((a :: l) !! S j) with (l !! j) in Hj.
    assert (Hin := IH (k + 1) j st Hj Hst).
    replace (k + 1 + Z.of_nat j) with (k + Z.of_nat (S j)) in Hin by lia.
    destruct (ProgressStep.is_error a); [right|]; exact Hin.
Qed.

(** X22: [show_summary] names every failed step: for a step with an error
    it prints the number of failed steps and a line with the position of the
    step, counted from one, its name and its error. *)
Theorem summary_lists_every_failed_step
    (self : ProgressReporter.t F) (now : F) (j : nat) (st : ProgressStep.t F)
    (e : pystr) :
  steps self !! j = Some st ->
  ProgressStep.error st = Some e ->
  0 < failed_steps self
  /\ In (lit "Steps failed: " ++ Py.str_of_int (failed_steps self))
        (stdout (show_summary self now))
  /\ In (lit "  " ++ Py.str_of_int (Z.of_nat j + 1) ++ lit ". " ++ ProgressStep.name st
         ++ lit ": " ++ e)
        (stdout (show_summary self now))
  /\ ~ In (lit "All steps completed successfully!")
         (skipn (length (stdout self)) (stdout (show_summary self now))).
Proof.
  intros Hj He.
  assert (Herr : ProgressStep.is_error st = true).
  { unfold ProgressStep.is_error. rewrite He. reflexivity. }
  assert (Hpos : 0 < failed_steps self).
  { unfold failed_steps. rewrite sum_ones_length.
    assert (Hin : In st (List.filter ProgressStep.is_error (steps self))).
    { apply filter_In. split; [|exact Herr].
      apply list_elem_of_In, list_elem_of_lookup. eauto. }
    destruct (List.filter _ _); [destruct Hin | cbn; lia]. }
  split; [exact Hpos|]. split; [apply show_summary_failed_line, Hpos|].
  rewrite show_summary_stdout.
  assert ((0 <? failed_steps self) = true) as -> by (apply Z.ltb_lt; exact Hpos).
  split.
  - apply in_or_app. right. apply in_or_app. right. apply in_or_app. left.
    apply in_or_app. right.
    pose proof (failed_lines_listed (steps self) 0 j st Hj Herr) as Hin.
    unfold failed_line at 1 in Hin. rewrite He in Hin.
    replace (0 + Z.of_nat j + 1) with (Z.of_nat j + 1) in Hin by lia. exact Hin.
  - rewrite skipn_app, skipn_all, Nat.sub_diag. cbn [app skipn].
    intros Hin.
    repeat (destruct Hin as [H | Hin]; [discriminate H|]).
    apply in_app_or in Hin as [Hin | [H | []]]; [|discriminate H].
    apply in_map_iff in Hin as ([i s] & H & _). unfold failed_line in H.
    discriminate H.
Qed.

Lemma step_use_color self c : use_color (step self c) = use_color self.
Proof.
  destruct c; cbn [step].
  - reflexivity.
  - unfold complete_step. destruct (in_range _ _); [|reflexivity].
    destruct (_ !! _) as [st|]; [|reflexivity]. cbv zeta.
    destruct success_message as [m|]; [destruct (Py.truthy m)|];
      try reflexivity;
      destruct (ProgressStep.duration _) as [d|]; try reflexivity;
      destruct (f_truthy d); reflexivity.
  - apply fail_step_frame.
  - reflexivity.
  - apply show_summary_use_color.
  - reflexivity.
Qed.

Lemma run_use_color calls self : use_color (run self calls) = use_color self.
Proof.
  revert self; induction calls as [|c calls IH]; intros self; [reflexivity|].
  rewrite run_cons, IH. apply step_use_color.
Qed.

(** X24: [log] prints one line, the tag of the level, a space and the
    message, and changes nothing else; the tag is wrapped in the escape
    sequence of its colour when the reporter colours and is plain
    otherwise; a reporter colours only when it was created with colour
    asked for and on a terminal, and this never changes during its
    life. *)
Theorem log_prints_one_tagged_line
    (self : ProgressReporter.t F) (level : LogLevel) (message : pystr)
    (total : Z) (color tty : bool) (now0 : F) (calls : list (call F)) :
  stdout (log self level message)
  = stdout self
    ++ [ (if use_color self
          then esc ++ lit "[" ++ colour_code level ++ lit "m" ++ plain_tag level
               ++ esc ++ lit "[0m"
          else plain_tag level)
         ++ lit " " ++ message ]
  /\ steps (log self level message) = steps self
  /\ current_step (log self level message) = current_step self
  /\ total_steps (log self level message) = total_steps self
  /\ use_color (run (__init__ total color tty now0) calls) = color && tty.
Proof.
  split_and!; try reflexivity.
  - unfold log, _get_level_prefix, _colorize. cbn [stdout print].
    destruct level, (use_color self); cbn [negb plain_tag colour_code];
      rewrite <- ?app_assoc; reflexivity.
  - rewrite run_use_color. reflexivity.
Qed.

End MoreReporterFacts.

Lemma complete_step_sets_only_completion_witness :
  let self := ProgressReporter.fail_step
                (fst (ProgressReporter.start_step
                        (ProgressReporter.__init__ 3 true false 100)
                        (lit "pools") (lit "Creating ZFS pools") 101))
                0 (lit "no disk") in
  ProgressReporter.in_range self 0 = true
  /\ ProgressReporter.failed_steps (ProgressReporter.complete_step self 0 None 105) = 1
  /\ ProgressReporter.completed_steps (ProgressReporter.complete_step self 0 None 105) = 1.
Proof.
  intros self. split; [reflexivity|]. split; [|reflexivity].
  destruct (complete_step_sets_only_completion self 0 None 105) as (_ & _ & _ & _ & H & _);
    [reflexivity|].
  rewrite H. reflexivity.
Defined.

Lemma out_of_range_index_is_ignored_witness :
  let self := fst (ProgressReporter.start_step
                     (ProgressReporter.__init__ 0 true false 100)
                     (lit "pools") (lit "Creating ZFS pools") 101) in
  ProgressReporter.fail_step self (-1) (lit "no disk") = self
  /\ ProgressReporter.complete_step self 1 None 105 = self.
Proof.
  intros self. split.
  - apply (out_of_range_index_is_ignored self (-1) None (lit "no disk") 0). left. lia.
  - apply (out_of_range_index_is_ignored self 1 None [] 105). right. cbn. lia.
Defined.

Lemma summary_without_failures_witness :
  let self := fst (ProgressReporter.start_step
                     (ProgressReporter.__init__ 1 true false 100)
                     (lit "pools") (lit "Creating ZFS pools") 101) in
  ProgressReporter.completed_steps self = 0
  /\ In (lit "All steps completed successfully!")
       (ProgressReporter.stdout (ProgressReporter.show_summary self 105)).
Proof.
  intros self. split; [reflexivity|].
  destruct (summary_without_failures self 105 0 true false 100 []) as [H _].
  rewrite H by reflexivity.
  apply in_or_app. right. do 5 right. left. reflexivity.
Defined.

Lemma summary_lists_every_failed_step_witness :
  let self := ProgressReporter.fail_step
                (fst (ProgressReporter.start_step
                        (ProgressReporter.__init__ 1 true false 100)
                        (lit "pools") (lit "Creating ZFS pools") 101))
                0 (lit "no disk") in
  In (lit "  1. pools: no disk")
     (ProgressReporter.stdout (ProgressReporter.show_summary self 105)).
Proof.
  intros self.
  destruct (summary_lists_every_failed_step self 105 0
              (ProgressStep.make (lit "pools") (lit "Creating ZFS pools") (Some 101) None
                 (Some (lit "no disk")))
              (lit "no disk")) as (_ & _ & H & _); [reflexivity | reflexivity|].
  exact H.
Defined.
